(** * Billing engine: loan aggregate, payments and error normalisation

    A shallow embedding of [internal/entity/loan.go],
    [internal/entity/loan_payment.go], the postgres repository, the
    methods of [internal/service] and the error codes of the gRPC
    interface, together with the parts of the libraries they rest on:
    [shopspring/decimal] v1.4.0 (arbitrary-precision decimals), Go's
    [time] package (instants, durations, weekdays) and IEEE-754
    binary64 arithmetic as used by [Duration.Hours].  The database is
    what it answers to each statement; a repository call yields the
    statements it sent together with its results. *)

From Stdlib Require Import ZArith NArith QArith Qpower Qround Qabs Lia Lqa List Bool String.
Import ListNotations.

Local Open Scope Z_scope.

(* ================================================================== *)
(** ** Outcomes of Go calls that may panic *)
(* ================================================================== *)

(** A Go call either returns a value or panics.  [Panic] records the
    run-time panic raised by the decimal library (division by zero,
    exponent overflow). *)
Inductive outcome (A : Type) : Type :=
| Ret (a : A)
| Panic.
Arguments Ret {A} a.
Arguments Panic {A}.

Definition bind {A B : Type} (m : outcome A) (k : A -> outcome B) : outcome B :=
  match m with
  | Ret a => k a
  | Panic => Panic
  end.

Notation "x <- m ;; k" := (bind m (fun x => k))
  (at level 61, m at next level, right associativity).

(* ================================================================== *)
(** ** shopspring/decimal *)
(* ================================================================== *)

Module decimal.

(** [Decimal{value *big.Int, exp int32}] denotes [value * 10 ^ exp]. *)
Record Decimal : Type := New { value : Z; exp : Z }.

Definition MinInt32 : Z := -2147483648.
Definition MaxInt32 : Z := 2147483647.

(** [var DivisionPrecision = 16] *)
Definition DivisionPrecision : Z := 16.

(** [var Zero = New(0, 1)] *)
Definition Zero : Decimal := New 0 1.

(** [NewFromInt32(v) = Decimal{big.NewInt(int64(v)), 0}] *)
Definition NewFromInt32 (v : Z) : Decimal := New v 0.

(** [NewFromInt(v) = Decimal{big.NewInt(v), 0}] *)
Definition NewFromInt (v : Z) : Decimal := New v 0.

(** [rescale]: same number at another exponent; moving to a larger
    exponent drops digits with [big.Int.Quo] (truncation toward zero). *)
Definition rescale (d : Decimal) (e : Z) : Decimal :=
  if exp d =? e then d
  else
    let diff := Z.abs (e - exp d) in
    let expScale := 10 ^ diff in
    if exp d <? e then New (Z.quot (value d) expScale) e
    else New (value d * expScale) e.

Definition RescalePair (d1 d2 : Decimal) : Decimal * Decimal :=
  if exp d1 <? exp d2 then (d1, rescale d2 (exp d1))
  else if exp d2 <? exp d1 then (rescale d1 (exp d2), d2)
  else (d1, d2).

(** [Cmp] returns -1, 0 or 1; here as a [comparison]. *)
Definition Cmp (d d2 : Decimal) : comparison :=
  if exp d =? exp d2 then value d ?= value d2
  else let '(rd, rd2) := RescalePair d d2 in value rd ?= value rd2.

Definition Equal (d d2 : Decimal) : bool :=
  match Cmp d d2 with Eq => true | _ => false end.

Definition LessThanOrEqual (d d2 : Decimal) : bool :=
  match Cmp d d2 with Gt => false | _ => true end.

Definition Sign (d : Decimal) : Z := Z.sgn (value d).

Definition IsNegative (d : Decimal) : bool := Sign d =? -1.
Definition IsZero (d : Decimal) : bool := Sign d =? 0.

Definition Abs (d : Decimal) : Decimal := New (Z.abs (value d)) (exp d).

Definition Add (d d2 : Decimal) : Decimal :=
  let '(rd, rd2) := RescalePair d d2 in
  New (value rd + value rd2) (exp rd).

Definition Sub (d d2 : Decimal) : Decimal :=
  let '(rd, rd2) := RescalePair d d2 in
  New (value rd - value rd2) (exp rd).

(** [Mul] panics when the sum of the exponents leaves int32. *)
Definition Mul (d d2 : Decimal) : outcome Decimal :=
  let expInt64 := exp d + exp d2 in
  if (MaxInt32 <? expInt64) || (expInt64 <? MinInt32) then Panic
  else Ret (New (value d * value d2) expInt64).

(** [QuoRem]: quotient truncated toward zero at [precision] decimal
    places, and the remainder.  Panics on a zero divisor and on an
    exponent outside int32. *)
Definition QuoRem (d d2 : Decimal) (precision : Z) : outcome (Decimal * Decimal) :=
  if Z.sgn (value d2) =? 0 then Panic
  else
    let scale := - precision in
    let e := exp d - exp d2 - scale in
    if (MaxInt32 <? e) || (e <? MinInt32) then Panic
    else
      let '(aa, bb, scalerest) :=
        if e <? 0
        then (value d, value d2 * 10 ^ (- e), exp d)
        else (value d * 10 ^ e, value d2, scale + exp d2) in
      Ret (New (Z.quot aa bb) scale, New (Z.rem aa bb) scalerest).

(** [DivRound]: the quotient rounded half away from zero at
    [precision] decimal places. *)
Definition DivRound (d d2 : Decimal) (precision : Z) : outcome Decimal :=
  qr <- QuoRem d d2 precision ;;
  let '(q, r) := qr in
  let r2 := New (Z.abs (value r) * 2) (exp r + precision) in
  match Cmp r2 (Abs d2) with
  | Lt => Ret q
  | _ =>
    if Z.sgn (value d) * Z.sgn (value d2) <? 0
    then Ret (Sub q (New 1 (- precision)))
    else Ret (Add q (New 1 (- precision)))
  end.

(** [Div(d2) = DivRound(d2, DivisionPrecision)] *)
Definition Div (d d2 : Decimal) : outcome Decimal :=
  DivRound d d2 DivisionPrecision.

(** [Round(places)]: half away from zero. *)
Definition Round (d : Decimal) (places : Z) : Decimal :=
  if exp d =? - places then d
  else
    let ret := rescale d (- places - 1) in
    let v := if Z.sgn (value ret) <? 0 then value ret - 5 else value ret + 5 in
    (* big.Int.DivMod: Euclidean division, 0 <= m < 10 *)
    let q := v / 10 in
    let m := v mod 10 in
    let q' := if (Z.sgn q <? 0) && negb (m =? 0) then q + 1 else q in
    New q' (exp ret + 1).

(** [RoundUp(places)]: away from zero. *)
Definition RoundUp (d : Decimal) (places : Z) : Decimal :=
  if - places <=? exp d then d
  else
    let rescaled := rescale d (- places) in
    if Equal d rescaled then d
    else if 0 <? Z.sgn (value d) then New (value rescaled + 1) (exp rescaled)
    else if Z.sgn (value d) <? 0 then New (value rescaled - 1) (exp rescaled)
    else rescaled.

(** [RoundDown(places)]: toward zero. *)
Definition RoundDown (d : Decimal) (places : Z) : Decimal :=
  if - places <=? exp d then d
  else
    let rescaled := rescale d (- places) in
    if Equal d rescaled then d else rescaled.

(** [big.Int.Int64]: the low 64 bits, as a signed integer. *)
Definition wrap64 (z : Z) : Z := (z + 2 ^ 63) mod 2 ^ 64 - 2 ^ 63.

(** [IntPart() = d.rescale(0).value.Int64()] *)
Definition IntPart (d : Decimal) : Z := wrap64 (value (rescale d 0)).

(** The rational number a decimal denotes. *)
Definition toQ (d : Decimal) : Q := (inject_Z (value d) * 10 ^ exp d)%Q.

(** The integer a decimal is at a smaller exponent [m]. *)
Definition scaled (d : Decimal) (m : Z) : Z := value d * 10 ^ (exp d - m).

(** The int32 range of exponents and week counts. *)
Definition int32 (z : Z) : Prop := MinInt32 <= z <= MaxInt32.

End decimal.

Import decimal.

(* ================================================================== *)
(** ** IEEE-754 binary64 arithmetic (Go's float64) *)
(* ================================================================== *)

(** A finite float64 is the rational it denotes.  Every operation is
    the exact operation followed by rounding to the nearest
    representable number, ties to even (53 significant bits, smallest
    exponent -1074).  Overflow to infinity is not modelled: the only
    floats the program computes are hour counts of an int64 nanosecond
    duration, below 2^22 in magnitude. *)
Module float64.

Local Open Scope Q_scope.

(** Nearest integer, ties to even. *)
Definition rne (x : Q) : Z :=
  let f := Qfloor x in
  match Qcompare (x - inject_Z f) (1 # 2) with
  | Lt => f
  | Gt => (f + 1)%Z
  | Eq => if Z.even f then f else (f + 1)%Z
  end.

(** The exponent [k] with [2^k <= |x| < 2^(k+1)], for [x <> 0]. *)
Definition binade (x : Q) : Z :=
  let k := (Z.log2 (Z.abs (Qnum x)) - Z.log2 (Zpos (Qden x)))%Z in
  if Qle_bool (2 ^ k) (Qabs x) then k else (k - 1)%Z.

Definition emin : Z := -1074.

(** Exponent of the unit in the last place of the floats around [x]. *)
Definition ulp_exp (x : Q) : Z := Z.max (binade x - 52) emin.

(** Rounding at a fixed unit [2^e]. *)
Definition round_at (e : Z) (x : Q) : Q := inject_Z (rne (x * 2 ^ (- e))) * 2 ^ e.

Definition round (x : Q) : Q :=
  if Qeq_bool x 0 then 0 else round_at (ulp_exp x) x.

Definition of_int (z : Z) : Q := round (inject_Z z).
Definition add (x y : Q) : Q := round (x + y).
Definition div (x y : Q) : Q := round (x / y).

(** Conversion to an integer type discards the fraction. *)
Definition trunc (x : Q) : Z :=
  if Qle_bool 0 x then Qfloor x else Qceiling x.

End float64.

(* ================================================================== *)
(** ** Go's time package *)
(* ================================================================== *)

Module time.

(** An instant, in nanoseconds since the zero [Time],
    0001-01-01T00:00:00Z (a Monday in the proleptic Gregorian
    calendar).  Locations are not modelled: the program converts to UTC
    before every calendar computation. *)
Definition Time : Type := Z.

(** [type Duration int64], in nanoseconds. *)
Definition Duration : Type := Z.

Definition Nanosecond : Duration := 1.
Definition Second : Duration := 1000000000 * Nanosecond.
Definition Minute : Duration := 60 * Second.
Definition Hour : Duration := 60 * Minute.
Definition Day : Duration := 24 * Hour.

Definition Week : Duration := 7 * Day.

Definition minDuration : Duration := - 2 ^ 63.
Definition maxDuration : Duration := 2 ^ 63 - 1.

Definition inDuration (d : Z) : Prop := minDuration <= d <= maxDuration.

(** Width, in nanoseconds, of the window before a week boundary in
    which binary64 rounding of [Hours] can reach the boundary. *)
Definition slack : Duration := 1677.

Definition IsZero (t : Time) : bool := t =? 0.

(** [t.Sub(u)]: the difference, saturated at the int64 range. *)
Definition Sub (t u : Time) : Duration :=
  Z.max minDuration (Z.min maxDuration (t - u)).

(** [t.Add(d)] *)
Definition Add (t : Time) (d : Duration) : Time := t + d.

(** The fraction-of-an-hour summand of [Hours]:
    [float64(nsec)/(60*60*1e9)]. *)
Definition hourFrac (d : Duration) : Q :=
  float64.div (float64.of_int (Z.rem d Hour)) (float64.of_int (60 * 60 * 10 ^ 9)).

(** [d.Hours()]:
    [hour := d / Hour; nsec := d % Hour;
     return float64(hour) + float64(nsec)/(60*60*1e9)] *)
Definition Hours (d : Duration) : Q :=
  let hour := Z.quot d Hour in
  float64.add (float64.of_int hour) (hourFrac d).

(** Days since 0001-01-01 of the UTC calendar day containing [t]. *)
Definition absDays (t : Time) : Z := t / Day.

(** [t.Weekday()] in UTC: Sunday = 0, ..., Saturday = 6. *)
Definition Sunday : Z := 0.
Definition Monday : Z := 1.
Definition Weekday (t : Time) : Z := (absDays t + 1) mod 7.

(** Civil date of a day number (proleptic Gregorian calendar), as
    [t.Date()] returns it in UTC. *)
Definition civil (days : Z) : Z * Z * Z :=
  let z := days + 306 in
  let era := z / 146097 in
  let doe := z mod 146097 in
  let yoe := (doe - doe / 1460 + doe / 36524 - doe / 146096) / 365 in
  let doy := doe - (365 * yoe + yoe / 4 - yoe / 100) in
  let mp := (5 * doy + 2) / 153 in
  let d := doy - (153 * mp + 2) / 5 + 1 in
  let m := if mp <? 10 then mp + 3 else mp - 9 in
  let y := yoe + era * 400 + (if m <=? 2 then 1 else 0) in
  (y, m, d).

Definition Year (t : Time) : Z := fst (fst (civil (absDays t))).
Definition Month (t : Time) : Z := snd (fst (civil (absDays t))).
Definition Day_ (t : Time) : Z := snd (civil (absDays t)).

(** Day number of a civil date; [day] may lie outside the month, as
    [time.Date] normalises it. *)
Definition daysOf (year month day : Z) : Z :=
  let y := if month <=? 2 then year - 1 else year in
  let era := y / 400 in
  let yoe := y mod 400 in
  let mp := (month + 9) mod 12 in
  let doy := (153 * mp + 2) / 5 + day - 1 in
  let doe := yoe * 365 + yoe / 4 - yoe / 100 + doy in
  era * 146097 + doe - 306.

(** [time.Date(year, month, day, hour, min, sec, nsec, time.UTC)] *)
Definition Date (year month day hour min sec nsec : Z) : Time :=
  daysOf year month day * Day + hour * Hour + min * Minute + sec * Second + nsec.

(** [t.AddDate(0, 0, days)] in UTC:
    [Date(year, month, day+days, hour, min, sec, nsec, UTC)] with the
    date and clock of [t]. *)
Definition AddDate_days (t : Time) (days : Z) : Time :=
  Date (Year t) (Month t) (Day_ t + days) 0 0 0 (t mod Day).

End time.

(* ================================================================== *)
(** ** internal/common/businesserror and Go error values *)
(* ================================================================== *)

Module businesserror.

(** [type Kind int]: every integer is a kind; the package declares five
    of them, numbered by [iota]. *)
Definition Kind : Type := Z.

Definition KindInternal : Kind := 0%Z.
Definition KindBadRequest : Kind := 1%Z.
Definition KindUnprocessableEntity : Kind := 2%Z.
Definition KindNotFound : Kind := 3%Z.
Definition KindAlreadyExists : Kind := 4%Z.

(** [type BusinessError struct { msg string; kind Kind }].  The program
    only compares the package-level error values it declares; pointer
    identity is rendered as equality of the record. *)
Record BusinessError : Type := New { msg : string; kind : Kind }.

Definition Error (e : BusinessError) : string := msg e.
Definition KindOf (e : BusinessError) : Kind := kind e.

End businesserror.

Import businesserror.

(** A non-nil Go [error]: a [*BusinessError], an error of any other
    type (a driver or random-source failure), an error wrapping
    another one ([fmt.Errorf] with [%w]), or two errors combined by
    [multierr.Combine].  A possibly nil error is an [option error]. *)
Inductive error : Type :=
| EBusiness (b : BusinessError)
| EOpaque (text : string)
| EWrap (text : string) (inner : error)
| ECombine (first second : error).

(** [errors.As(err, &businessErr)] with a [*BusinessError] target: the
    first business error met walking the chain depth first. *)
Fixpoint errors_As (err : error) : option BusinessError :=
  match err with
  | EBusiness b => Some b
  | EOpaque _ => None
  | EWrap _ inner => errors_As inner
  | ECombine e1 e2 =>
    match errors_As e1 with
    | Some b => Some b
    | None => errors_As e2
    end
  end.

(** A Go result pair [(value, err)]. *)
Inductive res (A : Type) : Type :=
| Ok (a : A)
| Err (e : error).
Arguments Ok {A} a.
Arguments Err {A} e.

(* ================================================================== *)
(** ** internal/entity *)
(* ================================================================== *)

Module entity.

(** [uuid.UUID], a 128-bit value; [uuid.Nil] is all zeroes. *)
Definition UUID : Type := N.
Definition uuid_Nil : UUID := 0%N.

(** What a call of [uuid.NewV7()] returned: an identifier, or the
    error of the random source. *)
Inductive NewV7 : Type :=
| V7 (id : UUID)
| V7Failed (text : string).

Definition delinquencyThresholdWeeks : Z := 2.

Definition ErrLoanEmptyID := New "loan id cannot be empty" KindBadRequest.
Definition ErrLoanEmptyUserID := New "loan user id cannot be empty" KindBadRequest.
Definition ErrLoanInvalidAmount := New "loan amount must be greater than zero" KindBadRequest.
Definition ErrLoanInvalidPaymentDurationWeeks :=
  New "loan payment duration must be at least 1 week" KindBadRequest.
Definition ErrLoanInvalidPaymentAmount :=
  New "loan payment amount must be greater than zero" KindBadRequest.
Definition ErrLoanInvalidStatus := New "invalid loan status" KindBadRequest.
Definition ErrLoanEmptyCreatedAt := New "created at cannot be empty" KindBadRequest.
Definition ErrLoanEmptyUpdatedAt := New "updated at cannot be empty" KindBadRequest.
Definition ErrLoanStillHasOngoingLoan :=
  New "user still has ongoing loan" KindUnprocessableEntity.
Definition ErrLoanNotFound := New "loan not found" KindNotFound.
Definition ErrLoanCurrentWeekAlreadyPaid :=
  New "current week is already paid" KindUnprocessableEntity.
Definition ErrLoanNotExactPaymentAmount :=
  New "loan payment amount does not match billing amount" KindUnprocessableEntity.

Definition ErrLoanPaymentEmptyID := New "loan payment id cannot be empty" KindBadRequest.
Definition ErrLoanPaymentEmptyLoanID :=
  New "loan payment loan id cannot be empty" KindBadRequest.
Definition ErrLoanPaymentInvalidAmount :=
  New "loan payment amount must be greater than zero" KindBadRequest.
Definition ErrLoanPaymentEmptyCreatedAt := New "created at cannot be empty" KindBadRequest.
Definition ErrLoanPaymentEmptyUpdatedAt := New "updated at cannot be empty" KindBadRequest.

(** [interestRate = decimal.NewFromFloat(0.1)]: the shortest decimal
    that prints the float, 1 * 10^-1. *)
Definition interestRate : Decimal := decimal.New 1 (-1).

(** [type LoanStatus int] *)
Definition LoanStatus : Type := Z.
Definition LoanStatusOngoing : LoanStatus := 0.
Definition LoanStatusPaid : LoanStatus := 1.

Definition IsValid (s : LoanStatus) : bool :=
  (s =? LoanStatusOngoing) || (s =? LoanStatusPaid).

Record Loan : Type := mkLoan {
  ID : UUID;
  UserID : UUID;
  Amount : Decimal;
  PaymentDurationWeeks : Z;
  PaymentAmount : Decimal;
  Status : LoanStatus;
  CreatedAt : time.Time;
  UpdatedAt : time.Time
}.

Record LoanPayment : Type := mkLoanPayment {
  lpID : UUID;
  lpLoanID : UUID;
  lpAmount : Decimal;
  lpCreatedAt : time.Time;
  lpUpdatedAt : time.Time
}.

(** [(l *Loan) validate()]: [None] is the nil error. *)
Definition validate (l : Loan) : option BusinessError :=
  if (ID l =? uuid_Nil)%N then Some ErrLoanEmptyID
  else if (UserID l =? uuid_Nil)%N then Some ErrLoanEmptyUserID
  else if LessThanOrEqual (Amount l) Zero then Some ErrLoanInvalidAmount
  else if PaymentDurationWeeks l <=? 0 then Some ErrLoanInvalidPaymentDurationWeeks
  else if LessThanOrEqual (PaymentAmount l) Zero then Some ErrLoanInvalidPaymentAmount
  else if negb (IsValid (Status l)) then Some ErrLoanInvalidStatus
  else if time.IsZero (CreatedAt l) then Some ErrLoanEmptyCreatedAt
  else if time.IsZero (UpdatedAt l) then Some ErrLoanEmptyUpdatedAt
  else None.

(** [CreateLoan].  [newV7] is what [uuid.NewV7()] returned and [clock]
    what [time.Now().UTC()] read. *)
Definition CreateLoan (newV7 : NewV7) (clock : time.Time)
    (userID : UUID) (amount : Decimal) (paymentDurationWeeks : Z)
    : outcome (res Loan) :=
  match newV7 with
  | V7Failed text => Ret (Err (EOpaque text))
  | V7 loanID =>
    interest <- Mul amount interestRate ;;
    let loan := {|
      ID := loanID;
      UserID := userID;
      Amount := amount;
      PaymentDurationWeeks := paymentDurationWeeks;
      PaymentAmount := Add amount (RoundUp interest 0);
      Status := LoanStatusOngoing;
      CreatedAt := clock;
      UpdatedAt := clock |} in
    match validate loan with
    | Some e => Ret (Err (EBusiness e))
    | None => Ret (Ok loan)
    end
  end.

(** [(l *Loan) ValidateLatestLoan(latestLoan *Loan)]; a nil pointer is
    [None]. *)
Definition ValidateLatestLoan (l latestLoan : option Loan) : option BusinessError :=
  match l, latestLoan with
  | Some l, Some latest =>
    if (UserID l =? UserID latest)%N && (Status latest =? LoanStatusOngoing)
    then Some ErrLoanStillHasOngoingLoan
    else None
  | _, _ => None
  end.

Definition OutstandingAmount (l : option Loan) (paidAmount : Decimal) : Decimal :=
  match l with
  | None => Zero
  | Some l =>
    let outstandingAmount := Sub (PaymentAmount l) paidAmount in
    if IsNegative outstandingAmount then Zero else outstandingAmount
  end.

(** [(l *Loan) weeklyPaymentAmount()] *)
Definition weeklyPaymentAmount (l : option Loan) : outcome Decimal :=
  match l with
  | None => Ret Zero
  | Some l =>
    q <- Div (PaymentAmount l) (NewFromInt32 (PaymentDurationWeeks l)) ;;
    Ret (RoundDown q 0)
  end.

(** The Monday 00:00 UTC that [currentWeek] counts from. *)
Definition beginningOfWeek (l : Loan) : time.Time :=
  let createdAt := CreatedAt l in
  let weekday := time.Weekday createdAt - 1 in
  let weekday := if weekday <? 0 then weekday + 7 else weekday in
  let beginningOfWeek := time.AddDate_days createdAt (- weekday) in
  time.Date (time.Year beginningOfWeek) (time.Month beginningOfWeek)
            (time.Day_ beginningOfWeek) 0 0 0 0.

(** [int32(d.Hours() / (24 * 7))] *)
Definition weeksOf (d : time.Duration) : Z :=
  float64.trunc (float64.div (time.Hours d) (float64.of_int (24 * 7))).

(** [(l *Loan) currentWeek(now)] *)
Definition currentWeek (l : option Loan) (now : time.Time) : Z :=
  match l with
  | None => 0
  | Some l => weeksOf (time.Sub now (beginningOfWeek l))
  end.

(** [(l *Loan) CurrentBillAmount(now, paidAmount)] *)
Definition CurrentBillAmount (l : option Loan) (now : time.Time) (paidAmount : Decimal)
    : outcome Decimal :=
  match l with
  | None => Ret Zero
  | Some l' =>
    paymentObligation <-
      (let currentWeek := currentWeek l now in
       if currentWeek <? PaymentDurationWeeks l'
       then w <- weeklyPaymentAmount l ;; Mul w (NewFromInt32 currentWeek)
       else Ret (PaymentAmount l')) ;;
    let billAmount := Sub paymentObligation paidAmount in
    Ret (if IsNegative billAmount then Zero else billAmount)
  end.

(** [(l *Loan) IsDelinquent(now, paidAmount)] *)
Definition IsDelinquent (l : option Loan) (now : time.Time) (paidAmount : Decimal)
    : outcome bool :=
  match l with
  | None => Ret false
  | Some l' =>
    if (Status l' =? LoanStatusPaid) || Equal (PaymentAmount l') paidAmount
    then Ret false
    else
      billAmount <- CurrentBillAmount l now paidAmount ;;
      w <- weeklyPaymentAmount l ;;
      q <- Div billAmount w ;;
      let unpaidWeeks := IntPart (Round q 0) in
      Ret (delinquencyThresholdWeeks <? unpaidWeeks)
  end.

(** [(lp *LoanPayment) validate()] *)
Definition validatePayment (lp : LoanPayment) : option BusinessError :=
  if (lpID lp =? uuid_Nil)%N then Some ErrLoanPaymentEmptyID
  else if (lpLoanID lp =? uuid_Nil)%N then Some ErrLoanPaymentEmptyLoanID
  else if LessThanOrEqual (lpAmount lp) Zero then Some ErrLoanPaymentInvalidAmount
  else if time.IsZero (lpCreatedAt lp) then Some ErrLoanPaymentEmptyCreatedAt
  else if time.IsZero (lpUpdatedAt lp) then Some ErrLoanPaymentEmptyUpdatedAt
  else None.

(** [CreateLoanPayment(loanID, amount)] *)
Definition CreateLoanPayment (newV7 : NewV7) (clock : time.Time)
    (loanID : UUID) (amount : Decimal) : res LoanPayment :=
  match newV7 with
  | V7Failed text => Err (EOpaque text)
  | V7 paymentID =>
    let payment := {|
      lpID := paymentID;
      lpLoanID := loanID;
      lpAmount := amount;
      lpCreatedAt := clock;
      lpUpdatedAt := clock |} in
    match validatePayment payment with
    | Some e => Err (EBusiness e)
    | None => Ok payment
    end
  end.

(** [l.Status = LoanStatusPaid; l.UpdatedAt = time.Now().UTC()] *)
Definition markedPaid (l : Loan) (clock2 : time.Time) : Loan :=
  {| ID := ID l; UserID := UserID l; Amount := Amount l;
     PaymentDurationWeeks := PaymentDurationWeeks l;
     PaymentAmount := PaymentAmount l;
     Status := LoanStatusPaid;
     CreatedAt := CreatedAt l;
     UpdatedAt := clock2 |}.

(** What a call of [MakePayment] leaves behind: the receiver after the
    call and the three results [(loanPayment, shouldUpdateLoan, err)]. *)
Record PaymentResult : Type := mkPaymentResult {
  loanAfter : option Loan;
  loanPayment : option LoanPayment;
  shouldUpdateLoan : bool;
  err : option error
}.

(** [(l *Loan) MakePayment(now, paidAmount, paymentAmount)].  [newV7]
    and [clock] are the reads of [CreateLoanPayment]; [clock2] is the
    [time.Now().UTC()] stored in [UpdatedAt]. *)
Definition MakePayment (newV7 : NewV7) (clock clock2 : time.Time)
    (l : option Loan) (now : time.Time) (paidAmount paymentAmount : Decimal)
    : outcome PaymentResult :=
  match l with
  | None => Ret (mkPaymentResult None None false (Some (EBusiness ErrLoanNotFound)))
  | Some l' =>
    billAmount <- CurrentBillAmount l now paidAmount ;;
    if decimal.IsZero billAmount
    then Ret (mkPaymentResult l None false (Some (EBusiness ErrLoanCurrentWeekAlreadyPaid)))
    else if negb (Equal billAmount paymentAmount)
    then Ret (mkPaymentResult l None false (Some (EBusiness ErrLoanNotExactPaymentAmount)))
    else
      match CreateLoanPayment newV7 clock (ID l') paymentAmount with
      | Err e => Ret (mkPaymentResult l None false (Some e))
      | Ok loanPayment =>
        if Equal (Add paidAmount paymentAmount) (PaymentAmount l')
        then Ret (mkPaymentResult (Some (markedPaid l' clock2)) (Some loanPayment) true None)
        else Ret (mkPaymentResult l (Some loanPayment) false None)
      end
  end.

End entity.

(* ================================================================== *)
(** ** internal/service: error normalisation *)
(* ================================================================== *)

Module service.

Definition UnexpectedError : BusinessError :=
  New "unexpected error, please try again" KindInternal.

(** [ensureBusinessError(err error) error] *)
Definition ensureBusinessError (err : option error) : option error :=
  match err with
  | None => None
  | Some e =>
    match errors_As e with
    | Some businessErr => Some (EBusiness businessErr)
    | None => Some (EBusiness UnexpectedError)
    end
  end.

End service.

(* ================================================================== *)
(** ** internal/repository/adapter/db/postgres *)
(* ================================================================== *)

Module postgres.

Import entity.

(** [postgresLoan]: a row of the [loans] table. *)
Record postgresLoan : Type := mkPostgresLoan {
  pgID : UUID;
  pgUserID : UUID;
  pgAmount : Decimal;
  pgPaymentDurationWeeks : Z;
  pgPaymentAmount : Decimal;
  pgStatus : Z;
  pgCreatedAt : time.Time;
  pgUpdatedAt : time.Time
}.

Definition toPostgresLoan (loan : Loan) : postgresLoan :=
  {| pgID := ID loan;
     pgUserID := UserID loan;
     pgAmount := Amount loan;
     pgPaymentDurationWeeks := PaymentDurationWeeks loan;
     pgPaymentAmount := PaymentAmount loan;
     pgStatus := Status loan;
     pgCreatedAt := CreatedAt loan;
     pgUpdatedAt := UpdatedAt loan |}.

Definition toEntityLoan (l : postgresLoan) : Loan :=
  {| ID := pgID l;
     UserID := pgUserID l;
     Amount := pgAmount l;
     PaymentDurationWeeks := pgPaymentDurationWeeks l;
     PaymentAmount := pgPaymentAmount l;
     Status := pgStatus l;
     CreatedAt := pgCreatedAt l;
     UpdatedAt := pgUpdatedAt l |}.

(** [postgresLoanPayment]: a row of the [loan_payments] table. *)
Record postgresLoanPayment : Type := mkPostgresLoanPayment {
  pgpID : UUID;
  pgpLoanID : UUID;
  pgpAmount : Decimal;
  pgpCreatedAt : time.Time;
  pgpUpdatedAt : time.Time
}.

Definition toPostgresLoanPayment (loanPayment : LoanPayment) : postgresLoanPayment :=
  {| pgpID := lpID loanPayment;
     pgpLoanID := lpLoanID loanPayment;
     pgpAmount := lpAmount loanPayment;
     pgpCreatedAt := lpCreatedAt loanPayment;
     pgpUpdatedAt := lpUpdatedAt loanPayment |}.

(** What [QueryRowContext(...).Scan(...)] gave: a row, no row (an error
    that [errors.Is] the driver's [sql.ErrNoRows]), or any other
    error. *)
Inductive scan (A : Type) : Type :=
| Row (a : A)
| NoRows
| ScanFailed (e : error).
Arguments Row {A} a.
Arguments NoRows {A}.
Arguments ScanFailed {A} e.

(** The database as one repository call sees it: what it answers to
    each statement, as a function of the statement's arguments. *)
Record DB : Type := mkDB {
  BeginTx : option error;
  selectLatestLoan : UUID -> scan postgresLoan;
  selectLoan : UUID -> scan postgresLoan;
  selectPaidAmount : UUID -> scan Decimal;
  insertLoan : postgresLoan -> option error;
  insertLoanPayment : postgresLoanPayment -> option error;
  updateLoanRow : postgresLoan -> option error;
  Commit : option error;
  Rollback : option error
}.

(** The statements a call sent, in order. *)
Inductive op : Type :=
| OpBegin
| OpSelectLatestLoan (userID : UUID)
| OpSelectLoan (loanID : UUID)
| OpSelectPaidAmount (loanID : UUID)
| OpInsertLoan (row : postgresLoan)
| OpInsertLoanPayment (row : postgresLoanPayment)
| OpUpdateLoan (row : postgresLoan)
| OpCommit
| OpRollback.

(** A call's trace and what it returned. *)
Record run (A : Type) : Type := mkRun { log : list op; result : A }.
Arguments mkRun {A} log result.
Arguments log {A} r.
Arguments result {A} r.

(** [finishTransaction(err, tx)] *)
Definition finishTransaction (db : DB) (err : option error) : run (option error) :=
  match err with
  | Some e =>
    match Rollback db with
    | Some rollbackErr => mkRun [OpRollback] (Some (ECombine e rollbackErr))
    | None => mkRun [OpRollback] (Some e)
    end
  | None =>
    match Commit db with
    | Some commitErr => mkRun [OpCommit] (Some commitErr)
    | None => mkRun [OpCommit] None
    end
  end.

(** [getLatestLoan(ctx, executor, userID)] *)
Definition getLatestLoan (db : DB) (userID : UUID) : res (option Loan) :=
  match selectLatestLoan db userID with
  | NoRows => Ok None
  | ScanFailed e => Err e
  | Row pgLoan => Ok (Some (toEntityLoan pgLoan))
  end.

(** [getLoan(ctx, executor, loanID)] *)
Definition getLoan (db : DB) (loanID : UUID) : res (option Loan) :=
  match selectLoan db loanID with
  | NoRows => Ok None
  | ScanFailed e => Err e
  | Row pgLoan => Ok (Some (toEntityLoan pgLoan))
  end.

(** [getLoanPaidAmount(ctx, executor, loanID)] *)
Definition getLoanPaidAmount (db : DB) (loanID : UUID) : res Decimal :=
  match selectPaidAmount db loanID with
  | NoRows => Ok Zero
  | ScanFailed e => Err e
  | Row sum => Ok sum
  end.

(** [(r *Repository) GetLatestLoan(ctx, userID)] *)
Definition GetLatestLoan (db : DB) (userID : UUID) : run (res (option Loan)) :=
  mkRun [OpSelectLatestLoan userID] (getLatestLoan db userID).

(** [(r *Repository) GetLoanPaidAmount(ctx, loanID)] *)
Definition GetLoanPaidAmount (db : DB) (loanID : UUID) : run (res Decimal) :=
  mkRun [OpSelectPaidAmount loanID] (getLoanPaidAmount db loanID).

(** [(r *Repository) CreateLoan(ctx, loan, validateFn)].  The result is
    unnamed: each [return] fixes it before the deferred
    [finishTransaction] runs, and what that returns is stored in the
    local [err] only.  The [err] of the validation step is a variable
    of the [if] statement; the one the deferred call reads is still
    nil then. *)
Definition CreateLoan (db : DB) (loan : Loan) (validateFn : option Loan -> option error)
    : run (option error) :=
  match BeginTx db with
  | Some e => mkRun [OpBegin] (Some e)
  | None =>
    match getLatestLoan db (UserID loan) with
    | Err e =>
      mkRun ([OpBegin; OpSelectLatestLoan (UserID loan)]
               ++ log (finishTransaction db (Some e)))
            (Some e)
    | Ok latestLoan =>
      match validateFn latestLoan with
      | Some e =>
        mkRun ([OpBegin; OpSelectLatestLoan (UserID loan)]
                 ++ log (finishTransaction db None))
              (Some e)
      | None =>
        let row := toPostgresLoan loan in
        let err := insertLoan db row in
        mkRun ([OpBegin; OpSelectLatestLoan (UserID loan); OpInsertLoan row]
                 ++ log (finishTransaction db err))
              err
      end
    end
  end.

(** [decimal.Decimal{}], the zero value: it reads as 0. *)
Definition zeroDecimal : Decimal := decimal.New 0 0.

(** The results [(loan, newPaidAmount, err)] of [MakePayment]. *)
Record PaymentOutcome : Type := mkPaymentOutcome {
  loan : option Loan;
  newPaidAmount : Decimal;
  paymentErr : option error
}.

(** [return nil, decimal.Decimal{}, err] followed by the deferred
    [err = finishTransaction(err, tx)] on the named result. *)
Definition failPayment (db : DB) (sent : list op) (e : error) : run (outcome PaymentOutcome) :=
  let fin := finishTransaction db (Some e) in
  mkRun (sent ++ log fin) (Ret (mkPaymentOutcome None zeroDecimal (result fin))).

(** A panic unwinds through the deferred call, which reads the [err]
    of the last step that returned: nil. *)
Definition panicPayment (db : DB) (sent : list op) : run (outcome PaymentOutcome) :=
  mkRun (sent ++ log (finishTransaction db None)) Panic.

(** [(r *Repository) MakePayment(ctx, loanID, paymentAmount,
    makePaymentFn)].  The callback receives the loan by pointer: what
    it left there is [loanAfter] of its result.  [toPostgresLoanPayment]
    and [toPostgresLoan] dereference their argument. *)
Definition MakePayment (db : DB) (loanID : UUID) (paymentAmount : Decimal)
    (makePaymentFn : option Loan -> Decimal -> outcome PaymentResult)
    : run (outcome PaymentOutcome) :=
  match BeginTx db with
  | Some e => mkRun [OpBegin] (Ret (mkPaymentOutcome None zeroDecimal (Some e)))
  | None =>
    match getLoan db loanID with
    | Err e => failPayment db [OpBegin; OpSelectLoan loanID] e
    | Ok loan =>
      let sent := [OpBegin; OpSelectLoan loanID; OpSelectPaidAmount loanID] in
      match getLoanPaidAmount db loanID with
      | Err e => failPayment db sent e
      | Ok currPaidAmount =>
        match makePaymentFn loan currPaidAmount with
        | Panic => panicPayment db sent
        | Ret r =>
          match err r with
          | Some e => failPayment db sent e
          | None =>
            match loanPayment r with
            | None => panicPayment db sent
            | Some loanPayment =>
              let row := toPostgresLoanPayment loanPayment in
              let sent := sent ++ [OpInsertLoanPayment row] in
              match insertLoanPayment db row with
              | Some e => failPayment db sent e
              | None =>
                let newPaidAmount := Add currPaidAmount (lpAmount loanPayment) in
                if shouldUpdateLoan r
                then
                  match loanAfter r with
                  | None => panicPayment db sent
                  | Some l =>
                    let sent := sent ++ [OpUpdateLoan (toPostgresLoan l)] in
                    match updateLoanRow db (toPostgresLoan l) with
                    | Some e => failPayment db sent e
                    | None =>
                      let fin := finishTransaction db None in
                      mkRun (sent ++ log fin)
                            (Ret (mkPaymentOutcome (loanAfter r) newPaidAmount (result fin)))
                    end
                  end
                else
                  let fin := finishTransaction db None in
                  mkRun (sent ++ log fin)
                        (Ret (mkPaymentOutcome (loanAfter r) newPaidAmount (result fin)))
              end
            end
          end
        end
      end
    end
  end.

End postgres.

(* ================================================================== *)
(** ** internal/service: types.go *)
(* ================================================================== *)

Module types.

(** [type LoanStatus int] of the service layer. *)
Definition LoanStatus : Type := Z.
Definition LoanStatusOngoing : LoanStatus := 0.
Definition LoanStatusPaid : LoanStatus := 1.

(** [parseLoanStatus]: a [switch] without default; [res] starts as the
    zero value. *)
Definition parseLoanStatus (entityStatus : entity.LoanStatus) : LoanStatus :=
  if entityStatus =? entity.LoanStatusOngoing then LoanStatusOngoing
  else if entityStatus =? entity.LoanStatusPaid then LoanStatusPaid
  else 0.

(** [type Loan struct] of the service layer. *)
Record Loan : Type := mkLoan {
  ID : entity.UUID;
  UserID : entity.UUID;
  Amount : Decimal;
  PaymentDurationWeeks : Z;
  PaymentAmount : Decimal;
  Status : LoanStatus;
  CreatedAt : time.Time;
  UpdatedAt : time.Time
}.

(** [Loan{}] *)
Definition emptyLoan : Loan :=
  mkLoan entity.uuid_Nil entity.uuid_Nil postgres.zeroDecimal 0 postgres.zeroDecimal 0 0 0.

(** [parseLoan(entityLoan *entity.Loan)] *)
Definition parseLoan (entityLoan : option entity.Loan) : Loan :=
  match entityLoan with
  | None => emptyLoan
  | Some entityLoan =>
    {| ID := entity.ID entityLoan;
       UserID := entity.UserID entityLoan;
       Amount := entity.Amount entityLoan;
       PaymentDurationWeeks := entity.PaymentDurationWeeks entityLoan;
       PaymentAmount := entity.PaymentAmount entityLoan;
       Status := parseLoanStatus (entity.Status entityLoan);
       CreatedAt := entity.CreatedAt entityLoan;
       UpdatedAt := entity.UpdatedAt entityLoan |}
  end.

Record LoanDetail : Type := mkLoanDetail {
  Loan_ : Loan;
  OutstandingAmount : Decimal;
  CurrentBillAmount : Decimal;
  IsDelinquent : bool
}.

(** [LoanDetail{}] *)
Definition emptyLoanDetail : LoanDetail :=
  mkLoanDetail emptyLoan postgres.zeroDecimal postgres.zeroDecimal false.

Definition parseLoanDetail (loan : Loan) (outstandingAmount currentBillAmount : Decimal)
    (isDelinquent : bool) : LoanDetail :=
  {| Loan_ := loan;
     OutstandingAmount := outstandingAmount;
     CurrentBillAmount := currentBillAmount;
     IsDelinquent := isDelinquent |}.

End types.

(* ================================================================== *)
(** ** internal/service: the methods of Impl over the postgres repository *)
(* ================================================================== *)

Module Impl.

Import entity service postgres.

Record CreateLoanCommand : Type := mkCreateLoanCommand {
  cmdUserID : UUID;
  cmdAmount : Decimal;
  cmdPaymentDurationWeeks : Z
}.

Record GetCurrentLoanQuery : Type := mkGetCurrentLoanQuery { qUserID : UUID }.

Record MakePaymentCommand : Type := mkMakePaymentCommand {
  cmdLoanID : UUID;
  cmdPaymentAmount : Decimal
}.

(** [(s *Impl) CreateLoan(ctx, in)].  [newV7] and [clock] are the reads
    of [entity.CreateLoan]. *)
Definition CreateLoan (newV7 : NewV7) (clock : time.Time) (db : DB) (cmd : CreateLoanCommand)
    : run (outcome (types.Loan * option error)) :=
  match entity.CreateLoan newV7 clock (cmdUserID cmd) (cmdAmount cmd)
                          (cmdPaymentDurationWeeks cmd) with
  | Panic => mkRun [] Panic
  | Ret (Err e) => mkRun [] (Ret (types.emptyLoan, ensureBusinessError (Some e)))
  | Ret (Ok loan) =>
    let r := postgres.CreateLoan db loan
               (fun latestLoan =>
                  option_map EBusiness (ValidateLatestLoan (Some loan) latestLoan)) in
    match result r with
    | Some e => mkRun (log r) (Ret (types.emptyLoan, ensureBusinessError (Some e)))
    | None => mkRun (log r) (Ret (types.parseLoan (Some loan), None))
    end
  end.

(** [(s *Impl) GetCurrentLoan(ctx, in)]; [now] is the read of
    [time.Now()]. *)
Definition GetCurrentLoan (now : time.Time) (db : DB) (q : GetCurrentLoanQuery)
    : run (outcome (types.LoanDetail * option error)) :=
  let r1 := GetLatestLoan db (qUserID q) in
  match result r1 with
  | Err e => mkRun (log r1) (Ret (types.emptyLoanDetail, ensureBusinessError (Some e)))
  | Ok None => mkRun (log r1) (Ret (types.emptyLoanDetail, Some (EBusiness ErrLoanNotFound)))
  | Ok (Some loan) =>
    if negb (Status loan =? LoanStatusOngoing)
    then mkRun (log r1) (Ret (types.emptyLoanDetail, Some (EBusiness ErrLoanNotFound)))
    else
      let r2 := GetLoanPaidAmount db (ID loan) in
      match result r2 with
      | Err e =>
        mkRun (log r1 ++ log r2) (Ret (types.emptyLoanDetail, ensureBusinessError (Some e)))
      | Ok paidAmount =>
        mkRun (log r1 ++ log r2)
          (currentBillAmount <- entity.CurrentBillAmount (Some loan) now paidAmount ;;
           isDelinquent <- entity.IsDelinquent (Some loan) now paidAmount ;;
           Ret (types.parseLoanDetail
                  (types.parseLoan (Some loan))
                  (entity.OutstandingAmount (Some loan) paidAmount)
                  currentBillAmount
                  isDelinquent, None))
      end
  end.

(** [(s *Impl) MakePayment(ctx, in)]; [now] is the read of
    [time.Now().UTC()], [newV7], [clock] and [clock2] those of
    [entity.MakePayment]. *)
Definition MakePayment (now : time.Time) (newV7 : NewV7) (clock clock2 : time.Time)
    (db : DB) (cmd : MakePaymentCommand)
    : run (outcome (types.LoanDetail * option error)) :=
  let r := postgres.MakePayment db (cmdLoanID cmd) (cmdPaymentAmount cmd)
             (fun loan currPaidAmount =>
                entity.MakePayment newV7 clock clock2 loan now currPaidAmount
                                   (cmdPaymentAmount cmd)) in
  mkRun (log r)
    (out <- result r ;;
     match paymentErr out with
     | Some e => Ret (types.emptyLoanDetail, ensureBusinessError (Some e))
     | None =>
       currentBillAmount <- entity.CurrentBillAmount (loan out) now (newPaidAmount out) ;;
       isDelinquent <- entity.IsDelinquent (loan out) now (newPaidAmount out) ;;
       Ret (types.parseLoanDetail
              (types.parseLoan (loan out))
              (entity.OutstandingAmount (loan out) (newPaidAmount out))
              currentBillAmount
              isDelinquent, None)
     end).

End Impl.

(* ================================================================== *)
(** ** internal/interface/grpc: error_parser.go *)
(* ================================================================== *)

Module grpc.

(** The [codes.Code] values [toGrpcError] produces. *)
Inductive Code : Type :=
| Unknown
| Internal
| InvalidArgument
| FailedPrecondition
| NotFound
| AlreadyExists.

(** [err.Error()]: the message of a Go error.  A wrapping error's text
    is its whole message; [multierr] joins the messages it combines
    with a semicolon and a space. *)
Fixpoint Error (err : error) : string :=
  match err with
  | EBusiness b => businesserror.Error b
  | EOpaque text => text
  | EWrap text _ => text
  | ECombine e1 e2 => (Error e1 ++ "; " ++ Error e2)%string
  end.

(** [status.Error(code, msg)] for a code other than [OK]. *)
Record Status : Type := mkStatus { code : Code; message : string }.

(** The [switch] of [toGrpcError] on the kind of the business error
    found.  It has no [default]: on a kind that is none of the five
    declared ones the code stays [codes.Unknown]. *)
Definition codeOf (k : Kind) : Code :=
  if (k =? KindInternal)%Z then Internal
  else if (k =? KindBadRequest)%Z then InvalidArgument
  else if (k =? KindUnprocessableEntity)%Z then FailedPrecondition
  else if (k =? KindNotFound)%Z then NotFound
  else if (k =? KindAlreadyExists)%Z then AlreadyExists
  else Unknown.

(** [toGrpcError(err)] *)
Definition toGrpcError (err : error) : Status :=
  let code :=
    match errors_As err with
    | Some businessErr => codeOf (KindOf businessErr)
    | None => Unknown
    end in
  mkStatus code (Error err).

End grpc.

(* ================================================================== *)
(** ** Vocabulary of the properties *)
(* ================================================================== *)

Module vocabulary.

Import businesserror decimal entity service.

(** Exponents that leave room for the 16 digits a division adds. *)
Definition roomy (d : Decimal) : Prop := MinInt32 + 32 <= exp d <= MaxInt32 - 32.

(** Half a unit in the 16th decimal place. *)
Definition half16 : Q := 1 # 20000000000000000.

(** Rational value of the bill: the obligation reached by week
    [week], less what was paid, floored at zero. *)
Definition obligationQ (T : Q) (W k week : Z) : Q :=
  if week <? W then inject_Z (k * week) else T.

Definition billQ (ob paid : Q) : Q := if Qle_bool paid ob then (ob - paid)%Q else 0%Q.

(** One successful payment of a run: the loan and the cumulative paid
    amount before the call, the amount paid, and the loan after. *)
Record PaymentStep : Type := mkStep {
  before : Loan;
  paidBefore : Decimal;
  amount : Decimal;
  after : Loan
}.

(** A sequence of successful [MakePayment] calls on one loan; the paid
    amount grows by each payment, as the repository sums them. *)
Inductive paymentRun : Loan -> Decimal -> list PaymentStep -> Loan -> Decimal -> Prop :=
| run_done l paid : paymentRun l paid [] l paid
| run_step l paid newV7 clock clock2 now amount r l' lp rest lEnd paidEnd :
    MakePayment newV7 clock clock2 (Some l) now paid amount = Ret r ->
    err r = None -> loanAfter r = Some l' -> loanPayment r = Some lp ->
    paymentRun l' (Add paid (lpAmount lp)) rest lEnd paidEnd ->
    paymentRun l paid (mkStep l paid amount l' :: rest) lEnd paidEnd.

Definition completes (total : Decimal) (s : PaymentStep) : Prop :=
  (toQ (paidBefore s) + toQ (amount s) == toQ total)%Q.

Definition flipsToPaid (s : PaymentStep) : bool :=
  (Status (before s) =? LoanStatusOngoing) && (Status (after s) =? LoanStatusPaid).

Definition flips (tr : list PaymentStep) : nat := List.length (filter flipsToPaid tr).

(** Modelled from the specification's words: [x] rounded to the nearest whole
    number, a tie going away from zero. *)
Definition nearestWhole (x : Q) : Z :=
  if Qle_bool 0 x then Qfloor (x + (1 # 2)) else Qceiling (x - (1 # 2)).

(** A guard failure whose rollback failed as well, as
    [finishTransaction] combines them. *)
Definition combinedFailure : error :=
  ECombine (EBusiness ErrLoanNotExactPaymentAmount) (EOpaque "driver: bad connection").

Definition aMonday : time.Time := time.Date 2023 5 1 0 0 0 0.

(** The loan [CreateLoan] builds on Monday 1 May 2023 for principal
    1000 over ten weeks. *)
Definition mondayLoan : Loan :=
  mkLoan 7%N 9%N (NewFromInt 1000) 10 (decimal.New 11000 (-1)) LoanStatusOngoing
         aMonday aMonday.

(** The loan [CreateLoan] builds for principal 1 over 50 weeks. *)
Definition smallLoan : Loan :=
  mkLoan 7%N 9%N (NewFromInt 1) 50 (NewFromInt 2) LoanStatusOngoing aMonday aMonday.

(** The loan [CreateLoan] builds for principal 9.99999999999999999 over
    one week: its total is 10.99999999999999999. *)
Definition preciseLoan : Loan :=
  mkLoan 7%N 9%N (decimal.New 999999999999999999 (-17)) 1
         (decimal.New 1099999999999999999 (-17)) LoanStatusOngoing aMonday aMonday.

(** The loan [CreateLoan] builds for principal 11.9999999999999999
    over three weeks; its total is 13.9999999999999999 and its weekly
    amount 4. *)
Definition roundingLoan : Loan :=
  mkLoan 7%N 9%N (decimal.New 119999999999999999 (-16)) 3
         (decimal.New 139999999999999999 (-16)) LoanStatusOngoing aMonday aMonday.

(** A loan of 2000 + 200 over two weeks. *)
Definition twoWeekLoan : Loan :=
  mkLoan 7%N 9%N (NewFromInt 2000) 2 (NewFromInt 2200) LoanStatusOngoing aMonday aMonday.

(** The state of a loan along a run of payments against the total [T]:
    still ongoing with less than the total paid, or paid with exactly
    the total paid. *)
Definition settledOrOpen (T : Q) (status : LoanStatus) (paid : Q) : Prop :=
  (status = LoanStatusOngoing /\ (paid < T)%Q) \/ (status = LoanStatusPaid /\ (paid == T)%Q).

(** The same database with other answers to COMMIT and ROLLBACK. *)
Definition withFinish (db : postgres.DB) (commit rollback : option error) : postgres.DB :=
  postgres.mkDB (postgres.BeginTx db) (postgres.selectLatestLoan db) (postgres.selectLoan db)
                (postgres.selectPaidAmount db) (postgres.insertLoan db)
                (postgres.insertLoanPayment db) (postgres.updateLoanRow db) commit rollback.

(** A call sent no statement that writes. *)
Definition readOnly (l : list postgres.op) : Prop :=
  forall o, In o l ->
    match o with
    | postgres.OpSelectLatestLoan _ | postgres.OpSelectLoan _
    | postgres.OpSelectPaidAmount _ => True
    | _ => False
    end.

(** The statements of a trace that end a transaction. *)
Definition finishes (l : list postgres.op) : list postgres.op :=
  filter (fun o => match o with
                   | postgres.OpCommit | postgres.OpRollback => true
                   | _ => false
                   end) l.

(** A trace of one transaction: it starts with BEGIN and its only
    COMMIT or ROLLBACK is [o], the last statement. *)
Definition finishedBy (l : list postgres.op) (o : postgres.op) : Prop :=
  hd_error l = Some postgres.OpBegin /\ finishes l = [o] /\ last l postgres.OpBegin = o.

(** A database that holds [mondayLoan] with one weekly amount paid and
    accepts every statement. *)
Definition sampleDB : postgres.DB :=
  postgres.mkDB None
    (fun _ => postgres.Row (postgres.toPostgresLoan mondayLoan))
    (fun _ => postgres.Row (postgres.toPostgresLoan mondayLoan))
    (fun _ => postgres.Row (NewFromInt 110))
    (fun _ => None) (fun _ => None) (fun _ => None) None None.

(** The kinds that [businesserror] declares. *)
Definition declaredKind (k : Kind) : Prop :=
  k = KindInternal \/ k = KindBadRequest \/ k = KindUnprocessableEntity \/
  k = KindNotFound \/ k = KindAlreadyExists.

End vocabulary.

(* ================================================================== *)
(** * Properties *)
(* ================================================================== *)

(** ** binary64 rounding *)

Module FloatFacts.

Import float64.
Local Open Scope Q_scope.

Ltac qcmp :=
  repeat match goal with
  | H : (_ ?= _) = Eq |- _ => apply Qeq_alt in H
  | H : (_ ?= _) = Lt |- _ => apply Qlt_alt in H
  | H : (_ ?= _) = Gt |- _ => apply Qgt_alt in H
  end.

Lemma rne_bounds x : (Qfloor x <= rne x <= Qfloor x + 1)%Z.
Proof.
  unfold rne. destruct (Qcompare _ _); [destruct (Z.even _)| |]; lia.
Qed.

Lemma rne_mono x y : x <= y -> (rne x <= rne y)%Z.
Proof.
  intros Hxy.
  pose proof (Qfloor_resp_le _ _ Hxy) as Hf.
  pose proof (rne_bounds x) as Bx. pose proof (rne_bounds y) as By.
  destruct (Z.eq_dec (Qfloor x) (Qfloor y)) as [E|NE]; [|lia].
  clear Bx By. unfold rne. rewrite <- E.
  destruct (Qcompare (x - inject_Z (Qfloor x)) (1 # 2)) eqn:Cx;
  destruct (Qcompare (y - inject_Z (Qfloor x)) (1 # 2)) eqn:Cy;
  try (destruct (Z.even (Qfloor x))); try lia; qcmp; exfalso; lra.
Qed.

Lemma rne_inject n : rne (inject_Z n) = n.
Proof.
  unfold rne. rewrite Qfloor_Z.
  destruct (Qcompare _ _) eqn:C; qcmp; try reflexivity; exfalso; lra.
Qed.

#[export] Instance rne_comp : Proper (Qeq ==> eq) rne.
Proof.
  intros x y E. change (x == y) in E. unfold rne.
  rewrite (Qfloor_comp _ _ E).
  assert (E' : x - inject_Z (Qfloor y) == y - inject_Z (Qfloor y)) by (rewrite E; reflexivity).
  rewrite (Qcompare_comp _ _ E' _ _ (Qeq_refl _)). reflexivity.
Qed.

Lemma pow2_pos e : 0 < 2 ^ e.
Proof. apply Qpower_0_lt. reflexivity. Qed.

Lemma pow2_add a b : 2 ^ (a + b) == 2 ^ a * 2 ^ b.
Proof. apply Qpower_plus. discriminate. Qed.

Lemma pow2_le a b : (a <= b)%Z -> 2 ^ a <= 2 ^ b.
Proof. intros. apply Qpower_le_compat_l; [assumption | discriminate]. Qed.

Lemma pow2_cancel e : 2 ^ e * 2 ^ (- e) == 1.
Proof. rewrite <- pow2_add. replace (e + - e)%Z with 0%Z by lia. reflexivity. Qed.

Lemma pow2_inject e : (0 <= e)%Z -> 2 ^ e == inject_Z (2 ^ e).
Proof. intros. symmetry. apply (Zpower_Qpower 2 e). assumption. Qed.

Lemma round_at_mono e x y : x <= y -> round_at e x <= round_at e y.
Proof.
  intros H. unfold round_at.
  apply Qmult_le_compat_r; [|apply Qlt_le_weak, pow2_pos].
  rewrite <- Zle_Qle. apply rne_mono.
  apply Qmult_le_compat_r; [assumption|apply Qlt_le_weak, pow2_pos].
Qed.

Lemma round_at_pow2 e k : (e <= k)%Z -> round_at e (2 ^ k) == 2 ^ k.
Proof.
  intros H. unfold round_at.
  rewrite <- pow2_add. rewrite (pow2_inject (k + - e)) by lia.
  rewrite rne_inject. rewrite <- pow2_inject by lia. rewrite <- pow2_add.
  replace (k + - e + e)%Z with k by lia. reflexivity.
Qed.

Lemma round_at_opp_pow2 e k : (e <= k)%Z -> round_at e (- 2 ^ k) == - 2 ^ k.
Proof.
  intros H. unfold round_at.
  assert (E : - 2 ^ k * 2 ^ (- e) == inject_Z (- 2 ^ (k + - e))).
  { rewrite inject_Z_opp, <- pow2_inject by lia. rewrite pow2_add. ring. }
  rewrite E, rne_inject. rewrite inject_Z_opp, <- pow2_inject by lia.
  rewrite pow2_add.
  assert (C := pow2_cancel e).
  setoid_replace (- (2 ^ k * 2 ^ (- e)) * 2 ^ e) with (- 2 ^ k * (2 ^ e * 2 ^ (- e))) by ring.
  rewrite C. ring.
Qed.

Lemma round_at_0 e : round_at e 0 == 0.
Proof.
  unfold round_at. rewrite Qmult_0_l. change 0 with (inject_Z 0). rewrite rne_inject. ring.
Qed.

Lemma pow2_succ k : 2 ^ (k + 1) == 2 * 2 ^ k.
Proof. rewrite pow2_add. change (2 ^ 1) with 2. ring. Qed.

Lemma binade_spec x : ~ x == 0 -> 2 ^ binade x <= Qabs x /\ Qabs x < 2 ^ (binade x + 1).
Proof.
  intros Hx.
  set (n := Z.abs (Qnum x)). set (d := Zpos (Qden x)).
  assert (Hn : (0 < n)%Z).
  { subst n. destruct x as [xn xd]. unfold Qeq in Hx. simpl in *. lia. }
  assert (Hd : (0 < d)%Z) by (subst d; lia).
  pose proof (Z.log2_spec n Hn) as [Ln Un].
  pose proof (Z.log2_spec d Hd) as [Ld Ud].
  pose proof (Z.log2_nonneg n) as An. pose proof (Z.log2_nonneg d) as Ad.
  set (a := Z.log2 n) in *. set (b := Z.log2 d) in *.
  assert (EX : Qabs x * inject_Z d == inject_Z n).
  { subst n d. destruct x as [xn xd]. unfold Qabs, Qeq. simpl. lia. }
  rewrite Zle_Qle in Ln, Ld. rewrite Zlt_Qlt in Un, Ud.
  rewrite <- !Z.add_1_r in *.
  rewrite <- !pow2_inject in * by lia.
  rewrite !pow2_succ in *.
  assert (PB : 2 ^ (a - b) * 2 ^ b == 2 ^ a).
  { rewrite <- pow2_add. replace (a - b + b)%Z with a by lia. reflexivity. }
  pose proof (pow2_pos b) as Bpos. pose proof (pow2_pos (a - b)) as Ppos.
  pose proof (Qabs_nonneg x) as Xnn.
  assert (Lo : 2 ^ (a - b) < 2 * Qabs x).
  { apply Qnot_le_lt. intros C.
    assert (2 * Qabs x * inject_Z d <= 2 ^ (a - b) * inject_Z d).
    { apply Qmult_le_compat_r; [assumption|lra]. }
    assert (2 ^ (a - b) * inject_Z d < 2 ^ (a - b) * (2 * 2 ^ b)).
    { apply Qmult_lt_l; assumption. }
    lra. }
  assert (Hi : Qabs x < 2 * 2 ^ (a - b)).
  { apply Qnot_le_lt. intros C.
    assert (2 * 2 ^ (a - b) * inject_Z d <= Qabs x * inject_Z d).
    { apply Qmult_le_compat_r; [assumption|lra]. }
    assert (2 * 2 ^ (a - b) * 2 ^ b <= 2 * 2 ^ (a - b) * inject_Z d).
    { apply Qmult_le_l; [lra|assumption]. }
    lra. }
  unfold binade. fold n d a b.
  destruct (Qle_bool (2 ^ (a - b)) (Qabs x)) eqn:C.
  - apply Qle_bool_iff in C. split; assumption.
  - assert (C' : ~ 2 ^ (a - b) <= Qabs x).
    { intros H. apply Qle_bool_iff in H. congruence. }
    apply Qnot_le_lt in C'.
    assert (E : 2 ^ (a - b) == 2 * 2 ^ (a - b - 1)).
    { rewrite <- pow2_succ. replace (a - b - 1 + 1)%Z with (a - b)%Z by lia. reflexivity. }
    split; lra.
Qed.

Lemma pow2_lt_inv a b : 2 ^ a < 2 ^ b -> (a < b)%Z.
Proof. intros H. apply (Qpower_lt_compat_l_inv 2); [assumption|reflexivity]. Qed.

Lemma binade_le x y : ~ x == 0 -> Qabs x <= Qabs y -> (binade x <= binade y)%Z.
Proof.
  intros Hx Hxy.
  assert (Hy : ~ y == 0).
  { intros E. rewrite E in Hxy. change (Qabs 0) with 0 in Hxy.
    pose proof (Qabs_nonneg x). apply Hx.
    assert (Qabs x == 0) by lra.
    destruct (Qabs_Qle_condition x 0) as [F _].
    assert (G : Qabs x <= 0) by lra. apply F in G. lra. }
  destruct (binade_spec x Hx) as [Lx Ux]. destruct (binade_spec y Hy) as [Ly Uy].
  assert (H : 2 ^ binade x < 2 ^ (binade y + 1)) by lra.
  apply pow2_lt_inv in H. lia.
Qed.

Lemma ulp_exp_le x y : ~ x == 0 -> Qabs x <= Qabs y -> (ulp_exp x <= ulp_exp y)%Z.
Proof. intros. unfold ulp_exp. pose proof (binade_le x y H H0). lia. Qed.

Lemma round_eq x : ~ x == 0 -> round x = round_at (ulp_exp x) x.
Proof.
  intros H. unfold round. destruct (Qeq_bool x 0) eqn:E; [|reflexivity].
  apply Qeq_bool_iff in E. contradiction.
Qed.

Lemma round_0 x : x == 0 -> round x = 0.
Proof. intros H. unfold round. apply Qeq_bool_iff in H. now rewrite H. Qed.

Lemma round_nonneg x : 0 <= x -> 0 <= round x.
Proof.
  intros H. destruct (Qeq_dec x 0) as [E|E].
  - rewrite round_0 by assumption. lra.
  - rewrite round_eq by assumption. rewrite <- (round_at_0 (ulp_exp x)).
    apply round_at_mono. assumption.
Qed.

Lemma round_nonpos x : x <= 0 -> round x <= 0.
Proof.
  intros H. destruct (Qeq_dec x 0) as [E|E].
  - rewrite round_0 by assumption. lra.
  - rewrite round_eq by assumption. rewrite <- (round_at_0 (ulp_exp x)).
    apply round_at_mono. assumption.
Qed.

Lemma round_mono_pos x y : 0 < x -> x <= y -> round x <= round y.
Proof.
  intros Hx Hxy.
  assert (Nx : ~ x == 0) by lra. assert (Ny : ~ y == 0) by lra.
  rewrite !round_eq by assumption.
  assert (Ax : Qabs x == x) by (apply Qabs_pos; lra).
  assert (Ay : Qabs y == y) by (apply Qabs_pos; lra).
  assert (Hb : (binade x <= binade y)%Z) by (apply binade_le; [assumption|lra]).
  destruct (binade_spec x Nx) as [Lx Ux]. destruct (binade_spec y Ny) as [Ly Uy].
  destruct (Z.eq_dec (ulp_exp x) (ulp_exp y)) as [E|NE].
  - rewrite E. apply round_at_mono. assumption.
  - assert (Hlt : (ulp_exp x < ulp_exp y)%Z) by (unfold ulp_exp in *; lia).
    set (K := Z.max (binade x + 1) (ulp_exp x)).
    assert (HK : (K <= binade y)%Z) by (unfold ulp_exp, emin in *; lia).
    apply Qle_trans with (2 ^ K).
    + rewrite <- (round_at_pow2 (ulp_exp x) K) by lia.
      apply round_at_mono.
      assert (2 ^ (binade x + 1) <= 2 ^ K) by (apply pow2_le; lia). lra.
    + apply Qle_trans with (2 ^ binade y); [apply pow2_le; lia|].
      rewrite <- (round_at_pow2 (ulp_exp y) (binade y)) at 1 by (unfold ulp_exp, emin in *; lia).
      apply round_at_mono. lra.
Qed.

Lemma round_mono_neg x y : y < 0 -> x <= y -> round x <= round y.
Proof.
  intros Hy Hxy.
  assert (Nx : ~ x == 0) by lra. assert (Ny : ~ y == 0) by lra.
  rewrite !round_eq by assumption.
  assert (Ax : Qabs x == - x) by (apply Qabs_neg; lra).
  assert (Ay : Qabs y == - y) by (apply Qabs_neg; lra).
  assert (Hb : (binade y <= binade x)%Z) by (apply binade_le; [assumption|lra]).
  destruct (binade_spec x Nx) as [Lx Ux]. destruct (binade_spec y Ny) as [Ly Uy].
  destruct (Z.eq_dec (ulp_exp x) (ulp_exp y)) as [E|NE].
  - rewrite E. apply round_at_mono. assumption.
  - assert (Hlt : (ulp_exp y < ulp_exp x)%Z) by (unfold ulp_exp in *; lia).
    set (K := Z.max (binade y + 1) (ulp_exp y)).
    assert (HK : (K <= binade x)%Z) by (unfold ulp_exp, emin in *; lia).
    apply Qle_trans with (- 2 ^ binade x).
    + rewrite <- (round_at_opp_pow2 (ulp_exp x) (binade x)) at 1 by (unfold ulp_exp, emin in *; lia).
      apply round_at_mono. lra.
    + apply Qle_trans with (- 2 ^ K).
      { assert (2 ^ K <= 2 ^ binade x) by (apply pow2_le; lia). lra. }
      rewrite <- (round_at_opp_pow2 (ulp_exp y) K) at 1 by lia.
      apply round_at_mono.
      assert (2 ^ (binade y + 1) <= 2 ^ K) by (apply pow2_le; lia). lra.
Qed.

Theorem round_mono x y : x <= y -> round x <= round y.
Proof.
  intros H.
  destruct (Qlt_le_dec 0 x) as [Px|Nx].
  - apply round_mono_pos; assumption.
  - destruct (Qlt_le_dec y 0) as [Ny|Py].
    + apply round_mono_neg; assumption.
    + apply Qle_trans with 0; [apply round_nonpos | apply round_nonneg]; assumption.
Qed.

#[export] Instance round_at_comp e : Proper (Qeq ==> Qeq) (round_at e).
Proof.
  intros x y E. change (x == y) in E. unfold round_at.
  assert (E' : x * 2 ^ (- e) == y * 2 ^ (- e)) by (rewrite E; reflexivity).
  rewrite (rne_comp _ _ E'). reflexivity.
Qed.

Lemma round_dyadic x m k :
  x == inject_Z m * 2 ^ k -> (Z.abs m < 2 ^ 53)%Z -> (emin <= k)%Z -> round x == x.
Proof.
  intros E Hm Hk.
  destruct (Qeq_dec x 0) as [Z0|NZ].
  - rewrite round_0 by assumption. symmetry. assumption.
  - rewrite round_eq by assumption.
    destruct (binade_spec x NZ) as [Lb Ub].
    assert (Habs : Qabs x == inject_Z (Z.abs m) * 2 ^ k).
    { rewrite E, Qabs_Qmult. rewrite (Qabs_pos (2 ^ k)) by (apply Qlt_le_weak, pow2_pos).
      destruct m; reflexivity. }
    assert (Hlt : Qabs x < 2 ^ (53 + k)).
    { rewrite Habs, pow2_add. apply Qmult_lt_compat_r; [apply pow2_pos|].
      rewrite (pow2_inject 53) by lia. rewrite <- Zlt_Qlt. assumption. }
    assert (Hb : (binade x < 53 + k)%Z) by (apply pow2_lt_inv; lra).
    assert (He : (ulp_exp x <= k)%Z) by (unfold ulp_exp; lia).
    set (e := ulp_exp x) in *.
    rewrite (round_at_comp e _ _ E). unfold round_at.
    assert (E2 : inject_Z m * 2 ^ k * 2 ^ (- e) == inject_Z (m * 2 ^ (k + - e))).
    { rewrite inject_Z_mult, <- pow2_inject by lia. rewrite pow2_add. ring. }
    rewrite (rne_comp _ _ E2), rne_inject.
    rewrite inject_Z_mult, <- pow2_inject by lia. rewrite E, pow2_add.
    pose proof (pow2_cancel e) as C.
    setoid_replace (inject_Z m * (2 ^ k * 2 ^ (- e)) * 2 ^ e)
      with (inject_Z m * 2 ^ k * (2 ^ e * 2 ^ (- e))) by ring.
    rewrite C. ring.
Qed.

Lemma round_int n : (Z.abs n < 2 ^ 53)%Z -> of_int n == inject_Z n.
Proof.
  intros H. unfold of_int. apply (round_dyadic _ n 0); [|assumption|unfold emin; lia].
  change (2 ^ 0) with 1. ring.
Qed.

Lemma add_mono a b c d : a <= c -> b <= d -> add a b <= add c d.
Proof. intros. apply round_mono. lra. Qed.

Lemma div_mono a b c : 0 < c -> a <= b -> div a c <= div b c.
Proof.
  intros Hc H. apply round_mono. unfold Qdiv.
  apply Qmult_le_compat_r; [assumption|]. apply Qlt_le_weak, Qinv_lt_0_compat, Hc.
Qed.

Lemma of_int_mono a b : (a <= b)%Z -> of_int a <= of_int b.
Proof. intros. apply round_mono. rewrite <- Zle_Qle. assumption. Qed.

Lemma trunc_mono x y : x <= y -> (trunc x <= trunc y)%Z.
Proof.
  intros H. unfold trunc.
  destruct (Qle_bool 0 x) eqn:Cx; destruct (Qle_bool 0 y) eqn:Cy.
  - apply Qfloor_resp_le; assumption.
  - apply Qle_bool_iff in Cx.
    assert (Ny : ~ 0 <= y) by (intros F; apply Qle_bool_iff in F; congruence).
    exfalso. lra.
  - assert (Nx : ~ 0 <= x) by (intros F; apply Qle_bool_iff in F; congruence).
    apply Qle_bool_iff in Cy.
    assert (H0 : (Qceiling x <= Qceiling 0)%Z) by (apply Qceiling_resp_le; lra).
    assert (H1 : (Qfloor 0 <= Qfloor y)%Z) by (apply Qfloor_resp_le; assumption).
    change (Qceiling 0) with 0%Z in H0. change (Qfloor 0) with 0%Z in H1. lia.
  - apply Qceiling_resp_le; assumption.
Qed.

Lemma trunc_inject n : trunc (inject_Z n) = n.
Proof.
  unfold trunc. destruct (Qle_bool 0 (inject_Z n)); [apply Qfloor_Z|apply Qceiling_Z].
Qed.

#[export] Instance trunc_comp : Proper (Qeq ==> eq) trunc.
Proof.
  intros x y E. change (x == y) in E. unfold trunc.
  rewrite (Qleb_comp 0 0 (Qeq_refl 0) x y E), (Qfloor_comp x y E), (Qceiling_comp x y E).
  reflexivity.
Qed.

Lemma Qfloor_unique x m : inject_Z m <= x -> x < inject_Z (m + 1) -> Qfloor x = m.
Proof.
  intros L U.
  pose proof (Qfloor_le x) as Fl. pose proof (Qlt_floor x) as Fu.
  assert (A : inject_Z m < inject_Z (Qfloor x + 1)) by lra.
  assert (B : inject_Z (Qfloor x) < inject_Z (m + 1)) by lra.
  rewrite <- Zlt_Qlt in A, B. lia.
Qed.

Lemma rne_opp x : rne (- x) = (- rne x)%Z.
Proof.
  pose proof (Qfloor_le x) as Fl. pose proof (Qlt_floor x) as Fu.
  rewrite inject_Z_plus in Fu. change (inject_Z 1) with 1 in Fu.
  destruct (Qeq_dec x (inject_Z (Qfloor x))) as [E|NE].
  - rewrite (rne_comp _ _ E) at 1.
    assert (E' : - x == inject_Z (- Qfloor x)) by (rewrite inject_Z_opp, <- E; reflexivity).
    rewrite (rne_comp _ _ E'), !rne_inject. reflexivity.
  - assert (Lt : inject_Z (Qfloor x) < x).
    { apply Qle_lt_or_eq in Fl. destruct Fl as [?|F]; [assumption|].
      exfalso. apply NE. symmetry. assumption. }
    assert (G : Qfloor (- x) = (- (Qfloor x + 1))%Z).
    { apply Qfloor_unique.
      - rewrite inject_Z_opp, inject_Z_plus. change (inject_Z 1) with 1. lra.
      - replace (- (Qfloor x + 1) + 1)%Z with (- Qfloor x)%Z by lia. rewrite inject_Z_opp. lra. }
    unfold rne. rewrite G.
    rewrite inject_Z_opp, inject_Z_plus. change (inject_Z 1) with 1.
    destruct (Qcompare (x - inject_Z (Qfloor x)) (1 # 2)) eqn:Cx;
    destruct (Qcompare (- x - - (inject_Z (Qfloor x) + 1)) (1 # 2)) eqn:Cy;
    qcmp; try (exfalso; lra); try lia.
    rewrite Z.even_opp, Z.even_add. change (Z.even 1) with false.
    destruct (Z.even (Qfloor x)); simpl; lia.
Qed.

Lemma binade_opp x : binade (- x) = binade x.
Proof. destruct x as [n d]. unfold binade, Qabs, Qopp. simpl. rewrite Z.abs_opp. reflexivity. Qed.

Lemma binade_comp x y : ~ x == 0 -> x == y -> binade x = binade y.
Proof.
  intros Hx E. assert (Hy : ~ y == 0) by (rewrite <- E; assumption).
  destruct (binade_spec x Hx) as [Lx Ux]. destruct (binade_spec y Hy) as [Ly Uy].
  assert (EA : Qabs x == Qabs y) by (apply Qabs_wd; exact E).
  assert (A : 2 ^ binade x < 2 ^ (binade y + 1)) by lra.
  assert (B : 2 ^ binade y < 2 ^ (binade x + 1)) by lra.
  apply pow2_lt_inv in A, B. lia.
Qed.

#[export] Instance round_comp : Proper (Qeq ==> Qeq) round.
Proof.
  intros x y E. change (x == y) in E.
  destruct (Qeq_dec x 0) as [Z0|NZ].
  - rewrite (round_0 x Z0), (round_0 y) by (rewrite <- E; assumption). reflexivity.
  - rewrite (round_eq x NZ), (round_eq y) by (rewrite <- E; assumption).
    unfold ulp_exp. rewrite (binade_comp x y NZ E). apply round_at_comp. assumption.
Qed.

Lemma round_opp x : round (- x) == - round x.
Proof.
  destruct (Qeq_dec x 0) as [Z0|NZ].
  - rewrite (round_0 x Z0), (round_0 (- x)) by (rewrite Z0; reflexivity). reflexivity.
  - rewrite (round_eq x NZ), (round_eq (- x)) by (intros F; apply NZ; lra).
    unfold ulp_exp. rewrite binade_opp. unfold round_at.
    assert (E : - x * 2 ^ (- Z.max (binade x - 52) emin) == - (x * 2 ^ (- Z.max (binade x - 52) emin))) by ring.
    rewrite (rne_comp _ _ E), rne_opp, inject_Z_opp. ring.
Qed.

Lemma trunc_opp x : trunc (- x) = (- trunc x)%Z.
Proof.
  unfold trunc, Qceiling.
  destruct (Qle_bool 0 x) eqn:Cx; destruct (Qle_bool 0 (- x)) eqn:Cy.
  - apply Qle_bool_iff in Cx, Cy. assert (E : x == 0) by lra.
    assert (E' : - x == 0) by lra.
    rewrite (Qfloor_comp _ _ E), (Qfloor_comp _ _ E'). reflexivity.
  - rewrite (Qfloor_comp _ _ (Qopp_opp x)). reflexivity.
  - lia.
  - assert (Nx : ~ 0 <= x) by (intros F; apply Qle_bool_iff in F; congruence).
    assert (Ny : ~ 0 <= - x) by (intros F; apply Qle_bool_iff in F; congruence).
    exfalso. lra.
Qed.

End FloatFacts.

(** ** Durations, weeks and the calendar *)

Module TimeFacts.

Import float64 time entity FloatFacts.

Section Weeks.
Local Open Scope Q_scope.

Lemma cHour : of_int (60 * 60 * 10 ^ 9) == inject_Z Hour.
Proof. apply round_int. vm_compute. reflexivity. Qed.

Lemma c168 : of_int (24 * 7) == 168.
Proof. apply (round_int 168). vm_compute. reflexivity. Qed.

Lemma cHour_pos : 0 < of_int (60 * 60 * 10 ^ 9).
Proof. rewrite cHour. reflexivity. Qed.

Lemma c168_pos : 0 < of_int (24 * 7).
Proof. rewrite c168. reflexivity. Qed.

Lemma round_1 : round 1 == 1.
Proof. apply (round_dyadic 1 1 0); [reflexivity|reflexivity|discriminate]. Qed.

Lemma round_m1 : round (-1) == -1.
Proof. apply (round_dyadic (-1) (-1) 0); [reflexivity|reflexivity|discriminate]. Qed.

Lemma Qdiv_le_1 a c : 0 < c -> a <= c -> a / c <= 1.
Proof. intros Hc H. apply Qle_shift_div_r; [assumption|lra]. Qed.

Lemma Qdiv_ge_m1 a c : 0 < c -> - c <= a -> -1 <= a / c.
Proof. intros Hc H. apply Qle_shift_div_l; [assumption|lra]. Qed.

Lemma Qdiv_nonneg a c : 0 < c -> 0 <= a -> 0 <= a / c.
Proof. intros Hc H. apply Qle_shift_div_l; [assumption|lra]. Qed.

Lemma Qdiv_nonpos a c : 0 < c -> a <= 0 -> a / c <= 0.
Proof. intros Hc H. apply Qle_shift_div_r; [assumption|lra]. Qed.

Lemma rem_Hour_small d : (Z.abs (Z.rem d Hour) < 2 ^ 53)%Z.
Proof.
  pose proof (Z.rem_bound_abs d Hour ltac:(discriminate)) as H.
  change (Z.abs Hour) with 3600000000000%Z in H.
  change (2 ^ 53)%Z with 9007199254740992%Z. lia.
Qed.

Lemma hourFrac_bounds d :
  -1 <= hourFrac d <= 1 /\ ((0 <= d)%Z -> 0 <= hourFrac d) /\ ((d <= 0)%Z -> hourFrac d <= 0).
Proof.
  unfold hourFrac, div.
  pose proof (Z.rem_bound_abs d Hour ltac:(discriminate)) as B.
  change (Z.abs Hour) with 3600000000000%Z in B.
  pose proof (round_int _ (rem_Hour_small d)) as E.
  pose proof cHour as EH. pose proof cHour_pos as PH.
  set (n := Z.rem d Hour) in *. set (c := of_int (60 * 60 * 10 ^ 9)) in *.
  assert (Bn : - c <= of_int n <= c).
  { rewrite E, EH. change Hour with 3600000000000%Z.
    rewrite <- inject_Z_opp, <- !Zle_Qle. lia. }
  repeat split.
  - rewrite <- round_m1. apply round_mono. apply Qdiv_ge_m1; tauto.
  - rewrite <- round_1. apply round_mono. apply Qdiv_le_1; tauto.
  - intros Hd. apply round_nonneg. apply Qdiv_nonneg; [assumption|].
    rewrite E. change 0 with (inject_Z 0). rewrite <- Zle_Qle.
    subst n. apply Z.rem_nonneg; [discriminate|assumption].
  - intros Hd. apply round_nonpos. apply Qdiv_nonpos; [assumption|].
    rewrite E. change 0 with (inject_Z 0). rewrite <- Zle_Qle.
    subst n. apply Z.rem_nonpos; [discriminate|assumption].
Qed.

Lemma quot_Hour_small d : inDuration d -> (Z.abs (Z.quot d Hour) < 2 ^ 53)%Z.
Proof.
  intros [L U]. unfold minDuration, maxDuration in *.
  change (2 ^ 53)%Z with 9007199254740992%Z.
  change (2 ^ 63)%Z with 9223372036854775808%Z in *.
  assert (A : (Z.quot (-9223372036854775808) Hour <= Z.quot d Hour)%Z)
    by (apply Z.quot_le_mono; [reflexivity|lia]).
  assert (B : (Z.quot d Hour <= Z.quot 9223372036854775807 Hour)%Z)
    by (apply Z.quot_le_mono; [reflexivity|lia]).
  vm_compute Z.quot in A at 1. vm_compute Z.quot in B at 2. lia.
Qed.

Lemma Hours_mono d1 d2 :
  inDuration d1 -> inDuration d2 -> (d1 <= d2)%Z -> Hours d1 <= Hours d2.
Proof.
  intros I1 I2 H. unfold Hours.
  pose proof (Z.quot_le_mono d1 d2 Hour ltac:(reflexivity) H) as Hq.
  pose proof (Z.quot_rem' d1 Hour) as E1. pose proof (Z.quot_rem' d2 Hour) as E2.
  destruct (Z.eq_dec (Z.quot d1 Hour) (Z.quot d2 Hour)) as [Eq|Ne].
  - rewrite Eq. apply add_mono; [apply Qle_refl|].
    unfold hourFrac. apply div_mono; [apply cHour_pos|]. apply of_int_mono.
    rewrite Eq in E1. lia.
  - unfold add. apply round_mono.
    rewrite (round_int _ (quot_Hour_small d1 I1)), (round_int _ (quot_Hour_small d2 I2)).
    assert (Hs : inject_Z (Z.quot d1 Hour) + 1 <= inject_Z (Z.quot d2 Hour)).
    { change 1 with (inject_Z 1). rewrite <- inject_Z_plus, <- Zle_Qle. lia. }
    destruct (hourFrac_bounds d1) as [[L1 U1] [P1 N1]].
    destruct (hourFrac_bounds d2) as [[L2 U2] [P2 N2]].
    destruct (Z_le_gt_dec 0 d1) as [Pos|Neg].
    + specialize (P2 ltac:(lia)). lra.
    + specialize (N1 ltac:(lia)). lra.
Qed.

Theorem weeksOf_mono d1 d2 :
  inDuration d1 -> inDuration d2 -> (d1 <= d2)%Z -> (weeksOf d1 <= weeksOf d2)%Z.
Proof.
  intros. unfold weeksOf. apply trunc_mono. apply div_mono; [apply c168_pos|].
  apply Hours_mono; assumption.
Qed.

Lemma Week_Hour : Week = (168 * Hour)%Z.
Proof. reflexivity. Qed.

Lemma of_int_0 : of_int 0 = 0.
Proof. reflexivity. Qed.

Lemma Hours_whole h :
  (Z.abs h < 2 ^ 53)%Z -> Hours (h * Hour)%Z == inject_Z h.
Proof.
  intros Hh. unfold Hours, hourFrac.
  rewrite Z.quot_mul, Z.rem_mul by discriminate.
  unfold add, div. rewrite of_int_0.
  assert (E0 : round (0 / of_int (60 * 60 * 10 ^ 9)) = 0).
  { apply round_0. unfold Qdiv. ring. }
  rewrite E0.
  assert (Ex : of_int h + 0 == inject_Z h) by (rewrite (round_int h Hh); ring).
  rewrite (round_comp _ _ Ex). apply (round_int h Hh).
Qed.

Lemma weeksOf_whole w : inDuration (w * Week)%Z -> weeksOf (w * Week)%Z = w.
Proof.
  intros [L U]. unfold minDuration, maxDuration in *.
  change (2 ^ 63)%Z with 9223372036854775808%Z in *.
  change Week with 604800000000000%Z in L, U.
  unfold weeksOf. rewrite Week_Hour.
  replace (w * (168 * Hour))%Z with ((168 * w) * Hour)%Z by ring.
  assert (Hh : (Z.abs (168 * w) < 2 ^ 53)%Z).
  { change (2 ^ 53)%Z with 9007199254740992%Z. lia. }
  assert (E : div (Hours (168 * w * Hour)%Z) (of_int (24 * 7)) == inject_Z w).
  { unfold div. rewrite (Hours_whole _ Hh), c168.
    assert (E1 : inject_Z (168 * w) / 168 == inject_Z w).
    { rewrite inject_Z_mult. change (inject_Z 168) with 168. field. }
    rewrite (round_comp _ _ E1). apply (round_int w).
    change (2 ^ 53)%Z with 9007199254740992%Z. lia. }
  rewrite (trunc_comp _ _ E). apply trunc_inject.
Qed.

Lemma weeksOf_before_boundary w :
  (0 <= w < 15250)%Z -> (weeksOf ((w + 1) * Week - slack)%Z <= w)%Z.
Proof.
  intros Hw. unfold weeksOf, slack.
  set (h := (168 * (w + 1) - 1)%Z).
  assert (Ed : ((w + 1) * Week - 1677 = Hour * h + (Hour - 1677))%Z).
  { rewrite Week_Hour. subst h. ring. }
  assert (Hq : Z.quot ((w + 1) * Week - 1677) Hour = h).
  { rewrite Ed. symmetry. apply Z.quot_unique with (r := (Hour - 1677)%Z).
    - subst h. change Hour with 3600000000000%Z. lia.
    - change Hour with 3600000000000%Z. lia.
    - reflexivity. }
  assert (Hr : Z.rem ((w + 1) * Week - 1677) Hour = (Hour - 1677)%Z).
  { rewrite Ed. symmetry. apply Z.rem_unique with (q := h).
    - subst h. change Hour with 3600000000000%Z. lia.
    - change Hour with 3600000000000%Z. lia.
    - reflexivity. }
  (* the fraction stays below 1 - 2^-31 *)
  set (z1 := 1 - 2 ^ (-31)).
  assert (F : hourFrac ((w + 1) * Week - 1677)%Z <= z1).
  { unfold hourFrac. rewrite Hr.
    assert (Ez1 : round z1 == z1).
    { apply (round_dyadic z1 (2 ^ 31 - 1) (-31)); [reflexivity|reflexivity|discriminate]. }
    rewrite <- Ez1. unfold div. apply round_mono. subst z1. vm_compute. discriminate. }
  (* so the hour count stays below 168 (w + 1) - 2^-31 *)
  set (z2 := inject_Z h + z1).
  assert (G : Hours ((w + 1) * Week - 1677)%Z <= z2).
  { unfold Hours. rewrite Hq.
    assert (Hh : (Z.abs h < 2 ^ 53)%Z).
    { subst h. change (2 ^ 53)%Z with 9007199254740992%Z. lia. }
    assert (Ez2 : round z2 == z2).
    { apply (round_dyadic z2 (h * 2 ^ 31 + (2 ^ 31 - 1)) (-31)).
      - subst z2 z1.
        repeat first [rewrite inject_Z_plus | rewrite inject_Z_mult].
        change (inject_Z (2 ^ 31)) with 2147483648. change (inject_Z (2 ^ 31 - 1)) with 2147483647.
        change (2 ^ (-31)) with (1 # 2147483648). lra.
      - subst h. change (2 ^ 53)%Z with 9007199254740992%Z. change (2 ^ 31)%Z with 2147483648%Z. lia.
      - discriminate. }
    rewrite <- Ez2. unfold add. apply round_mono. rewrite (round_int h Hh). subst z2. lra. }
  (* and the week count below (w + 1) - 2^-39 *)
  set (z3 := inject_Z (w + 1) - 2 ^ (-39)).
  assert (K : div (Hours ((w + 1) * Week - 1677)%Z) (of_int (24 * 7)) <= z3).
  { assert (Ez3 : round z3 == z3).
    { apply (round_dyadic z3 ((w + 1) * 2 ^ 39 - 1) (-39)).
      - subst z3. unfold Z.sub.
        repeat first [rewrite inject_Z_plus | rewrite inject_Z_mult].
        change (inject_Z (2 ^ 39)) with 549755813888. change (inject_Z (- (1))) with (-1).
        change (inject_Z 1) with 1.
        change (2 ^ (-39)) with (1 # 549755813888). lra.
      - change (2 ^ 53)%Z with 9007199254740992%Z. change (2 ^ 39)%Z with 549755813888%Z. lia.
      - discriminate. }
    rewrite <- Ez3. unfold div. apply round_mono. rewrite c168.
    apply Qle_shift_div_r; [reflexivity|].
    apply Qle_trans with z2; [assumption|]. subst z2 z3 z1 h.
    unfold Z.sub. repeat first [rewrite inject_Z_plus | rewrite inject_Z_mult].
    change (inject_Z 168) with 168. change (inject_Z (- (1))) with (-1).
    change (inject_Z 1) with 1.
    change (2 ^ (-39)) with (1 # 549755813888). change (2 ^ (-31)) with (1 # 2147483648). lra. }
  apply Z.le_trans with (trunc z3); [apply trunc_mono; assumption|].
  unfold trunc.
  assert (P : 0 <= z3).
  { subst z3. change (2 ^ (-39)) with (1 # 549755813888).
    assert (1 <= inject_Z (w + 1)) by (change 1 with (inject_Z 1); rewrite <- Zle_Qle; lia). lra. }
  apply Qle_bool_iff in P. rewrite P.
  assert (U : inject_Z (Qfloor z3) < inject_Z (w + 1)).
  { apply Qle_lt_trans with z3; [apply Qfloor_le|]. subst z3.
    change (2 ^ (-39)) with (1 # 549755813888). lra. }
  rewrite <- Zlt_Qlt in U. lia.
Qed.

Lemma Hours_opp (d : Z) : Hours (- d)%Z == - Hours d.
Proof.
  unfold Hours, hourFrac. rewrite Z.quot_opp_l, Z.rem_opp_l by discriminate.
  unfold add, div, of_int.
  rewrite !inject_Z_opp.
  set (a := round (inject_Z (Z.quot d Hour))).
  set (c := round (inject_Z (60 * 60 * 10 ^ 9))).
  set (n := inject_Z (Z.rem d Hour)).
  assert (E1 : round (- n) / c == - (round n / c)).
  { rewrite round_opp. unfold Qdiv. ring. }
  assert (E2 : round (round (- n) / c) == - round (round n / c)).
  { rewrite (round_comp _ _ E1). apply round_opp. }
  assert (E3 : round (- inject_Z (Z.quot d Hour)) + round (round (- n) / c)
               == - (a + round (round n / c))).
  { rewrite E2. subst a. rewrite round_opp. ring. }
  rewrite (round_comp _ _ E3). apply round_opp.
Qed.

Theorem weeksOf_opp (d : Z) : weeksOf (- d)%Z = (- weeksOf d)%Z.
Proof.
  unfold weeksOf, div.
  assert (E : Hours (- d)%Z / of_int (24 * 7) == - (Hours d / of_int (24 * 7))).
  { rewrite Hours_opp. unfold Qdiv. ring. }
  rewrite (trunc_comp _ _ (round_comp _ _ E)).
  rewrite (trunc_comp _ _ (round_opp _)). apply trunc_opp.
Qed.

End Weeks.

Lemma yoe_bounds doe :
  0 <= doe < 146097 ->
  let yoe := (doe - doe / 1460 + doe / 36524 - doe / 146096) / 365 in
  0 <= yoe < 400 /\ 0 <= doe - (365 * yoe + yoe / 4 - yoe / 100) < 366.
Proof.
  intros H yoe. subst yoe. Z.div_mod_to_equations. lia.
Qed.

Lemma doy_roundtrip doy :
  0 <= doy < 366 ->
  let mp := (5 * doy + 2) / 153 in
  let d := doy - (153 * mp + 2) / 5 + 1 in
  let m := if mp <? 10 then mp + 3 else mp - 9 in
  (m + 9) mod 12 = mp /\ (153 * mp + 2) / 5 + d - 1 = doy.
Proof.
  intros H mp d m. subst d m.
  assert (Hmp : 0 <= mp < 12) by (subst mp; Z.div_mod_to_equations; lia).
  destruct (Z.ltb_spec mp 10); split.
  - replace (mp + 3 + 9) with (mp + 1 * 12) by lia.
    rewrite Z.mod_add by lia. apply Z.mod_small. lia.
  - lia.
  - replace (mp - 9 + 9) with mp by lia. apply Z.mod_small. lia.
  - lia.
Qed.

(** [daysOf] inverts [civil], also after moving the day of the month. *)
Lemma daysOf_civil z k :
  let '(y, m, d) := civil z in daysOf y m (d + k) = z + k.
Proof.
  unfold civil.
  set (era := (z + 306) / 146097). set (doe := (z + 306) mod 146097).
  assert (Hdoe : 0 <= doe < 146097) by (apply Z.mod_pos_bound; lia).
  assert (Hz : z + 306 = 146097 * era + doe) by (apply Z.div_mod; lia).
  destruct (yoe_bounds doe Hdoe) as [Hy Hdoy].
  set (yoe := (doe - doe / 1460 + doe / 36524 - doe / 146096) / 365) in *.
  set (doy := doe - (365 * yoe + yoe / 4 - yoe / 100)) in *.
  destruct (doy_roundtrip doy Hdoy) as [Hm Hd].
  set (mp := (5 * doy + 2) / 153) in *.
  set (d := doy - (153 * mp + 2) / 5 + 1) in *.
  set (m := if mp <? 10 then mp + 3 else mp - 9) in *.
  unfold daysOf.
  assert (Ey : (if m <=? 2 then yoe + era * 400 + (if m <=? 2 then 1 else 0) - 1
                else yoe + era * 400 + (if m <=? 2 then 1 else 0)) = yoe + era * 400).
  { destruct (m <=? 2); lia. }
  rewrite Ey.
  assert (Eera : (yoe + era * 400) / 400 = era).
  { rewrite Z.div_add by lia. rewrite Z.div_small by lia. lia. }
  assert (Eyoe : (yoe + era * 400) mod 400 = yoe).
  { rewrite Z.mod_add by lia. apply Z.mod_small. lia. }
  rewrite Eera, Eyoe, Hm. lia.
Qed.

Lemma Date_civil t :
  Date (Year t) (Month t) (Day_ t) 0 0 0 0 = absDays t * Day.
Proof.
  unfold Date, Year, Month, Day_.
  pose proof (daysOf_civil (absDays t) 0) as H.
  destruct (civil (absDays t)) as [[y m] d]. simpl.
  rewrite Z.add_0_r in H. rewrite H. lia.
Qed.

Lemma AddDate_days_spec t k : AddDate_days t k = t + k * Day.
Proof.
  unfold AddDate_days, Date, Year, Month, Day_.
  pose proof (daysOf_civil (absDays t) k) as H.
  destruct (civil (absDays t)) as [[y m] d]. simpl.
  rewrite H. unfold absDays.
  pose proof (Z.div_mod t Day ltac:(discriminate)). lia.
Qed.

Lemma absDays_add t k : absDays (t + k * Day) = absDays t + k.
Proof. unfold absDays. apply Z.div_add. discriminate. Qed.

Lemma Weekday_range t : 0 <= Weekday t < 7.
Proof. unfold Weekday. apply Z.mod_pos_bound. lia. Qed.

Lemma weeksOf_max : weeksOf maxDuration = 15250.
Proof. vm_compute. reflexivity. Qed.

Lemma weeksOf_min : weeksOf minDuration = -15250.
Proof. vm_compute. reflexivity. Qed.

Lemma Week_val : Week = 604800000000000.
Proof. reflexivity. Qed.

(** Week count of a non-negative duration. *)
Lemma weeksOf_nonneg d :
  0 <= d <= maxDuration ->
  d / Week <= weeksOf d <= d / Week + 1 /\
  (d mod Week <= Week - slack -> weeksOf d = d / Week).
Proof.
  intros Hd. unfold maxDuration in Hd.
  change (2 ^ 63) with 9223372036854775808 in Hd.
  pose proof (Z.div_mod d Week ltac:(discriminate)) as E.
  pose proof (Z.mod_pos_bound d Week ltac:(reflexivity)) as B.
  set (w := d / Week) in *. set (r := d mod Week) in *.
  rewrite Week_val in E, B.
  assert (Hw : 0 <= w <= 15250) by lia.
  assert (Id : inDuration d).
  { unfold inDuration, minDuration, maxDuration.
    change (2 ^ 63) with 9223372036854775808. lia. }
  assert (Lo : w <= weeksOf d).
  { rewrite <- (weeksOf_whole w) at 1.
    - apply weeksOf_mono; [|assumption|rewrite Week_val; lia].
      unfold inDuration, minDuration, maxDuration.
      change (2 ^ 63) with 9223372036854775808. rewrite Week_val. lia.
    - unfold inDuration, minDuration, maxDuration.
      change (2 ^ 63) with 9223372036854775808. rewrite Week_val. lia. }
  assert (Imax : inDuration maxDuration).
  { unfold inDuration, minDuration, maxDuration.
    change (2 ^ 63) with 9223372036854775808. lia. }
  destruct (Z.eq_dec w 15250) as [Top|NotTop].
  - assert (Hi : weeksOf d <= 15250).
    { rewrite <- weeksOf_max. apply weeksOf_mono; [assumption|assumption|].
      unfold maxDuration. change (2 ^ 63) with 9223372036854775808. lia. }
    split; [lia|]. intros _. lia.
  - split.
    + split; [assumption|].
      rewrite <- (weeksOf_whole (w + 1)).
      * apply weeksOf_mono; [assumption| |rewrite Week_val; lia].
        unfold inDuration, minDuration, maxDuration.
        change (2 ^ 63) with 9223372036854775808. rewrite Week_val. lia.
      * unfold inDuration, minDuration, maxDuration.
        change (2 ^ 63) with 9223372036854775808. rewrite Week_val. lia.
    + intros Hr. unfold slack in Hr. rewrite Week_val in Hr.
      assert (Hi : weeksOf d <= w).
      { apply Z.le_trans with (weeksOf ((w + 1) * Week - slack)).
        - apply weeksOf_mono; [assumption| |unfold slack; rewrite Week_val; lia].
          unfold inDuration, minDuration, maxDuration, slack.
          change (2 ^ 63) with 9223372036854775808. rewrite Week_val. lia.
        - apply weeksOf_before_boundary. lia. }
      lia.
Qed.

(** [weeksOf] is the number of whole weeks in [d], truncated toward
    zero; binary64 rounding can only matter within [slack] nanoseconds
    before a week boundary, where the count may already be that of the
    boundary. *)
Theorem weeksOf_spec d :
  inDuration d ->
  (weeksOf d = Z.quot d Week \/ weeksOf d = Z.quot d Week + Z.sgn d) /\
  (Z.abs (Z.rem d Week) <= Week - slack -> weeksOf d = Z.quot d Week).
Proof.
  intros [L U].
  destruct (Z_le_gt_dec 0 d) as [Pos|Neg].
  - destruct (weeksOf_nonneg d (conj Pos U)) as [[A B] C].
    rewrite Z.quot_div_nonneg by (try assumption; reflexivity).
    rewrite Z.rem_mod_nonneg by (try assumption; reflexivity).
    split.
    + destruct (Z.eq_dec d 0) as [->|NZ]; [left; reflexivity|].
      rewrite Z.sgn_pos by lia. lia.
    + intros H. apply C.
      pose proof (Z.mod_pos_bound d Week ltac:(reflexivity)). lia.
  - destruct (Z.eq_dec d minDuration) as [->|NotMin].
    + split; [left|intros _]; vm_compute; reflexivity.
    + assert (Hn : 0 <= - d <= maxDuration) by (unfold minDuration, maxDuration in *; lia).
      destruct (weeksOf_nonneg (- d) Hn) as [[A B] C].
      rewrite weeksOf_opp in *.
      assert (Eq : Z.quot d Week = - (- d / Week)).
      { rewrite <- (Z.quot_div_nonneg (- d) Week) by (try lia; reflexivity).
        rewrite Z.quot_opp_l by discriminate. lia. }
      assert (Er : Z.abs (Z.rem d Week) = (- d) mod Week).
      { rewrite <- (Z.rem_mod_nonneg (- d) Week) by (try lia; reflexivity).
        rewrite Z.rem_opp_l by discriminate.
        pose proof (Z.rem_nonpos d Week ltac:(discriminate) ltac:(lia)). lia. }
      rewrite Eq, Er. rewrite Z.sgn_neg by lia.
      split; [lia|]. intros H. specialize (C H). lia.
Qed.

End TimeFacts.

(** ** Decimal arithmetic *)

Module DecimalFacts.

Import decimal.
Local Open Scope Q_scope.

Lemma p10_pos e : 0 < 10 ^ e.
Proof. apply Qpower_0_lt. reflexivity. Qed.

Lemma p10_add a b : 10 ^ (a + b) == 10 ^ a * 10 ^ b.
Proof. apply Qpower_plus. discriminate. Qed.

Lemma p10_inject e : (0 <= e)%Z -> 10 ^ e == inject_Z (10 ^ e).
Proof. intros. symmetry. apply (Zpower_Qpower 10 e). assumption. Qed.

Lemma p10_cancel e : 10 ^ e * 10 ^ (- e) == 1.
Proof. rewrite <- p10_add. replace (e + - e)%Z with 0%Z by lia. reflexivity. Qed.

Lemma toQ_scaled d m : (m <= exp d)%Z -> toQ d == inject_Z (scaled d m) * 10 ^ m.
Proof.
  intros H. unfold toQ, scaled.
  rewrite inject_Z_mult, <- p10_inject by lia.
  rewrite <- Qmult_assoc, <- p10_add.
  replace (exp d - m + m)%Z with (exp d) by lia. reflexivity.
Qed.

Lemma rescale_down d m : (m <= exp d)%Z -> rescale d m = New (scaled d m) m.
Proof.
  intros H. unfold rescale, scaled. destruct d as [v e]. simpl in *.
  destruct (Z.eqb_spec e m) as [->|Ne].
  - rewrite Z.sub_diag. simpl. rewrite Z.mul_1_r. reflexivity.
  - destruct (Z.ltb_spec e m); [lia|].
    replace (Z.abs (m - e)) with (e - m)%Z by lia. reflexivity.
Qed.

Lemma scaled_self d : scaled d (exp d) = value d.
Proof. unfold scaled. rewrite Z.sub_diag. simpl. apply Z.mul_1_r. Qed.

Lemma RescalePair_spec a b :
  let m := Z.min (exp a) (exp b) in
  RescalePair a b = (New (scaled a m) m, New (scaled b m) m).
Proof.
  intros m. subst m. unfold RescalePair.
  destruct (Z.ltb_spec (exp a) (exp b)) as [L|G].
  - rewrite Z.min_l by lia. rewrite rescale_down by lia.
    rewrite scaled_self. destruct a; reflexivity.
  - destruct (Z.ltb_spec (exp b) (exp a)) as [L'|G'].
    + rewrite Z.min_r by lia. rewrite rescale_down by lia.
      rewrite scaled_self. destruct b; reflexivity.
    + assert (E : exp a = exp b) by lia. rewrite Z.min_l by lia.
      destruct a as [va ea], b as [vb eb]. simpl in *. subst eb.
      unfold scaled. simpl. rewrite Z.sub_diag. simpl. rewrite !Z.mul_1_r. reflexivity.
Qed.

Lemma Qcompare_scale x y c : 0 < c -> Qcompare (inject_Z x * c) (inject_Z y * c) = (x ?= y)%Z.
Proof.
  intros Hc. destruct (Z.compare_spec x y) as [E|L|G].
  - subst. apply Qeq_alt. reflexivity.
  - apply Qlt_alt. apply Qmult_lt_compat_r; [assumption|]. rewrite <- Zlt_Qlt. assumption.
  - apply Qgt_alt. apply Qmult_lt_compat_r; [assumption|]. rewrite <- Zlt_Qlt. assumption.
Qed.

Lemma Cmp_scaled a b :
  Cmp a b = (scaled a (Z.min (exp a) (exp b)) ?= scaled b (Z.min (exp a) (exp b)))%Z.
Proof.
  unfold Cmp. destruct (Z.eqb_spec (exp a) (exp b)) as [E|NE].
  - rewrite Z.min_l by lia. rewrite scaled_self. rewrite E, scaled_self. reflexivity.
  - rewrite RescalePair_spec. reflexivity.
Qed.

Theorem Cmp_spec a b : Cmp a b = Qcompare (toQ a) (toQ b).
Proof.
  rewrite Cmp_scaled. set (m := Z.min (exp a) (exp b)).
  rewrite (Qcompare_comp _ _ (toQ_scaled a m ltac:(lia)) _ _ (toQ_scaled b m ltac:(lia))).
  symmetry. apply Qcompare_scale. apply p10_pos.
Qed.

Lemma Equal_spec a b : Equal a b = true <-> toQ a == toQ b.
Proof.
  unfold Equal. rewrite Cmp_spec. rewrite Qeq_alt.
  destruct (Qcompare (toQ a) (toQ b)); split; congruence.
Qed.

Lemma Equal_false a b : Equal a b = false <-> ~ toQ a == toQ b.
Proof.
  rewrite <- Equal_spec. destruct (Equal a b); split; congruence.
Qed.

Lemma LessThanOrEqual_spec a b : LessThanOrEqual a b = true <-> toQ a <= toQ b.
Proof.
  unfold LessThanOrEqual. rewrite Cmp_spec.
  destruct (Qcompare (toQ a) (toQ b)) eqn:C.
  - apply Qeq_alt in C. split; [intros _; lra|reflexivity].
  - apply Qlt_alt in C. split; [intros _; lra|reflexivity].
  - apply Qgt_alt in C. split; [discriminate|intros; exfalso; lra].
Qed.

Lemma LessThanOrEqual_false a b : LessThanOrEqual a b = false <-> toQ b < toQ a.
Proof.
  pose proof (LessThanOrEqual_spec a b) as H.
  destruct (LessThanOrEqual a b); split; intros; try congruence.
  - exfalso. assert (toQ a <= toQ b) by (apply H; reflexivity). lra.
  - apply Qnot_le_lt. intros F. apply H in F. discriminate.
Qed.

Lemma toQ_Zero : toQ Zero == 0.
Proof. reflexivity. Qed.

Lemma toQ_Add a b : toQ (Add a b) == toQ a + toQ b.
Proof.
  unfold Add. rewrite RescalePair_spec. set (m := Z.min (exp a) (exp b)). simpl.
  rewrite (toQ_scaled a m), (toQ_scaled b m) by lia.
  unfold toQ. simpl. rewrite inject_Z_plus. ring.
Qed.

Lemma toQ_Sub a b : toQ (Sub a b) == toQ a - toQ b.
Proof.
  unfold Sub. rewrite RescalePair_spec. set (m := Z.min (exp a) (exp b)). simpl.
  rewrite (toQ_scaled a m), (toQ_scaled b m) by lia.
  unfold toQ. simpl. unfold Z.sub. rewrite inject_Z_plus, inject_Z_opp. ring.
Qed.

Lemma Mul_spec a b c : Mul a b = Ret c -> toQ c == toQ a * toQ b.
Proof.
  unfold Mul. destruct (_ || _); [discriminate|].
  intros H. injection H as <-. unfold toQ. simpl.
  rewrite inject_Z_mult, p10_add. ring.
Qed.

Lemma Mul_returns a b :
  (MinInt32 <= exp a + exp b <= MaxInt32)%Z ->
  Mul a b = Ret (New (value a * value b) (exp a + exp b)).
Proof.
  intros H. unfold Mul.
  destruct (Z.ltb_spec MaxInt32 (exp a + exp b)); [lia|].
  destruct (Z.ltb_spec (exp a + exp b) MinInt32); [lia|]. reflexivity.
Qed.

Lemma toQ_sign d : (0 < toQ d <-> (0 < value d)%Z) /\ (toQ d < 0 <-> (value d < 0)%Z)
                   /\ (toQ d == 0 <-> value d = 0%Z).
Proof.
  unfold toQ. pose proof (p10_pos (exp d)) as P. set (p := 10 ^ exp d) in *.
  assert (A : forall z, (0 < z)%Z -> 0 < inject_Z z * p).
  { intros z Hz. apply Qmult_lt_0_compat; [|assumption].
    change 0 with (inject_Z 0). rewrite <- Zlt_Qlt. assumption. }
  assert (B : forall z, (z < 0)%Z -> inject_Z z * p < 0).
  { intros z Hz. specialize (A (- z)%Z ltac:(lia)). rewrite inject_Z_opp in A. lra. }
  assert (C : inject_Z 0 * p == 0) by (change (inject_Z 0) with 0; ring).
  destruct (Z.lt_trichotomy (value d) 0) as [N|[E|Ps]].
  - specialize (B _ N). repeat split; intros; try lia; try lra.
  - rewrite E. repeat split; intros; try lia; try lra.
  - specialize (A _ Ps). repeat split; intros; try lia; try lra.
Qed.

Lemma IsNegative_spec d : IsNegative d = true <-> toQ d < 0.
Proof.
  unfold IsNegative, Sign. destruct (toQ_sign d) as [_ [N _]]. rewrite N.
  rewrite Z.eqb_eq. destruct (value d); simpl; split; intros; try lia; try discriminate.
Qed.

Lemma IsNegative_false d : IsNegative d = false <-> 0 <= toQ d.
Proof.
  pose proof (IsNegative_spec d) as H.
  destruct (IsNegative d); split; intros; try congruence.
  - exfalso. assert (toQ d < 0) by (apply H; reflexivity). lra.
  - apply Qnot_lt_le. intros F. apply H in F. discriminate.
Qed.

Lemma IsZero_spec d : IsZero d = true <-> toQ d == 0.
Proof.
  unfold IsZero, Sign. destruct (toQ_sign d) as [_ [_ Z0]]. rewrite Z0.
  rewrite Z.eqb_eq. destruct (value d); simpl; split; intros; try lia; try discriminate.
Qed.

Lemma Zpow10_pos n : (0 < 10 ^ n)%Z \/ (n < 0)%Z.
Proof. destruct (Z_lt_le_dec n 0); [right; assumption|left; apply Z.pow_pos_nonneg; lia]. Qed.

Lemma injZ_pos z : (0 < z)%Z -> 0 < inject_Z z.
Proof. intros H. change 0 with (inject_Z 0). rewrite <- Zlt_Qlt. assumption. Qed.

Lemma injZ_neq0 z : (0 < z)%Z -> ~ inject_Z z == 0.
Proof. intros H F. pose proof (injZ_pos z H). lra. Qed.

Lemma toQ_neg_exp d :
  (exp d < 0)%Z -> toQ d == inject_Z (value d) / inject_Z (10 ^ (- exp d)).
Proof.
  intros H. unfold toQ.
  replace (exp d) with (- - exp d)%Z at 1 by lia.
  rewrite Qpower_opp, p10_inject by lia. reflexivity.
Qed.

Lemma toQ_nonneg_exp d :
  (0 <= exp d)%Z -> toQ d == inject_Z (value d * 10 ^ exp d).
Proof.
  intros H. unfold toQ. rewrite inject_Z_mult, p10_inject by lia. reflexivity.
Qed.

Lemma Qfloor_toQ_neg d :
  (exp d < 0)%Z -> Qfloor (toQ d) = (value d / 10 ^ (- exp d))%Z.
Proof.
  intros H. rewrite (Qfloor_comp _ _ (toQ_neg_exp d H)). symmetry. apply Zdiv_Qdiv.
Qed.

(** [RoundDown(0)] of a non-negative decimal is its floor. *)
Lemma RoundDown0_spec d :
  (0 <= value d)%Z -> toQ (RoundDown d 0) == inject_Z (Qfloor (toQ d)).
Proof.
  intros Hv. unfold RoundDown. change (- 0)%Z with 0%Z.
  destruct (Z.leb_spec 0 (exp d)) as [Hp|Hn].
  - rewrite (Qfloor_comp _ _ (toQ_nonneg_exp d Hp)), Qfloor_Z. apply toQ_nonneg_exp. assumption.
  - rewrite Qfloor_toQ_neg by assumption.
    assert (R : rescale d 0 = New (Z.quot (value d) (10 ^ (- exp d))) 0).
    { unfold rescale. destruct (Z.eqb_spec (exp d) 0); [lia|].
      destruct (Z.ltb_spec (exp d) 0); [|lia].
      replace (Z.abs (0 - exp d)) with (- exp d)%Z by lia. reflexivity. }
    rewrite R. rewrite Z.quot_div_nonneg by (try assumption; apply Z.pow_pos_nonneg; lia).
    set (r := New (value d / 10 ^ (- exp d)) 0).
    assert (Er : toQ r == inject_Z (value d / 10 ^ (- exp d))).
    { unfold toQ, r. simpl. ring. }
    destruct (Equal d r) eqn:E.
    + apply Equal_spec in E. rewrite E. assumption.
    + assumption.
Qed.

Lemma RoundDown0_value d : (0 <= value d)%Z -> (0 <= value (RoundDown d 0))%Z.
Proof.
  intros Hv. unfold RoundDown. change (- 0)%Z with 0%Z.
  destruct (0 <=? exp d)%Z; [assumption|].
  destruct (Equal d (rescale d 0)); [assumption|].
  unfold rescale. destruct (exp d =? 0)%Z; [assumption|].
  destruct (exp d <? 0)%Z; simpl.
  - apply Z.quot_pos; [assumption|]. apply Z.pow_pos_nonneg; lia.
  - apply Z.mul_nonneg_nonneg; [assumption|]. apply Z.pow_nonneg. lia.
Qed.

Lemma RoundDown0_exp d : exp (RoundDown d 0) = exp d \/ exp (RoundDown d 0) = 0%Z.
Proof.
  unfold RoundDown. change (- 0)%Z with 0%Z.
  destruct (0 <=? exp d)%Z; [left; reflexivity|].
  destruct (Equal d (rescale d 0)); [left; reflexivity|].
  right. unfold rescale. destruct (Z.eqb_spec (exp d) 0); [assumption|].
  destruct (exp d <? 0)%Z; reflexivity.
Qed.

(** [RoundUp(0)] of a positive decimal is its ceiling. *)
Lemma RoundUp0_spec d :
  (0 < value d)%Z -> toQ (RoundUp d 0) == inject_Z (Qceiling (toQ d)).
Proof.
  intros Hv. unfold RoundUp. change (- 0)%Z with 0%Z.
  destruct (Z.leb_spec 0 (exp d)) as [Hp|Hn].
  - rewrite (Qceiling_comp _ _ (toQ_nonneg_exp d Hp)), Qceiling_Z. apply toQ_nonneg_exp. assumption.
  - set (D := (10 ^ (- exp d))%Z).
    assert (HD : (0 < D)%Z) by (apply Z.pow_pos_nonneg; lia).
    assert (R : rescale d 0 = New (value d / D) 0).
    { unfold rescale. destruct (Z.eqb_spec (exp d) 0); [lia|].
      destruct (Z.ltb_spec (exp d) 0); [|lia].
      replace (Z.abs (0 - exp d)) with (- exp d)%Z by lia.
      fold D. rewrite Z.quot_div_nonneg by lia. reflexivity. }
    rewrite R. set (r := New (value d / D) 0).
    assert (Er : toQ r == inject_Z (value d / D)) by (unfold toQ, r; simpl; ring).
    assert (Ed : toQ d == inject_Z (value d) / inject_Z D) by (apply toQ_neg_exp; assumption).
    assert (Ec : Qceiling (toQ d) = (- ((- value d) / D))%Z).
    { unfold Qceiling. f_equal.
      assert (E' : - toQ d == inject_Z (- value d) / inject_Z D).
      { rewrite Ed, inject_Z_opp. unfold Qdiv. ring. }
      rewrite (Qfloor_comp _ _ E'). symmetry. apply Zdiv_Qdiv. }
    rewrite Ec.
    pose proof (Z.div_mod (value d) D ltac:(lia)) as DM.
    pose proof (Z.mod_pos_bound (value d) D HD) as MB.
    destruct (Equal d r) eqn:E.
    + apply Equal_spec in E.
      assert (Em : (value d mod D = 0)%Z).
      { rewrite Er, Ed in E.
        assert (E2 : inject_Z (value d) == inject_Z (value d / D) * inject_Z D).
        { rewrite <- E. field. apply injZ_neq0. lia. }
        rewrite <- inject_Z_mult in E2. apply (proj1 (inject_Z_injective _ _)) in E2. lia. }
      rewrite E, Er.
      replace (- (- value d / D))%Z with (value d / D)%Z; [reflexivity|].
      rewrite Z.div_opp_l_z by lia. lia.
    + apply Equal_false in E.
      assert (Em : (value d mod D <> 0)%Z).
      { intros F. apply E. rewrite Er, Ed.
        assert (F' : value d = (D * (value d / D))%Z) by lia.
        assert (E3 : inject_Z (value d) == inject_Z D * inject_Z (value d / D)).
        { rewrite <- inject_Z_mult, <- F'. reflexivity. }
        rewrite E3. field. apply injZ_neq0. lia. }
      rewrite Z.sgn_pos by assumption. simpl.
      rewrite Z.div_opp_l_nz by lia.
      unfold toQ. simpl.
      replace (- (- (value d / D) - 1))%Z with (value d / D + 1)%Z by lia. ring.
Qed.

Lemma p10_neq0 e : ~ 10 ^ e == 0.
Proof. pose proof (p10_pos e). lra. Qed.

Lemma p10_opp e : 10 ^ (- e) == / 10 ^ e.
Proof. apply Qpower_opp. Qed.

(** Rounding half up of a non-negative integer quotient. *)
Lemma half_up_bounds aa bb z :
  (0 <= aa)%Z -> (0 < bb)%Z ->
  z = (if (2 * Z.rem aa bb <? bb)%Z then Z.quot aa bb else Z.quot aa bb + 1)%Z ->
  (0 <= z)%Z /\
  inject_Z z - (1 # 2) <= inject_Z aa / inject_Z bb < inject_Z z + (1 # 2).
Proof.
  intros Ha Hb ->.
  rewrite Z.quot_div_nonneg, Z.rem_mod_nonneg by lia.
  pose proof (Z.div_mod aa bb ltac:(lia)) as DM.
  pose proof (Z.mod_pos_bound aa bb Hb) as MB.
  pose proof (Z.div_pos aa bb Ha Hb) as QP.
  set (q := (aa / bb)%Z) in *. set (r := (aa mod bb)%Z) in *.
  pose proof (injZ_pos bb Hb) as PB.
  assert (EA : inject_Z aa == inject_Z bb * inject_Z q + inject_Z r).
  { rewrite DM, inject_Z_plus, inject_Z_mult. reflexivity. }
  assert (R0 : 0 <= inject_Z r) by (change 0 with (inject_Z 0); rewrite <- Zle_Qle; lia).
  destruct (Z.ltb_spec (2 * r) bb) as [L|G].
  - assert (L' : 2 * inject_Z r < inject_Z bb).
    { change 2 with (inject_Z 2). rewrite <- inject_Z_mult, <- Zlt_Qlt. assumption. }
    split; [lia|]. split.
    + apply Qle_shift_div_l; [assumption|]. rewrite EA. nra.
    + apply Qlt_shift_div_r; [assumption|]. rewrite EA. nra.
  - assert (G' : inject_Z bb <= 2 * inject_Z r).
    { change 2 with (inject_Z 2). rewrite <- inject_Z_mult, <- Zle_Qle. assumption. }
    assert (Rb : inject_Z r < inject_Z bb) by (rewrite <- Zlt_Qlt; lia).
    rewrite inject_Z_plus. change (inject_Z 1) with 1.
    split; [lia|]. split.
    + apply Qle_shift_div_l; [assumption|]. rewrite EA. nra.
    + apply Qlt_shift_div_r; [assumption|]. rewrite EA. nra.
Qed.

(** [Div] of a non-negative decimal by a positive one: the quotient
    rounded half up at 16 decimal places. *)
Theorem Div_spec a b :
  (0 <= value a)%Z -> (0 < value b)%Z ->
  (MinInt32 <= exp a - exp b + 16 <= MaxInt32)%Z ->
  exists z, Div a b = Ret (New z (-16)) /\ (0 <= z)%Z /\
    inject_Z z - (1 # 2) <= toQ a / toQ b * 10 ^ 16 < inject_Z z + (1 # 2).
Proof.
  intros Ha Hb Hr.
  unfold Div, DivRound, QuoRem, DivisionPrecision.
  rewrite Z.sgn_pos by assumption. simpl (1 =? 0)%Z. cbv iota.
  change (- (16))%Z with (-16)%Z.
  replace (exp a - exp b - -16)%Z with (exp a - exp b + 16)%Z by lia.
  set (e := (exp a - exp b + 16)%Z) in *.
  destruct (Z.ltb_spec MaxInt32 e) as [|_]; [lia|].
  destruct (Z.ltb_spec e MinInt32) as [|_]; [lia|]. simpl orb. cbv iota.
  set (aa := if (e <? 0)%Z then value a else (value a * 10 ^ e)%Z).
  set (bb := if (e <? 0)%Z then (value b * 10 ^ (- e))%Z else value b).
  set (k := if (e <? 0)%Z then (exp a + 16)%Z else exp b).
  set (kr := if (e <? 0)%Z then exp a else (-16 + exp b)%Z).
  assert (Ekr : (kr + 16)%Z = k) by (subst k kr; destruct (e <? 0)%Z; lia).
  assert (Haa : (0 <= aa)%Z).
  { subst aa. destruct (e <? 0)%Z; [assumption|].
    apply Z.mul_nonneg_nonneg; [assumption|apply Z.pow_nonneg; lia]. }
  assert (Hbb : (0 < bb)%Z).
  { subst bb. destruct (Z.ltb_spec e 0); [|assumption].
    apply Z.mul_pos_pos; [assumption|apply Z.pow_pos_nonneg; lia]. }
  assert (EQ : toQ a / toQ b * 10 ^ 16 == inject_Z aa / inject_Z bb).
  { unfold toQ. subst aa bb.
    assert (E10 : 10 ^ exp a == 10 ^ e * 10 ^ exp b * 10 ^ (- (16))).
    { rewrite <- !p10_add. subst e. f_equiv. lia. }
    pose proof (p10_neq0 (exp b)) as Nb.
    assert (Nvb : ~ inject_Z (value b) == 0) by (apply injZ_neq0; assumption).
    destruct (Z.ltb_spec e 0) as [Neg|Pos].
    - rewrite inject_Z_mult, <- p10_inject by lia.
      pose proof (p10_neq0 (- e)) as Ne. pose proof (p10_cancel e) as C.
      rewrite E10. change (10 ^ (- (16))) with (/ 10 ^ 16).
      assert (N16 : ~ 10 ^ 16 == 0) by discriminate.
      set (p16 := 10 ^ 16) in *. set (pe := 10 ^ e) in *. set (pn := 10 ^ (- e)) in *.
      set (pb := 10 ^ exp b) in *. set (va := inject_Z (value a)). set (vb := inject_Z (value b)) in *.
      assert (Epe : pe == / pn).
      { apply Qmult_inj_r with pn; [assumption|]. rewrite C. field. assumption. }
      rewrite Epe. field. repeat split; assumption.
    - rewrite inject_Z_mult, <- p10_inject by lia.
      rewrite E10. change (10 ^ (- (16))) with (/ 10 ^ 16).
      assert (N16 : ~ 10 ^ 16 == 0) by discriminate.
      field. repeat split; assumption. }
  pose (r := Z.rem aa bb). pose (q := Z.quot aa bb).
  assert (Hrr : (0 <= r)%Z) by (apply Z.rem_nonneg; lia).
  assert (CMP : Cmp (New (Z.abs r * 2) (kr + 16)) (Abs b) = (2 * r ?= bb)%Z).
  { rewrite Cmp_spec. rewrite <- (Qcompare_scale (2 * r) bb (10 ^ k)) by apply p10_pos.
    apply Qcompare_comp.
    - unfold toQ. simpl. rewrite Ekr.
      rewrite Z.abs_eq by assumption. rewrite Z.mul_comm. reflexivity.
    - unfold toQ, Abs. simpl. rewrite Z.abs_eq by lia. subst bb k.
      destruct (Z.ltb_spec e 0) as [Neg|Pos]; [|reflexivity].
      rewrite inject_Z_mult, <- p10_inject by lia.
      rewrite <- Qmult_assoc, <- p10_add. subst e. f_equiv. f_equiv. lia. }
  assert (MAIN : exists z,
    (let '(q0, r0) := (New q (-16), New r kr) in
     match Cmp (New (Z.abs (value r0) * 2) (exp r0 + 16)) (Abs b) with
     | Lt => Ret q0
     | _ => if (Z.sgn (value a) * 1 <? 0)%Z
            then Ret (Sub q0 (New 1 (-16))) else Ret (Add q0 (New 1 (-16)))
     end) = Ret (New z (-16)) /\
    z = (if (2 * r <? bb)%Z then q else q + 1)%Z).
  { cbn [value exp]. rewrite CMP.
    assert (Sg : (Z.sgn (value a) * 1 <? 0)%Z = false).
    { apply Z.ltb_ge. pose proof (Z.sgn_nonneg (value a)). lia. }
    rewrite Sg.
    assert (AddE : Add (New q (-16)) (New 1 (-16)) = New (q + 1) (-16)).
    { unfold Add. rewrite RescalePair_spec. simpl. unfold scaled. simpl.
      rewrite !Z.mul_1_r. reflexivity. }
    rewrite AddE.
    destruct (Z.compare_spec (2 * r) bb) as [E|L|G].
    - exists (q + 1)%Z. split; [reflexivity|].
      destruct (Z.ltb_spec (2 * r) bb); [lia|reflexivity].
    - exists q. split; [reflexivity|].
      destruct (Z.ltb_spec (2 * r) bb); [reflexivity|lia].
    - exists (q + 1)%Z. split; [reflexivity|].
      destruct (Z.ltb_spec (2 * r) bb); [lia|reflexivity]. }
  destruct MAIN as [z [Hz Ez]].
  exists z. split.
  - rewrite <- Hz. subst aa bb k kr q r.
    destruct (e <? 0)%Z; simpl; reflexivity.
  - rewrite EQ. apply half_up_bounds; assumption.
Qed.

End DecimalFacts.

(** ** The loan aggregate and the service boundary *)

Module LoanFacts.

Import businesserror decimal entity service vocabulary DecimalFacts TimeFacts.

Lemma validate_ok l :
  validate l = None ->
  ID l <> uuid_Nil /\ UserID l <> uuid_Nil /\ (0 < toQ (Amount l))%Q /\
  1 <= PaymentDurationWeeks l /\ (0 < toQ (PaymentAmount l))%Q /\
  IsValid (Status l) = true /\ CreatedAt l <> 0 /\ UpdatedAt l <> 0.
Proof.
  unfold validate.
  destruct (N.eqb_spec (ID l) uuid_Nil); [discriminate|].
  destruct (N.eqb_spec (UserID l) uuid_Nil); [discriminate|].
  destruct (LessThanOrEqual (Amount l) Zero) eqn:EA; [discriminate|].
  destruct (Z.leb_spec (PaymentDurationWeeks l) 0); [discriminate|].
  destruct (LessThanOrEqual (PaymentAmount l) Zero) eqn:EP; [discriminate|].
  destruct (IsValid (Status l)); [|discriminate]. simpl.
  unfold time.IsZero.
  destruct (Z.eqb_spec (CreatedAt l) 0); [discriminate|].
  destruct (Z.eqb_spec (UpdatedAt l) 0); [discriminate|].
  intros _. apply LessThanOrEqual_false in EA, EP. rewrite toQ_Zero in EA, EP.
  repeat split; try assumption. lia.
Qed.

(** The anchor of the week count: the start of the UTC day that lies
    [(weekday + 6) mod 7] days before the creation day. *)
Lemma beginningOfWeek_spec l :
  beginningOfWeek l =
  (time.absDays (CreatedAt l) - (time.Weekday (CreatedAt l) + 6) mod 7) * time.Day.
Proof.
  unfold beginningOfWeek.
  pose proof (Weekday_range (CreatedAt l)) as R.
  set (wd := time.Weekday (CreatedAt l)) in *.
  assert (E : (if wd - 1 <? 0 then wd - 1 + 7 else wd - 1) = (wd + 6) mod 7).
  { destruct (Z.ltb_spec (wd - 1) 0).
    - assert (wd = 0) by lia. subst wd. rewrite H0. reflexivity.
    - replace (wd + 6) with (wd - 1 + 1 * 7) by lia.
      rewrite Z.mod_add by lia. rewrite Z.mod_small; lia. }
  rewrite E. rewrite Date_civil, AddDate_days_spec, absDays_add. reflexivity.
Qed.

Lemma beginningOfWeek_monday l :
  let a := beginningOfWeek l in
  time.Weekday a = time.Monday /\ a mod time.Day = 0 /\
  a <= CreatedAt l < a + time.Week.
Proof.
  intros a. subst a. rewrite beginningOfWeek_spec.
  pose proof (Weekday_range (CreatedAt l)) as R.
  unfold time.Weekday in *.
  set (n := time.absDays (CreatedAt l)) in *.
  pose proof (Z.mod_pos_bound (n + 1 + 6) 7 ltac:(lia)) as B.
  pose proof (Z.div_mod (CreatedAt l) time.Day ltac:(discriminate)) as DM.
  pose proof (Z.mod_pos_bound (CreatedAt l) time.Day ltac:(reflexivity)) as MB.
  fold (time.absDays (CreatedAt l)) in DM. fold n in DM.
  clearbody n. clear B.
  split; [|split].
  - unfold time.absDays. rewrite Z.div_mul by discriminate. unfold time.Monday.
    Z.div_mod_to_equations. lia.
  - apply Z.mod_mul. discriminate.
  - change time.Week with (7 * time.Day). change time.Day with 86400000000000 in *.
    pose proof (Z.mod_pos_bound ((n + 1) mod 7 + 6) 7 ltac:(lia)). lia.
Qed.

Lemma Sub_inDuration t u : time.inDuration (time.Sub t u).
Proof. unfold time.inDuration, time.Sub, time.minDuration, time.maxDuration. lia. Qed.

Lemma Sub_mono t1 t2 u : t1 <= t2 -> time.Sub t1 u <= time.Sub t2 u.
Proof. unfold time.Sub. lia. Qed.

Lemma Sub_exact t u :
  time.minDuration <= t - u <= time.maxDuration -> time.Sub t u = t - u.
Proof. unfold time.Sub. lia. Qed.

Theorem currentWeek_mono l now1 now2 :
  now1 <= now2 -> currentWeek l now1 <= currentWeek l now2.
Proof.
  intros H. destruct l as [l|]; simpl; [|lia].
  apply weeksOf_mono; try apply Sub_inDuration. apply Sub_mono. assumption.
Qed.

Lemma toQ_NewFromInt32 z : (toQ (NewFromInt32 z) == inject_Z z)%Q.
Proof. unfold toQ. simpl. change (10 ^ 0)%Q with 1%Q. ring. Qed.

Lemma toQ_exp_m16 z : (toQ (decimal.New z (-16)) == inject_Z z / 10000000000000000)%Q.
Proof. unfold toQ. simpl. change (10 ^ (-16))%Q with (/ 10000000000000000)%Q. reflexivity. Qed.

Lemma weekly_spec l :
  1 <= PaymentDurationWeeks l ->
  (0 < toQ (PaymentAmount l))%Q ->
  roomy (PaymentAmount l) ->
  exists w k,
    weeklyPaymentAmount (Some l) = Ret w /\
    (toQ w == inject_Z k)%Q /\ 0 <= k /\ 0 <= value w /\ (exp w = 0 \/ exp w = -16) /\
    (inject_Z k <= toQ (PaymentAmount l) / inject_Z (PaymentDurationWeeks l) + half16)%Q /\
    (toQ (PaymentAmount l) / inject_Z (PaymentDurationWeeks l) + half16 < inject_Z k + 1)%Q.
Proof.
  intros HW HT HR. unfold roomy, MinInt32, MaxInt32 in HR.
  set (T := PaymentAmount l) in *. set (W := PaymentDurationWeeks l) in *.
  assert (Hv : 0 < value T) by (apply (toQ_sign T); assumption).
  destruct (Div_spec T (NewFromInt32 W)) as [z [HD [Hz [Lo Hi]]]].
  - lia.
  - simpl. lia.
  - simpl. unfold MinInt32, MaxInt32. lia.
  - set (q := decimal.New z (-16)) in *.
    exists (RoundDown q 0), (Qfloor (toQ q)).
    pose proof (RoundDown0_spec q Hz) as RS.
    pose proof (RoundDown0_value q Hz) as RV.
    pose proof (RoundDown0_exp q) as RE.
    pose proof (Qfloor_le (toQ q)) as FL. pose proof (Qlt_floor (toQ q)) as FU.
    assert (Eq : (toQ q == inject_Z z / 10000000000000000)%Q) by apply toQ_exp_m16.
    rewrite toQ_NewFromInt32 in Lo, Hi.
    change (10 ^ 16)%Q with 10000000000000000%Q in Lo, Hi.
    set (k := Qfloor (toQ q)) in *.
    assert (Hk : 0 <= k).
    { assert (F : (Qfloor 0 <= k)%Z).
      { apply Qfloor_resp_le. rewrite Eq. apply Qle_shift_div_l; [reflexivity|].
        rewrite Qmult_0_l. change 0%Q with (inject_Z 0). rewrite <- Zle_Qle. assumption. }
      exact F. }
    assert (Hzk : z + 1 <= (k + 1) * 10000000000000000).
    { rewrite Eq in FU.
      assert (F : (inject_Z z < inject_Z ((k + 1) * 10000000000000000))%Q).
      { rewrite inject_Z_mult. change (inject_Z 10000000000000000) with 10000000000000000%Q.
        assert (G : (inject_Z z / 10000000000000000 * 10000000000000000 == inject_Z z)%Q) by field.
        rewrite <- G. apply Qmult_lt_compat_r; [reflexivity|assumption]. }
      rewrite <- Zlt_Qlt in F. lia. }
    assert (Hzk' : (inject_Z z + 1 <= (inject_Z k + 1) * 10000000000000000)%Q).
    { rewrite Zle_Qle in Hzk. rewrite inject_Z_plus, inject_Z_mult, inject_Z_plus in Hzk.
      exact Hzk. }
    repeat split.
    + unfold weeklyPaymentAmount. fold T W. rewrite HD. reflexivity.
    + assumption.
    + assumption.
    + assumption.
    + destruct RE as [RE|RE]; [right|left]; assumption.
    + rewrite Eq in FL. unfold half16.
      set (X := (toQ T / inject_Z W)%Q) in *.
      assert (A : (inject_Z k * 10000000000000000 <= inject_Z z)%Q).
      { assert (G : (inject_Z z / 10000000000000000 * 10000000000000000 == inject_Z z)%Q) by field.
        rewrite <- G. apply Qmult_le_compat_r; [assumption|discriminate]. }
      lra.
    + unfold half16. set (X := (toQ T / inject_Z W)%Q) in *. lra.
Qed.

(** The weekly amount never pushes the obligation of an unfinished
    term above the total. *)
Lemma weekly_below_total (T : Q) (W k week : Z) :
  1 <= W <= MaxInt32 -> 0 <= k -> week < W ->
  (inject_Z k <= T / inject_Z W + half16)%Q -> (0 < T)%Q ->
  (inject_Z (k * week) <= T)%Q.
Proof.
  intros HW Hk Hweek Hb HT. unfold MaxInt32 in HW.
  assert (PW : (0 < inject_Z W)%Q) by (apply injZ_pos; lia).
  assert (A : (inject_Z k * inject_Z W <= T + half16 * inject_Z W)%Q).
  { assert (E : ((T / inject_Z W + half16) * inject_Z W == T + half16 * inject_Z W)%Q).
    { field. lra. }
    rewrite <- E. apply Qmult_le_compat_r; [assumption|lra]. }
  assert (B : (half16 * inject_Z W <= 1)%Q).
  { unfold half16. assert (inject_Z W <= inject_Z 2147483647)%Q by (rewrite <- Zle_Qle; lia).
    change (inject_Z 2147483647) with 2147483647%Q in H. lra. }
  destruct (Z.eq_dec k 0) as [->|NZ].
  - rewrite Z.mul_0_l. change (inject_Z 0) with 0%Q. lra.
  - assert (C : k * week <= k * W - k) by nia.
    rewrite Zle_Qle in C. unfold Z.sub in C.
    rewrite inject_Z_plus, inject_Z_opp, !inject_Z_mult in C. rewrite inject_Z_mult.
    assert (D : (1 <= inject_Z k)%Q) by (change 1%Q with (inject_Z 1); rewrite <- Zle_Qle; lia).
    set (kw := (inject_Z k * inject_Z W)%Q) in *.
    set (hw := (half16 * inject_Z W)%Q) in *.
    set (kk := (inject_Z k * inject_Z week)%Q) in *. lra.
Qed.

Lemma billQ_nonneg ob paid : (0 <= billQ ob paid)%Q.
Proof.
  unfold billQ. destruct (Qle_bool paid ob) eqn:E; [|lra].
  apply Qle_bool_iff in E. lra.
Qed.

Lemma billQ_mono ob1 ob2 paid : (ob1 <= ob2)%Q -> (billQ ob1 paid <= billQ ob2 paid)%Q.
Proof.
  intros H. unfold billQ.
  destruct (Qle_bool paid ob1) eqn:E1; destruct (Qle_bool paid ob2) eqn:E2.
  - lra.
  - apply Qle_bool_iff in E1.
    assert (~ (paid <= ob2)%Q) by (intros F; apply Qle_bool_iff in F; congruence). lra.
  - apply Qle_bool_iff in E2. lra.
  - lra.
Qed.

Lemma bill_value po paid :
  (toQ (if IsNegative (Sub po paid) then Zero else Sub po paid)
     == billQ (toQ po) (toQ paid))%Q /\
  0 <= value (if IsNegative (Sub po paid) then Zero else Sub po paid) /\
  (exp (if IsNegative (Sub po paid) then Zero else Sub po paid) = 1 \/
   exp (if IsNegative (Sub po paid) then Zero else Sub po paid) = Z.min (exp po) (exp paid)).
Proof.
  set (billAmount := Sub po paid). unfold billQ.
  pose proof (toQ_Sub po paid) as ES. fold billAmount in ES.
  destruct (IsNegative billAmount) eqn:N.
  - apply IsNegative_spec in N. split; [|split].
    + destruct (Qle_bool (toQ paid) (toQ po)) eqn:E; [|reflexivity].
      apply Qle_bool_iff in E. rewrite toQ_Zero. lra.
    + simpl. lia.
    + left. reflexivity.
  - apply IsNegative_false in N. split; [|split].
    + destruct (Qle_bool (toQ paid) (toQ po)) eqn:E; [assumption|].
      assert (~ (toQ paid <= toQ po)%Q) by (intros F; apply Qle_bool_iff in F; congruence). lra.
    + destruct (toQ_sign billAmount) as [_ [Hn _]].
      destruct (Z_lt_le_dec (value billAmount) 0) as [L|G]; [|assumption].
      apply Hn in L. lra.
    + right. subst billAmount. unfold Sub. rewrite RescalePair_spec. reflexivity.
Qed.

(** [CurrentBillAmount] of a loan whose weekly amount is computable. *)
Lemma CurrentBillAmount_spec l now paid :
  1 <= PaymentDurationWeeks l ->
  (0 < toQ (PaymentAmount l))%Q ->
  roomy (PaymentAmount l) ->
  exists w k b,
    weeklyPaymentAmount (Some l) = Ret w /\
    (toQ w == inject_Z k)%Q /\ 0 <= k /\ 0 <= value w /\ (exp w = 0 \/ exp w = -16) /\
    (inject_Z k <= toQ (PaymentAmount l) / inject_Z (PaymentDurationWeeks l) + half16)%Q /\
    (toQ (PaymentAmount l) / inject_Z (PaymentDurationWeeks l) + half16 < inject_Z k + 1)%Q /\
    CurrentBillAmount (Some l) now paid = Ret b /\
    (toQ b == billQ (obligationQ (toQ (PaymentAmount l)) (PaymentDurationWeeks l) k
                                 (currentWeek (Some l) now)) (toQ paid))%Q /\
    0 <= value b /\
    (exp b = 1 \/ exp b = Z.min (exp w) (exp paid) \/
     exp b = Z.min (exp (PaymentAmount l)) (exp paid)).
Proof.
  intros HW HT HR.
  destruct (weekly_spec l HW HT HR) as [w [k [Ew [Ek [Hk [Hv [He [Lo Hi]]]]]]]].
  unfold CurrentBillAmount, obligationQ.
  set (week := currentWeek (Some l) now).
  destruct (Z.ltb_spec week (PaymentDurationWeeks l)) as [In|Out].
  - assert (M : Mul w (NewFromInt32 week) = Ret (decimal.New (value w * week) (exp w + 0))).
    { apply (Mul_returns w (NewFromInt32 week)). simpl. unfold MinInt32, MaxInt32. lia. }
    rewrite Ew. simpl bind. rewrite M. simpl bind.
    set (po := decimal.New (value w * week) (exp w + 0)).
    destruct (bill_value po paid) as [B1 [B2 B3]].
    exists w, k, (if IsNegative (Sub po paid) then Zero else Sub po paid).
    split; [reflexivity|].
    repeat (split; [assumption|]). split; [reflexivity|]. split; [|split; [assumption|]].
    + rewrite B1.
      assert (Epo : (toQ po == inject_Z (k * week))%Q).
      { apply Qeq_trans with (toQ w * toQ (NewFromInt32 week))%Q;
          [exact (Mul_spec _ _ _ M)|].
        rewrite Ek, toQ_NewFromInt32, inject_Z_mult. reflexivity. }
      unfold billQ. rewrite (Qleb_comp _ _ (Qeq_refl (toQ paid)) _ _ Epo).
      destruct (Qle_bool (toQ paid) (inject_Z (k * week))); [rewrite Epo|]; reflexivity.
    + destruct B3 as [B3|B3]; [left; assumption|right; left].
      rewrite B3. unfold po. simpl. rewrite Z.add_0_r. reflexivity.
  - simpl bind.
    destruct (bill_value (PaymentAmount l) paid) as [B1 [B2 B3]].
    exists w, k, (if IsNegative (Sub (PaymentAmount l) paid) then Zero
                  else Sub (PaymentAmount l) paid).
    repeat (split; [assumption|]). split; [reflexivity|]. split; [assumption|].
    split; [assumption|]. destruct B3 as [B3|B3]; [left|right; right]; assumption.
Qed.

Lemma obligationQ_le_total (T : Q) (W k week : Z) :
  1 <= W <= MaxInt32 -> 0 <= k ->
  (inject_Z k <= T / inject_Z W + half16)%Q -> (0 < T)%Q ->
  (obligationQ T W k week <= T)%Q.
Proof.
  intros HW Hk Hb HT. unfold obligationQ.
  destruct (Z.ltb_spec week W); [|lra].
  apply (weekly_below_total T W k week); assumption.
Qed.

Lemma obligationQ_mono (T : Q) (W k w1 w2 : Z) :
  1 <= W <= MaxInt32 -> 0 <= k ->
  (inject_Z k <= T / inject_Z W + half16)%Q -> (0 < T)%Q ->
  w1 <= w2 ->
  (obligationQ T W k w1 <= obligationQ T W k w2)%Q.
Proof.
  intros HW Hk Hb HT H12.
  pose proof (obligationQ_le_total T W k w1 HW Hk Hb HT) as L1.
  unfold obligationQ in *.
  destruct (Z.ltb_spec w1 W); destruct (Z.ltb_spec w2 W); try lra; try lia.
  rewrite <- Zle_Qle. nia.
Qed.

Lemma billQ_comp ob1 ob2 p : (ob1 == ob2)%Q -> (billQ ob1 p == billQ ob2 p)%Q.
Proof.
  intros E. unfold billQ. rewrite (Qleb_comp _ _ (Qeq_refl p) _ _ E).
  destruct (Qle_bool p ob2); [rewrite E|]; reflexivity.
Qed.

(** The week count reaches the duration once that many weeks have
    passed since the anchor (durations beyond the int64 nanosecond
    range, 15250 weeks, are never reached). *)
Lemma currentWeek_reaches l now :
  0 <= PaymentDurationWeeks l <= 15250 ->
  beginningOfWeek l + PaymentDurationWeeks l * time.Week <= now ->
  PaymentDurationWeeks l <= currentWeek (Some l) now.
Proof.
  intros HW Hn. simpl.
  assert (I : time.inDuration (PaymentDurationWeeks l * time.Week)).
  { unfold time.inDuration, time.minDuration, time.maxDuration.
    change time.Week with 604800000000000.
    change (2 ^ 63) with 9223372036854775808. lia. }
  rewrite <- (weeksOf_whole _ I) at 1.
  apply weeksOf_mono; [assumption|apply Sub_inDuration|].
  unfold time.Sub. destruct I as [I1 I2]. lia.
Qed.

(** C3.  The bill of a validated loan, for a fixed paid amount, is
    returned at every time, is never negative, does not decrease when [now]
    increases, and never exceeds [max (total - paid) 0]; it equals that value
    once [currentWeek] has reached the loan's duration, which for a duration
    of at most 15250 weeks is from the end of the term on.  The bill of the
    absent loan is [Zero] at every time and for every paid amount. *)
Theorem CurrentBillAmount_monotone (l : Loan) (paid : Decimal) (now1 now2 : time.Time) :
  validate l = None ->
  int32 (PaymentDurationWeeks l) ->
  roomy (PaymentAmount l) ->
  now1 <= now2 ->
  exists b1 b2,
    CurrentBillAmount (Some l) now1 paid = Ret b1 /\
    CurrentBillAmount (Some l) now2 paid = Ret b2 /\
    (0 <= toQ b1)%Q /\ (toQ b1 <= toQ b2)%Q /\
    (toQ b2 <= billQ (toQ (PaymentAmount l)) (toQ paid))%Q /\
    (PaymentDurationWeeks l <= currentWeek (Some l) now2 ->
     (toQ b2 == billQ (toQ (PaymentAmount l)) (toQ paid))%Q) /\
    (PaymentDurationWeeks l <= 15250 ->
     beginningOfWeek l + PaymentDurationWeeks l * time.Week <= now2 ->
     (toQ b2 == billQ (toQ (PaymentAmount l)) (toQ paid))%Q) /\
    (forall now paid', CurrentBillAmount None now paid' = Ret Zero).
Proof.
  intros Hval [_ HW32] HR Hnow.
  destruct (validate_ok l Hval) as [_ [_ [_ [HW [HT _]]]]].
  destruct (CurrentBillAmount_spec l now1 paid HW HT HR)
    as [w [k [b1 [Ew [Ek [Hk [_ [_ [Lo [_ [E1 [V1 _]]]]]]]]]]]].
  destruct (CurrentBillAmount_spec l now2 paid HW HT HR)
    as [w' [k' [b2 [Ew' [Ek' [_ [_ [_ [_ [_ [E2 [V2 _]]]]]]]]]]]].
  rewrite Ew in Ew'. injection Ew' as <-.
  assert (k' = k).
  { rewrite Ek in Ek'. apply (proj1 (inject_Z_injective _ _)) in Ek'. congruence. }
  subst k'.
  set (T := toQ (PaymentAmount l)) in *. set (W := PaymentDurationWeeks l) in *.
  assert (HWr : 1 <= W <= MaxInt32) by lia.
  pose proof (currentWeek_mono (Some l) now1 now2 Hnow) as Hweek.
  exists b1, b2. split; [assumption|]. split; [assumption|].
  assert (Sat : W <= currentWeek (Some l) now2 -> (toQ b2 == billQ T (toQ paid))%Q).
  { intros Hs. rewrite V2. apply billQ_comp. unfold obligationQ.
    destruct (Z.ltb_spec (currentWeek (Some l) now2) W); [lia|reflexivity]. }
  split; [rewrite V1; apply billQ_nonneg|].
  split; [rewrite V1, V2; apply billQ_mono, obligationQ_mono; assumption|].
  split; [rewrite V2; apply billQ_mono, obligationQ_le_total; assumption|].
  split; [exact Sat|].
  split; [|reflexivity].
  intros Hd Ha. apply Sat. apply currentWeek_reaches; [fold W; lia|assumption].
Qed.

Lemma toQ_interestRate : (toQ interestRate == 1 # 10)%Q.
Proof. reflexivity. Qed.

(** A loan that [CreateLoan] returns was created from a user id other
    than [uuid_Nil], a positive principal and a duration of at least one
    week; it is [LoanStatusOngoing], keeps the principal and the duration, and
    its total is the principal plus the ceiling of a tenth of the principal,
    which is strictly more than the principal. *)
Lemma CreateLoan_returned (newV7 : NewV7) (clock : time.Time) (userID : UUID)
    (amount : Decimal) (paymentDurationWeeks : Z) (loan : Loan) :
  CreateLoan newV7 clock userID amount paymentDurationWeeks = Ret (Ok loan) ->
  (userID <> uuid_Nil /\ (0 < toQ amount)%Q /\ 1 <= paymentDurationWeeks) /\
  Amount loan = amount /\ PaymentDurationWeeks loan = paymentDurationWeeks /\
  Status loan = LoanStatusOngoing /\
  (toQ (PaymentAmount loan) ==
     toQ amount + inject_Z (Qceiling (toQ amount * (1 # 10))))%Q /\
  (toQ amount < toQ (PaymentAmount loan))%Q.
Proof.
  unfold CreateLoan. destruct newV7 as [loanID|text]; [|discriminate].
  destruct (Mul amount interestRate) as [interest|] eqn:EM; [|discriminate].
  simpl bind. set (l := mkLoan _ _ _ _ _ _ _ _).
  destruct (validate l) eqn:EV; [discriminate|].
  intros H. injection H as <-.
  destruct (validate_ok l EV) as [_ [HU [HA [HW _]]]]. simpl in HU, HA, HW.
  pose proof (Mul_spec _ _ _ EM) as EI. rewrite toQ_interestRate in EI.
  assert (Hvi : 0 < value interest).
  { apply (toQ_sign interest). rewrite EI. lra. }
  pose proof (RoundUp0_spec interest Hvi) as ER.
  rewrite (Qceiling_comp _ _ EI) in ER.
  assert (ET : (toQ (PaymentAmount l) ==
                toQ amount + inject_Z (Qceiling (toQ amount * (1 # 10))))%Q).
  { simpl. rewrite toQ_Add, ER. reflexivity. }
  split; [repeat split; assumption|]. repeat split; try reflexivity; try assumption.
  rewrite ET.
  pose proof (Qle_ceiling (toQ amount * (1 # 10))) as C. lra.
Qed.

(** Every input that passes the checks is accepted. *)
Lemma CreateLoan_accepts (loanID : UUID) (clock : time.Time) (userID : UUID)
    (amount : Decimal) (paymentDurationWeeks : Z) :
  loanID <> uuid_Nil -> clock <> 0 -> userID <> uuid_Nil ->
  (0 < toQ amount)%Q -> 1 <= paymentDurationWeeks -> MinInt32 < exp amount <= MaxInt32 ->
  exists loan, CreateLoan (V7 loanID) clock userID amount paymentDurationWeeks = Ret (Ok loan).
Proof.
  intros HI HC HU HA HW HE. unfold CreateLoan.
  rewrite (Mul_returns amount interestRate) by (simpl; unfold MinInt32, MaxInt32 in *; lia).
  simpl bind. set (interest := decimal.New _ _). set (l := mkLoan _ _ _ _ _ _ _ _).
  assert (Hvi : 0 < value interest).
  { simpl. rewrite Z.mul_1_r. apply (toQ_sign amount). assumption. }
  pose proof (RoundUp0_spec interest Hvi) as ER.
  pose proof (Qle_ceiling (toQ interest)) as C.
  assert (Pi : (0 < toQ interest)%Q) by (apply (toQ_sign interest); assumption).
  assert (EV : validate l = None).
  { unfold validate. simpl.
    destruct (N.eqb_spec loanID uuid_Nil); [contradiction|].
    destruct (N.eqb_spec userID uuid_Nil); [contradiction|].
    assert (E1 : LessThanOrEqual amount Zero = false).
    { apply LessThanOrEqual_false. rewrite toQ_Zero. assumption. }
    rewrite E1. destruct (Z.leb_spec paymentDurationWeeks 0); [lia|].
    assert (E2 : LessThanOrEqual (Add amount (RoundUp interest 0)) Zero = false).
    { apply LessThanOrEqual_false. rewrite toQ_Zero, toQ_Add, ER. lra. }
    rewrite E2. unfold time.IsZero.
    destruct (Z.eqb_spec clock 0); [contradiction|]. reflexivity. }
  rewrite EV. eexists. reflexivity.
Qed.

(** C4.  [CreateLoan] accepts every input with a user id other than
    [uuid_Nil], a positive principal and a duration of at least one week,
    once an id is drawn for the loan, the clock does not read the zero time
    and the exponent of the principal leaves room for the interest.  The
    loan it returns is [LoanStatusOngoing], keeps the principal and the
    duration, and its total is the principal plus the ceiling of a tenth of
    the principal, which is strictly more than the principal.  Every loan
    that [CreateLoan] returns, from whatever input, was created from such a
    user id, principal and duration and has that total. *)
Theorem CreateLoan_total (clock : time.Time) (userID : UUID) (amount : Decimal)
    (paymentDurationWeeks : Z) :
  (forall loanID,
     loanID <> uuid_Nil -> clock <> 0 -> userID <> uuid_Nil ->
     (0 < toQ amount)%Q -> 1 <= paymentDurationWeeks -> MinInt32 < exp amount <= MaxInt32 ->
     exists loan,
       CreateLoan (V7 loanID) clock userID amount paymentDurationWeeks = Ret (Ok loan) /\
       Amount loan = amount /\ PaymentDurationWeeks loan = paymentDurationWeeks /\
       Status loan = LoanStatusOngoing /\
       (toQ (PaymentAmount loan) ==
          toQ amount + inject_Z (Qceiling (toQ amount * (1 # 10))))%Q /\
       (toQ amount < toQ (PaymentAmount loan))%Q) /\
  (forall newV7 loan,
     CreateLoan newV7 clock userID amount paymentDurationWeeks = Ret (Ok loan) ->
     (userID <> uuid_Nil /\ (0 < toQ amount)%Q /\ 1 <= paymentDurationWeeks) /\
     Amount loan = amount /\ PaymentDurationWeeks loan = paymentDurationWeeks /\
     Status loan = LoanStatusOngoing /\
     (toQ (PaymentAmount loan) ==
        toQ amount + inject_Z (Qceiling (toQ amount * (1 # 10))))%Q /\
     (toQ amount < toQ (PaymentAmount loan))%Q).
Proof.
  split.
  - intros loanID HI HC HU HA HW HE.
    destruct (CreateLoan_accepts loanID clock userID amount paymentDurationWeeks
                HI HC HU HA HW HE) as [loan E].
    exists loan. split; [exact E|].
    destruct (CreateLoan_returned _ _ _ _ _ _ E) as [_ R]. exact R.
  - intros newV7 loan E. exact (CreateLoan_returned _ _ _ _ _ _ E).
Qed.

(** C8.  [ValidateLatestLoan] fails with [ErrLoanStillHasOngoingLoan]
    exactly when both loans are present, belong to the same user, and the
    latest one is [LoanStatusOngoing]; it has no other failure, and it
    succeeds on every absent latest loan. *)
Theorem ValidateLatestLoan_spec (l latestLoan : option Loan) :
  (ValidateLatestLoan l latestLoan = Some ErrLoanStillHasOngoingLoan <->
   exists new latest, l = Some new /\ latestLoan = Some latest /\
     UserID new = UserID latest /\ Status latest = LoanStatusOngoing) /\
  (ValidateLatestLoan l latestLoan = Some ErrLoanStillHasOngoingLoan \/
   ValidateLatestLoan l latestLoan = None) /\
  ValidateLatestLoan l None = None /\
  kind ErrLoanStillHasOngoingLoan = KindUnprocessableEntity.
Proof.
  split; [|split; [|split]].
  - destruct l as [new|], latestLoan as [latest|]; simpl.
    + destruct (N.eqb_spec (UserID new) (UserID latest)) as [EU|NU];
      destruct (Z.eqb_spec (Status latest) LoanStatusOngoing) as [ES|NS]; simpl; split;
      try discriminate; try (intros [n [la [H1 [H2 [H3 H4]]]]]; injection H1 as <-;
                             injection H2 as <-; congruence).
      intros _. exists new, latest. repeat split; assumption.
    + split; [discriminate|]. intros [n [la [_ [H _]]]]. discriminate.
    + split; [discriminate|]. intros [n [la [H _]]]. discriminate.
    + split; [discriminate|]. intros [n [la [H _]]]. discriminate.
  - destruct l as [new|], latestLoan as [latest|]; simpl; try (right; reflexivity).
    destruct (_ && _); [left|right]; reflexivity.
  - destruct l; reflexivity.
  - reflexivity.
Qed.

(** *** Error normalisation *)

(** C9, an error that carries a kind and is not passed through unchanged.
    [combinedFailure] is what the repository's [MakePayment] returns when the
    entity rejects the payment and the rollback fails too: the two errors
    combined.  [errors_As] finds the business error inside it, and
    [ensureBusinessError] returns that business error alone: neither the
    combined error itself nor [UnexpectedError]. *)
Lemma ensureBusinessError_combined :
  errors_As combinedFailure = Some ErrLoanNotExactPaymentAmount /\
  ensureBusinessError (Some combinedFailure) <> Some combinedFailure /\
  ensureBusinessError (Some combinedFailure) <> Some (EBusiness UnexpectedError) /\
  ensureBusinessError (Some combinedFailure) = Some (EBusiness ErrLoanNotExactPaymentAmount).
Proof. repeat split; discriminate. Qed.

(** C9.  [ensureBusinessError] keeps the absent error absent and turns
    every other error into a business error: a business error itself is
    returned as it is, an error that wraps or combines business errors is
    replaced by the first of them that [errors_As] finds, and every other
    error by [UnexpectedError], whose kind is [KindInternal].  Applying it
    twice is the same as applying it once. *)
Theorem ensureBusinessError_spec (err : option error) :
  (err = None -> ensureBusinessError err = None) /\
  (forall e, err = Some e ->
     exists b, ensureBusinessError err = Some (EBusiness b) /\
       (forall b', e = EBusiness b' -> b = b') /\
       (forall b', errors_As e = Some b' -> b = b') /\
       (errors_As e = None -> b = UnexpectedError)) /\
  kind UnexpectedError = KindInternal /\
  ensureBusinessError (ensureBusinessError err) = ensureBusinessError err.
Proof.
  split; [intros ->; reflexivity|]. split; [|split; [reflexivity|]].
  - intros e ->. unfold ensureBusinessError.
    destruct (errors_As e) as [b|] eqn:EA.
    + exists b. split; [reflexivity|]. split; [|split].
      * intros b' ->. simpl in EA. congruence.
      * intros b' H. congruence.
      * discriminate.
    + exists UnexpectedError. split; [reflexivity|]. split; [|split].
      * intros b' ->. discriminate.
      * discriminate.
      * reflexivity.
  - destruct err as [e|]; [|reflexivity]. simpl.
    destruct (errors_As e); reflexivity.
Qed.

(** *** Loans whose weekly amount is zero *)

(** C10, a validated loan on which [IsDelinquent] panics.  [CreateLoan]
    accepts principal 1 over 50 weeks; the total is 2, so the weekly amount
    is [RoundDown (2 / 50) = 0].  With nothing paid, eight days after the
    creation, [IsDelinquent] divides the bill by that zero and [Div]
    panics. *)
Theorem IsDelinquent_divides_by_zero :
  CreateLoan (V7 7%N) aMonday 9%N (NewFromInt 1) 50 = Ret (Ok smallLoan) /\
  validate smallLoan = None /\
  Equal (PaymentAmount smallLoan) Zero = false /\
  weeklyPaymentAmount (Some smallLoan) = Ret (decimal.New 0 0) /\
  (forall bill, Div bill (decimal.New 0 0) = Panic) /\
  IsDelinquent (Some smallLoan) (time.Date 2023 5 9 0 0 0 0) Zero = Panic.
Proof.
  repeat split; try reflexivity.
Qed.

(** *** A total with seventeen decimal places *)

(** C5, a loan whose weekly amount exceeds its total.  [CreateLoan] with
    principal 9.99999999999999999 and one week gives the total
    10.99999999999999999; [Div] rounds the quotient to sixteen places, which
    gives 11, before [RoundDown] is applied.  The weekly amount is 11, while
    the floor of total / weeks is 10 and the total is below 11. *)
Theorem weeklyPaymentAmount_rounds_up :
  CreateLoan (V7 7%N) aMonday 9%N (decimal.New 999999999999999999 (-17)) 1
    = Ret (Ok preciseLoan) /\
  weeklyPaymentAmount (Some preciseLoan) = Ret (decimal.New 110000000000000000 (-16)) /\
  (toQ (decimal.New 110000000000000000 (-16)) == 11)%Q /\
  Qfloor (toQ (PaymentAmount preciseLoan) / inject_Z (PaymentDurationWeeks preciseLoan)) = 10 /\
  (toQ (PaymentAmount preciseLoan) < 11)%Q.
Proof.
  repeat split.
Qed.

Lemma validatePayment_kind lp e : validatePayment lp = Some e -> kind e = KindBadRequest.
Proof.
  unfold validatePayment.
  repeat match goal with
  | |- context [if ?c then _ else _] => destruct c
  end; intros H; try discriminate; injection H as <-; reflexivity.
Qed.

Lemma CreateLoanPayment_err newV7 clock loanID amount e :
  CreateLoanPayment newV7 clock loanID amount = Err e ->
  e <> EBusiness ErrLoanCurrentWeekAlreadyPaid /\
  e <> EBusiness ErrLoanNotExactPaymentAmount /\
  e <> EBusiness ErrLoanNotFound.
Proof.
  unfold CreateLoanPayment. destruct newV7 as [id|text].
  - destruct (validatePayment _) as [b|] eqn:V; [|discriminate].
    intros H. injection H as <-. apply validatePayment_kind in V.
    repeat split; intros F; injection F as ->; discriminate.
  - intros H. injection H as <-. repeat split; discriminate.
Qed.

Lemma CreateLoanPayment_ok newV7 clock loanID amount lp :
  CreateLoanPayment newV7 clock loanID amount = Ok lp ->
  lpLoanID lp = loanID /\ lpAmount lp = amount /\ lpCreatedAt lp = clock /\
  lpUpdatedAt lp = clock /\ validatePayment lp = None.
Proof.
  unfold CreateLoanPayment. destruct newV7 as [id|text]; [|discriminate].
  destruct (validatePayment _) eqn:V; [discriminate|].
  intros H. injection H as <-. repeat split; assumption.
Qed.

(** The bill is never negative, whatever the loan. *)
Lemma CurrentBillAmount_nonneg l now paid bill :
  CurrentBillAmount l now paid = Ret bill -> (0 <= toQ bill)%Q.
Proof.
  unfold CurrentBillAmount. destruct l as [l|].
  - match goal with |- bind ?m _ = _ -> _ => destruct m as [po|] end; simpl; [|discriminate].
    intros H. injection H as <-.
    destruct (bill_value po paid) as [B1 _]. rewrite B1. apply billQ_nonneg.
  - intros H. injection H as <-. rewrite toQ_Zero. lra.
Qed.

(** C1.  The failures of [MakePayment].  On the absent loan it fails with
    [ErrLoanNotFound].  On a present loan whose bill [CurrentBillAmount]
    returns, it returns a result whose error is
    [ErrLoanCurrentWeekAlreadyPaid] exactly when the bill is zero and, for a
    non-zero bill, is [ErrLoanNotExactPaymentAmount] exactly when the payment
    differs from the bill; it is never [ErrLoanNotFound].  Every failure
    carries no payment record and no update flag, and the loan is the one
    passed in.  When the computation of the bill panics, so does
    [MakePayment]. *)
Theorem MakePayment_failures (newV7 : NewV7) (clock clock2 : time.Time)
    (l : option Loan) (now : time.Time) (paidAmount paymentAmount : Decimal) :
  match l with
  | None =>
    MakePayment newV7 clock clock2 None now paidAmount paymentAmount =
    Ret (mkPaymentResult None None false (Some (EBusiness ErrLoanNotFound)))
  | Some l' =>
    match CurrentBillAmount (Some l') now paidAmount with
    | Panic => MakePayment newV7 clock clock2 (Some l') now paidAmount paymentAmount = Panic
    | Ret bill =>
      exists r,
        MakePayment newV7 clock clock2 (Some l') now paidAmount paymentAmount = Ret r /\
        (err r = Some (EBusiness ErrLoanCurrentWeekAlreadyPaid) <-> (toQ bill == 0)%Q) /\
        (~ (toQ bill == 0)%Q ->
         (err r = Some (EBusiness ErrLoanNotExactPaymentAmount) <->
          ~ (toQ paymentAmount == toQ bill)%Q)) /\
        err r <> Some (EBusiness ErrLoanNotFound) /\
        (err r <> None ->
         loanPayment r = None /\ shouldUpdateLoan r = false /\ loanAfter r = Some l')
    end
  end.
Proof.
  destruct l as [l'|]; [|reflexivity].
  unfold MakePayment.
  destruct (CurrentBillAmount (Some l') now paidAmount) as [bill|]; [|reflexivity].
  simpl bind.
  destruct (decimal.IsZero bill) eqn:Z0.
  - apply IsZero_spec in Z0. eexists. split; [reflexivity|]. simpl.
    split; [tauto|]. split; [tauto|]. split; [discriminate|]. intros _. repeat split.
  - assert (NZ : ~ (toQ bill == 0)%Q).
    { intros F. apply IsZero_spec in F. congruence. }
    destruct (Equal bill paymentAmount) eqn:EQ; simpl negb; cbv iota.
    + apply Equal_spec in EQ.
      destruct (CreateLoanPayment newV7 clock (ID l') paymentAmount) as [lp|e] eqn:CP.
      * destruct (Equal (Add paidAmount paymentAmount) (PaymentAmount l'));
        (eexists; split; [reflexivity|]; simpl;
         split; [split; [discriminate|tauto]|];
         split; [intros _; split; [discriminate|intros F; exfalso; apply F; symmetry; assumption]|];
         split; [discriminate|]; intros F; exfalso; apply F; reflexivity).
      * destruct (CreateLoanPayment_err _ _ _ _ _ CP) as [N1 [N2 N3]].
        eexists. split; [reflexivity|]. simpl.
        split; [split; [intros F; injection F as ->; exfalso; apply N1; reflexivity|tauto]|].
        split; [intros _; split;
                  [intros F; injection F as ->; exfalso; apply N2; reflexivity
                  |intros F; exfalso; apply F; symmetry; assumption]|].
        split; [intros F; injection F as ->; apply N3; reflexivity|].
        intros _. repeat split.
    + apply Equal_false in EQ.
      eexists. split; [reflexivity|]. simpl.
      split; [split; [discriminate|tauto]|].
      split; [intros _; split; [intros _ F; apply EQ; symmetry; assumption|reflexivity]|].
      split; [discriminate|]. intros _. repeat split.
Qed.

Lemma MakePayment_success newV7 clock clock2 l now paid pay r :
  MakePayment newV7 clock clock2 (Some l) now paid pay = Ret r ->
  err r = None ->
  exists lp, loanPayment r = Some lp /\ lpAmount lp = pay /\ lpLoanID lp = ID l /\
    (0 < toQ pay)%Q /\
    ((toQ paid + toQ pay == toQ (PaymentAmount l))%Q ->
     loanAfter r = Some (markedPaid l clock2) /\ shouldUpdateLoan r = true) /\
    (~ (toQ paid + toQ pay == toQ (PaymentAmount l))%Q ->
     loanAfter r = Some l /\ shouldUpdateLoan r = false).
Proof.
  unfold MakePayment.
  destruct (CurrentBillAmount (Some l) now paid) as [bill|] eqn:EB; [|discriminate].
  simpl bind. pose proof (CurrentBillAmount_nonneg _ _ _ _ EB) as NN.
  destruct (decimal.IsZero bill) eqn:Z0.
  { intros H. injection H as <-. discriminate. }
  assert (NZ : ~ (toQ bill == 0)%Q) by (intros F; apply IsZero_spec in F; congruence).
  destruct (Equal bill pay) eqn:EQ; simpl negb; cbv iota.
  2:{ intros H. injection H as <-. discriminate. }
  apply Equal_spec in EQ.
  destruct (CreateLoanPayment newV7 clock (ID l) pay) as [lp|e] eqn:CP.
  2:{ intros H. injection H as <-. discriminate. }
  destruct (CreateLoanPayment_ok _ _ _ _ _ CP) as [L1 [L2 _]].
  assert (Ppos : (0 < toQ pay)%Q) by lra.
  destruct (Equal (Add paid pay) (PaymentAmount l)) eqn:EC.
  - apply Equal_spec in EC. rewrite toQ_Add in EC.
    intros H _. injection H as <-. simpl. exists lp.
    repeat split; try assumption; try reflexivity; try contradiction.
  - apply Equal_false in EC. rewrite toQ_Add in EC.
    intros H _. injection H as <-. simpl. exists lp.
    repeat split; try assumption; try reflexivity; try contradiction.
Qed.

Lemma paymentRun_inv l paid tr lEnd paidEnd :
  paymentRun l paid tr lEnd paidEnd ->
  (Status l = LoanStatusOngoing \/
   (Status l = LoanStatusPaid /\ (toQ (PaymentAmount l) <= toQ paid)%Q)) ->
  (forall s, In s tr -> (flipsToPaid s = true <-> completes (PaymentAmount l) s)) /\
  PaymentAmount lEnd = PaymentAmount l /\
  (Status l = LoanStatusPaid -> flips tr = 0%nat /\ Status lEnd = LoanStatusPaid) /\
  (Status l = LoanStatusOngoing ->
   (flips tr <= 1)%nat /\ (flips tr = 1%nat <-> Status lEnd = LoanStatusPaid)).
Proof.
  induction 1 as [l paid|l paid newV7 clock clock2 now amt r l' lp rest lEnd paidEnd HM HE HL HP HR IH];
    intros Inv.
  - split; [intros s []|]. split; [reflexivity|]. split.
    + intros HS. split; [reflexivity|assumption].
    + intros HS. split; [unfold flips; simpl; lia|].
      unfold flips. simpl. split; [discriminate|]. intros F. rewrite HS in F. discriminate.
  - destruct (MakePayment_success _ _ _ _ _ _ _ _ HM HE) as [lp' [E1 [E2 [_ [Ppos [HC HN]]]]]].
    rewrite HP in E1. injection E1 as <-. rewrite E2 in *.
    destruct (Qeq_dec (toQ paid + toQ amt) (toQ (PaymentAmount l))) as [C|NC].
    + (* the completing payment *)
      destruct (HC C) as [LA _]. rewrite HL in LA. injection LA as ->.
      destruct Inv as [On|[Pd Over]]; [|exfalso; lra].
      destruct IH as [IH1 [IH2 [IH3 _]]].
      { right. split; [reflexivity|]. simpl. rewrite toQ_Add. lra. }
      destruct (IH3 eq_refl) as [F0 SE].
      assert (FS : flipsToPaid (mkStep l paid amt (markedPaid l clock2)) = true).
      { unfold flipsToPaid. simpl. rewrite On. reflexivity. }
      split; [|split; [exact IH2|split]].
      * intros s [<-|Hin]; [split; [intros _; exact C|intros _; exact FS]|].
        apply IH1. assumption.
      * intros F. rewrite On in F. discriminate.
      * intros _. unfold flips in *. simpl filter. rewrite FS. simpl List.length. rewrite F0.
        split; [lia|]. split; [intros _; assumption|reflexivity].
    + (* any other payment leaves the loan as it is *)
      destruct (HN NC) as [LA _]. rewrite HL in LA. injection LA as ->.
      assert (FS : flipsToPaid (mkStep l paid amt l) = false).
      { unfold flipsToPaid. simpl.
        destruct (Z.eqb_spec (Status l) LoanStatusOngoing) as [E|E]; [|reflexivity].
        rewrite E. reflexivity. }
      destruct IH as [IH1 [IH2 [IH3 IH4]]].
      { destruct Inv as [On|[Pd Over]]; [left; assumption|right].
        split; [assumption|]. rewrite toQ_Add. lra. }
      split; [|split; [exact IH2|split]].
      * intros s [<-|Hin]; [|apply IH1; assumption].
        split; [rewrite FS; discriminate|intros F; contradiction].
      * intros Pd. unfold flips in *. simpl filter. rewrite FS. apply IH3. assumption.
      * intros On. unfold flips in *. simpl filter. rewrite FS. apply IH4. assumption.
Qed.

(** A payment of the bill, when the bill is not zero, goes through once
    an id is drawn for it, the loan has an id and the clock does not read
    the zero time. *)
Lemma MakePayment_goes_through paymentID clock clock2 l now paid pay bill :
  CurrentBillAmount (Some l) now paid = Ret bill ->
  ~ (toQ bill == 0)%Q -> (toQ pay == toQ bill)%Q ->
  paymentID <> uuid_Nil -> ID l <> uuid_Nil -> time.IsZero clock = false ->
  exists r,
    MakePayment (V7 paymentID) clock clock2 (Some l) now paid pay = Ret r /\ err r = None.
Proof.
  intros EB NZ EQ HP HL HC. unfold MakePayment. rewrite EB. cbn [bind].
  pose proof (CurrentBillAmount_nonneg _ _ _ _ EB) as NN.
  destruct (decimal.IsZero bill) eqn:Z0; [apply IsZero_spec in Z0; contradiction|].
  assert (EQ' : Equal bill pay = true) by (apply Equal_spec; symmetry; assumption).
  rewrite EQ'. cbn [negb]. cbv iota.
  assert (CP : CreateLoanPayment (V7 paymentID) clock (ID l) pay
               = Ok (mkLoanPayment paymentID (ID l) pay clock clock)).
  { unfold CreateLoanPayment, validatePayment. simpl.
    destruct (N.eqb_spec paymentID uuid_Nil); [contradiction|].
    destruct (N.eqb_spec (ID l) uuid_Nil); [contradiction|].
    assert (E1 : LessThanOrEqual pay Zero = false).
    { apply LessThanOrEqual_false. rewrite toQ_Zero. lra. }
    rewrite E1, HC. reflexivity. }
  rewrite CP.
  destruct (Equal (Add paid pay) (PaymentAmount l)); eexists; split; reflexivity.
Qed.

(** C7.  The effect of a successful [MakePayment].  A payment of the bill,
    when the bill is not zero, succeeds once an id is drawn for it, the loan
    has an id and the clock does not read the zero time.  When the paid
    amount plus the payment equals the total, the loan returned by a
    successful call is [markedPaid] (status [LoanStatusPaid], update
    timestamp the clock's reading) and the update flag is true; otherwise the
    loan returned is the one passed in and the flag is false.  Over every run
    of successful payments on a loan that starts [LoanStatusOngoing], a step
    marks the loan paid exactly when its payment completes the total, at most
    one step does, and one does exactly when the loan ends the run
    [LoanStatusPaid]. *)
Theorem MakePayment_marks_paid_once :
  (forall paymentID clock clock2 l now paid pay bill,
     CurrentBillAmount (Some l) now paid = Ret bill ->
     ~ (toQ bill == 0)%Q -> (toQ pay == toQ bill)%Q ->
     paymentID <> uuid_Nil -> ID l <> uuid_Nil -> time.IsZero clock = false ->
     exists r,
       MakePayment (V7 paymentID) clock clock2 (Some l) now paid pay = Ret r /\
       err r = None /\
       ((toQ paid + toQ pay == toQ (PaymentAmount l))%Q ->
        loanAfter r = Some (markedPaid l clock2) /\ shouldUpdateLoan r = true) /\
       (~ (toQ paid + toQ pay == toQ (PaymentAmount l))%Q ->
        loanAfter r = Some l /\ shouldUpdateLoan r = false)) /\
  (forall newV7 clock clock2 l now paid pay r,
     MakePayment newV7 clock clock2 (Some l) now paid pay = Ret r ->
     err r = None ->
     ((toQ paid + toQ pay == toQ (PaymentAmount l))%Q ->
      loanAfter r = Some (markedPaid l clock2) /\ shouldUpdateLoan r = true) /\
     (~ (toQ paid + toQ pay == toQ (PaymentAmount l))%Q ->
      loanAfter r = Some l /\ shouldUpdateLoan r = false)) /\
  (forall l clock2, Status (markedPaid l clock2) = LoanStatusPaid /\
     UpdatedAt (markedPaid l clock2) = clock2) /\
  (forall l paid tr lEnd paidEnd,
     paymentRun l paid tr lEnd paidEnd ->
     Status l = LoanStatusOngoing ->
     (forall s, In s tr -> (flipsToPaid s = true <-> completes (PaymentAmount l) s)) /\
     (flips tr <= 1)%nat /\
     (flips tr = 1%nat <-> Status lEnd = LoanStatusPaid)).
Proof.
  split; [|split; [|split]].
  - intros paymentID clock clock2 l now paid pay bill EB NZ EQ HP HL HC.
    destruct (MakePayment_goes_through paymentID clock clock2 l now paid pay bill
                EB NZ EQ HP HL HC) as [r [HM HE]].
    exists r. split; [exact HM|]. split; [exact HE|].
    destruct (MakePayment_success _ _ _ _ _ _ _ _ HM HE) as [lp [_ [_ [_ [_ [HC' HN]]]]]].
    split; assumption.
  - intros newV7 clock clock2 l now paid pay r HM HE.
    destruct (MakePayment_success _ _ _ _ _ _ _ _ HM HE) as [lp [_ [_ [_ [_ [HC HN]]]]]].
    split; assumption.
  - intros l clock2. split; reflexivity.
  - intros l paid tr lEnd paidEnd HR On.
    destruct (paymentRun_inv _ _ _ _ _ HR (or_introl On)) as [H1 [_ [_ H4]]].
    destruct (H4 On) as [H5 H6]. repeat split; try assumption; apply H1 || apply H6; assumption.
Qed.

(** Week counts of short durations, by their end points. *)
Lemma weeksOf_between (w lo hi d : Z) :
  time.inDuration lo -> time.inDuration hi ->
  weeksOf lo = w -> weeksOf hi = w -> lo <= d <= hi -> weeksOf d = w.
Proof.
  intros Il Ih El Eh [L H].
  assert (Id : time.inDuration d) by (unfold time.inDuration in *; lia).
  pose proof (weeksOf_mono lo d Il Id L). pose proof (weeksOf_mono d hi Id Ih H). lia.
Qed.

Lemma inDuration_small d : - 2 ^ 62 <= d <= 2 ^ 62 -> time.inDuration d.
Proof.
  unfold time.inDuration, time.minDuration, time.maxDuration.
  change (2 ^ 63) with 9223372036854775808. change (2 ^ 62) with 4611686018427387904. lia.
Qed.

Lemma weeksOf_week0 d : - time.Week < d < time.Week -> weeksOf d = 0.
Proof.
  intros H. apply (weeksOf_between 0 (- time.Week + 1) (time.Week - 1)).
  - apply inDuration_small. vm_compute. split; discriminate.
  - apply inDuration_small. vm_compute. split; discriminate.
  - vm_compute. reflexivity.
  - vm_compute. reflexivity.
  - lia.
Qed.

Lemma weeksOf_small_week (w d : Z) :
  0 <= w < 4 -> w * time.Week <= d < (w + 1) * time.Week -> weeksOf d = w.
Proof.
  intros Hw H.
  assert (C : w = 0 \/ w = 1 \/ w = 2 \/ w = 3) by lia.
  destruct C as [ -> | [ -> | [ -> | -> ] ] ];
    (match goal with
     | |- weeksOf _ = ?w =>
       apply (weeksOf_between w (w * time.Week) ((w + 1) * time.Week - 1))
     end;
     [apply inDuration_small; vm_compute; split; discriminate
     |apply inDuration_small; vm_compute; split; discriminate
     |vm_compute; reflexivity|vm_compute; reflexivity|lia]).
Qed.

(** C2, a loan whose week count is negative.  The loan [mondayLoan] is
    created on Monday 2023-05-01, which is its own anchor.  At
    2023-04-23 00:00, eight days before the anchor, [currentWeek] returns
    [-1], not [0]. *)
Lemma currentWeek_not_clamped :
  let now := time.Date 2023 4 23 0 0 0 0 in
  beginningOfWeek mondayLoan = aMonday /\
  now <= beginningOfWeek mondayLoan /\
  currentWeek (Some mondayLoan) now = -1 /\
  currentWeek (Some mondayLoan) now <> 0.
Proof.
  cbv zeta. split; [vm_compute; reflexivity|].
  split; [vm_compute; discriminate|].
  assert (E : currentWeek (Some mondayLoan) (time.Date 2023 4 23 0 0 0 0) = -1)
    by (vm_compute; reflexivity).
  rewrite E. split; [reflexivity|discriminate].
Qed.

(** The week count of a loan.  The anchor [beginningOfWeek l] is
    midnight of the Monday of the week of [CreatedAt l].  With [d] the
    (saturating) duration from the anchor to [now], [currentWeek] is the
    quotient of [d] by a week truncated toward zero, or one step further from
    zero; it is that quotient whenever [d] is not within the last
    [time.slack] nanoseconds before a whole number of weeks.  It is [0]
    strictly within one week of the anchor on either side, at most [-1] a week
    or more before the anchor, and [1] exactly one week after it.  For a loan
    created on a Sunday, week 1 starts at midnight of the next day.  The
    absent loan is in week [0]. *)
Theorem currentWeek_spec (l : Loan) (now : time.Time) :
  let a := beginningOfWeek l in
  let d := time.Sub now a in
  (time.Weekday a = time.Monday /\ a mod time.Day = 0 /\
   a <= CreatedAt l < a + time.Week) /\
  (currentWeek (Some l) now = Z.quot d time.Week \/
   currentWeek (Some l) now = Z.quot d time.Week + Z.sgn d) /\
  (Z.abs (Z.rem d time.Week) <= time.Week - time.slack ->
   currentWeek (Some l) now = Z.quot d time.Week) /\
  (a - time.Week < now < a + time.Week -> currentWeek (Some l) now = 0) /\
  (now <= a - time.Week -> currentWeek (Some l) now <= -1) /\
  currentWeek (Some l) (a + time.Week) = 1 /\
  (time.Weekday (CreatedAt l) = time.Sunday ->
   a + time.Week = (time.absDays (CreatedAt l) + 1) * time.Day) /\
  currentWeek None now = 0.
Proof.
  intros a d.
  pose proof (Sub_inDuration now a) as Id. fold d in Id.
  destruct (weeksOf_spec d Id) as [S1 S2].
  split; [apply beginningOfWeek_monday|].
  split; [exact S1|]. split; [exact S2|].
  split; [|split; [|split; [|split; [|reflexivity]]]].
  - intros H. unfold currentWeek. fold a. apply weeksOf_week0.
    unfold time.Sub. change time.Week with 604800000000000 in *.
    unfold time.minDuration, time.maxDuration.
    change (2 ^ 63) with 9223372036854775808. lia.
  - intros H. unfold currentWeek. fold a.
    assert (E : weeksOf (- time.Week) = -1) by (vm_compute; reflexivity).
    rewrite <- E. apply weeksOf_mono.
    + apply Sub_inDuration.
    + apply inDuration_small. vm_compute. split; discriminate.
    + unfold time.Sub. change time.Week with 604800000000000 in *.
      unfold time.minDuration, time.maxDuration.
      change (2 ^ 63) with 9223372036854775808. lia.
  - unfold currentWeek. fold a. rewrite Sub_exact.
    + replace (a + time.Week - a) with time.Week by lia. vm_compute. reflexivity.
    + replace (a + time.Week - a) with time.Week by lia. vm_compute. split; discriminate.
  - intros HS. subst a. rewrite beginningOfWeek_spec, HS.
    change ((time.Sunday + 6) mod 7) with 6. change time.Week with (7 * time.Day). lia.
Qed.

Lemma wrap64_small z : - 2 ^ 63 <= z < 2 ^ 63 -> wrap64 z = z.
Proof.
  intros H. unfold wrap64.
  change (2 ^ 63) with 9223372036854775808 in *.
  change (2 ^ 64) with 18446744073709551616.
  rewrite Z.mod_small; lia.
Qed.

(** [Round(0).IntPart()] of a non-negative quotient with 16 decimals
    exceeds the threshold from 2.5 on. *)
Lemma unpaidWeeks_threshold z :
  0 <= z < 2 ^ 62 * 10 ^ 16 ->
  (delinquencyThresholdWeeks <? IntPart (Round (decimal.New z (-16)) 0))
  = (25000000000000000 <=? z).
Proof.
  intros Hz. unfold Round, IntPart, delinquencyThresholdWeeks.
  cbn [exp value]. change (-16 =? - 0) with false. cbv iota.
  change (rescale (decimal.New z (-16)) (- 0 - 1))
    with (decimal.New (Z.quot z (10 ^ 15)) (-1)).
  cbn [exp value].
  rewrite Z.quot_div_nonneg by (try lia; reflexivity).
  change (10 ^ 15) with 1000000000000000.
  change (2 ^ 62 * 10 ^ 16) with 46116860184273879040000000000000000 in Hz.
  set (t := z / 1000000000000000).
  assert (Ht : 0 <= t < 46116860184273879040) by (subst t; Z.div_mod_to_equations; lia).
  assert (S1 : (Z.sgn t <? 0) = false) by (apply Z.ltb_ge; pose proof (Z.sgn_nonneg t); lia).
  rewrite S1.
  assert (Hq : 0 <= (t + 5) / 10 < 2 ^ 63).
  { change (2 ^ 63) with 9223372036854775808. Z.div_mod_to_equations. lia. }
  assert (S2 : (Z.sgn ((t + 5) / 10) <? 0) = false).
  { apply Z.ltb_ge. pose proof (Z.sgn_nonneg ((t + 5) / 10)). lia. }
  rewrite S2. simpl andb. cbv iota. change (-1 + 1) with 0.
  change (rescale (decimal.New ((t + 5) / 10) 0) 0) with (decimal.New ((t + 5) / 10) 0).
  cbn [value]. rewrite wrap64_small by lia.
  destruct (Z.ltb_spec 2 ((t + 5) / 10)); destruct (Z.leb_spec 25000000000000000 z);
    try reflexivity; exfalso; subst t; Z.div_mod_to_equations; lia.
Qed.

Lemma billQ_le ob paid : (0 <= paid)%Q -> (0 <= ob)%Q -> (billQ ob paid <= ob)%Q.
Proof.
  intros Hp Ho. unfold billQ. destruct (Qle_bool paid ob); lra.
Qed.

Theorem IsDelinquent_spec (l : Loan) (now : time.Time) (paid : Decimal) :
  validate l = None ->
  int32 (PaymentDurationWeeks l) ->
  roomy (PaymentAmount l) -> roomy paid -> (0 <= toQ paid)%Q ->
  exists w bill,
    weeklyPaymentAmount (Some l) = Ret w /\
    CurrentBillAmount (Some l) now paid = Ret bill /\
    (Status l = LoanStatusPaid \/ (toQ (PaymentAmount l) == toQ paid)%Q ->
     IsDelinquent (Some l) now paid = Ret false) /\
    (Status l <> LoanStatusPaid -> ~ (toQ (PaymentAmount l) == toQ paid)%Q ->
     ~ (toQ w == 0)%Q ->
     exists b, IsDelinquent (Some l) now paid = Ret b /\
       (b = true <-> ((5 # 2) - half16 <= toQ bill / toQ w)%Q)) /\
    IsDelinquent None now paid = Ret false.
Proof.
  intros Hval [_ HW32] HR HRp Hpaid.
  destruct (validate_ok l Hval) as [_ [_ [_ [HW [HT _]]]]].
  destruct (CurrentBillAmount_spec l now paid HW HT HR)
    as [w [k [bill [Ew [Ek [Hk [Hvw [Hew [Lo [Hi [EB [VB [HvB HeB]]]]]]]]]]]]].
  exists w, bill. split; [assumption|]. split; [assumption|].
  split; [|split; [|reflexivity]].
  - intros [HP|HE]; unfold IsDelinquent.
    + rewrite HP. reflexivity.
    + apply Equal_spec in HE. rewrite HE. rewrite orb_true_r. reflexivity.
  - intros HS HNE HNZ.
    assert (E1 : (Status l =? LoanStatusPaid) = false) by (apply Z.eqb_neq; assumption).
    assert (E2 : Equal (PaymentAmount l) paid = false) by (apply Equal_false; assumption).
    assert (Hvw' : 0 < value w).
    { destruct (toQ_sign w) as [_ [_ Z0]].
      destruct (Z.eq_dec (value w) 0) as [F|F]; [apply Z0 in F; contradiction|lia]. }
    assert (Hk1 : 1 <= k).
    { destruct (Z.eq_dec k 0) as [->|]; [|lia]. exfalso. apply HNZ. rewrite Ek. reflexivity. }
    unfold roomy, MinInt32, MaxInt32 in HR, HRp.
    destruct (Div_spec bill w) as [z [HD [Hz [ZLo ZHi]]]]; [assumption|assumption| |].
    { unfold MinInt32, MaxInt32. lia. }
    change (10 ^ 16)%Q with 10000000000000000%Q in ZLo, ZHi.
    set (X := (toQ bill / toQ w)%Q) in *.
    (* the quotient is far below the int64 range *)
    assert (PW : (0 < inject_Z (PaymentDurationWeeks l))%Q) by (apply injZ_pos; lia).
    assert (Pk : (1 <= inject_Z k)%Q) by (change 1%Q with (inject_Z 1); rewrite <- Zle_Qle; lia).
    assert (XB : (X <= 3 * inject_Z (PaymentDurationWeeks l))%Q).
    { subst X. rewrite Ek. apply Qle_shift_div_r; [lra|].
      assert (BT : (toQ bill <= toQ (PaymentAmount l))%Q).
      { rewrite VB. unfold MaxInt32 in HW32.
        apply Qle_trans with (billQ (toQ (PaymentAmount l)) (toQ paid)).
        - apply billQ_mono, obligationQ_le_total; try assumption; unfold MaxInt32; lia.
        - apply billQ_le; lra. }
      assert (TB : (toQ (PaymentAmount l)
                    < (inject_Z k + 1 + half16) * inject_Z (PaymentDurationWeeks l))%Q).
      { assert (E : (toQ (PaymentAmount l) ==
                     toQ (PaymentAmount l) / inject_Z (PaymentDurationWeeks l)
                     * inject_Z (PaymentDurationWeeks l))%Q) by (field; lra).
        rewrite E at 1. apply Qmult_lt_compat_r; [assumption|unfold half16 in *; lra]. }
      assert (HH : (inject_Z k + 1 + half16 <= 3 * inject_Z k)%Q) by (unfold half16; lra).
      assert (M : ((inject_Z k + 1 + half16) * inject_Z (PaymentDurationWeeks l)
                   <= 3 * inject_Z k * inject_Z (PaymentDurationWeeks l))%Q).
      { apply Qmult_le_compat_r; lra. }
      setoid_replace (3 * inject_Z (PaymentDurationWeeks l) * inject_Z k)%Q
        with (3 * inject_Z k * inject_Z (PaymentDurationWeeks l))%Q by ring.
      lra. }
    assert (Hz2 : z < 2 ^ 62 * 10 ^ 16).
    { assert (WB : (inject_Z (PaymentDurationWeeks l) <= 2147483647)%Q).
      { change 2147483647%Q with (inject_Z 2147483647). rewrite <- Zle_Qle.
        unfold MaxInt32 in HW32. lia. }
      assert (F : (inject_Z z < inject_Z (2 ^ 62 * 10 ^ 16))%Q).
      { change (inject_Z (2 ^ 62 * 10 ^ 16)) with 46116860184273879040000000000000000%Q.
        assert (G : (X * 10000000000000000 <= 3 * 2147483647 * 10000000000000000)%Q).
        { apply Qmult_le_compat_r; [lra|discriminate]. }
        lra. }
      rewrite <- Zlt_Qlt in F. exact F. }
    exists (25000000000000000 <=? z).
    split.
    + unfold IsDelinquent. rewrite E1, E2. simpl orb. cbv iota.
      rewrite EB. cbn [bind]. rewrite Ew. cbn [bind]. rewrite HD. cbn [bind].
      rewrite unpaidWeeks_threshold by lia. reflexivity.
    + rewrite Z.leb_le. unfold half16. split.
      * intros H. rewrite Zle_Qle in H.
        change (inject_Z 25000000000000000) with 25000000000000000%Q in H. lra.
      * intros H.
        assert (F : (inject_Z 25000000000000000 < inject_Z (z + 1))%Q).
        { rewrite inject_Z_plus. change (inject_Z 25000000000000000) with 25000000000000000%Q.
          change (inject_Z 1) with 1%Q. lra. }
        rewrite <- Zlt_Qlt in F. lia.
Qed.

(** The weekly amount is the floor of the quotient plus half a unit
    of the 16th decimal place: [Div] has rounded the quotient to 16
    places before [RoundDown] drops them. *)
Lemma weeklyPaymentAmount_law l :
  1 <= PaymentDurationWeeks l ->
  (0 < toQ (PaymentAmount l))%Q ->
  roomy (PaymentAmount l) ->
  exists w,
    weeklyPaymentAmount (Some l) = Ret w /\
    (toQ w == inject_Z (Qfloor (toQ (PaymentAmount l) / inject_Z (PaymentDurationWeeks l)
                                + half16)))%Q.
Proof.
  intros HW HT HR.
  destruct (weekly_spec l HW HT HR) as [w [k [Ew [Ek [Hk [_ [_ [Lo Hi]]]]]]]].
  exists w. split; [assumption|]. rewrite Ek.
  rewrite (FloatFacts.Qfloor_unique _ k); [reflexivity|assumption|].
  rewrite inject_Z_plus. exact Hi.
Qed.

(** With at most six decimal places in the total the half unit never
    matters: the weekly amount is the floor of total / weeks. *)
Lemma weeklyPaymentAmount_floor l :
  1 <= PaymentDurationWeeks l <= MaxInt32 ->
  (0 < toQ (PaymentAmount l))%Q ->
  roomy (PaymentAmount l) ->
  -6 <= exp (PaymentAmount l) ->
  exists w,
    weeklyPaymentAmount (Some l) = Ret w /\
    (toQ w == inject_Z (Qfloor (toQ (PaymentAmount l) / inject_Z (PaymentDurationWeeks l))))%Q.
Proof.
  intros [HW HW32] HT HR He. unfold MaxInt32 in HW32.
  destruct (weekly_spec l HW HT HR) as [w [k [Ew [Ek [Hk [_ [_ [Lo Hi]]]]]]]].
  exists w. split; [assumption|]. rewrite Ek.
  set (T := PaymentAmount l) in *. set (W := PaymentDurationWeeks l) in *.
  assert (PW : (0 < inject_Z W)%Q) by (apply injZ_pos; lia).
  rewrite (FloatFacts.Qfloor_unique _ k); [reflexivity| |].
  2:{ rewrite inject_Z_plus. unfold half16 in Hi. change (inject_Z 1) with 1%Q. lra. }
  (* the total is a whole number of millionths *)
  pose proof (toQ_scaled T (-6) He) as ES. change (10 ^ (-6))%Q with (1 # 1000000)%Q in ES.
  set (N := scaled T (-6)) in *.
  apply Qnot_lt_le. intros F.
  assert (F1 : (toQ T < inject_Z k * inject_Z W)%Q).
  { assert (E : (toQ T == toQ T / inject_Z W * inject_Z W)%Q) by (field; lra).
    rewrite E. apply Qmult_lt_compat_r; assumption. }
  assert (F2 : N < k * W * 1000000).
  { rewrite Zlt_Qlt. rewrite !inject_Z_mult. change (inject_Z 1000000) with 1000000%Q.
    rewrite ES in F1. lra. }
  assert (F3 : (inject_Z N + 1 <= inject_Z k * inject_Z W * 1000000)%Q).
  { assert (G : N + 1 <= k * W * 1000000) by lia.
    rewrite Zle_Qle in G. rewrite inject_Z_plus, !inject_Z_mult in G. exact G. }
  assert (F4 : (inject_Z k * inject_Z W <= toQ T + half16 * inject_Z W)%Q).
  { assert (E : ((toQ T / inject_Z W + half16) * inject_Z W == toQ T + half16 * inject_Z W)%Q)
      by (field; lra).
    rewrite <- E. apply Qmult_le_compat_r; [assumption|lra]. }
  assert (F5 : (half16 * inject_Z W * 1000000 < 1)%Q).
  { unfold half16. assert (inject_Z W <= inject_Z 2147483647)%Q by (rewrite <- Zle_Qle; lia).
    change (inject_Z 2147483647) with 2147483647%Q in H. lra. }
  rewrite ES in F4.
  set (kw := (inject_Z k * inject_Z W)%Q) in *. set (hw := (half16 * inject_Z W)%Q) in *. lra.
Qed.

Example weekly_10000_3 l :
  PaymentAmount l = NewFromInt 10000 -> PaymentDurationWeeks l = 3 ->
  weeklyPaymentAmount (Some l) = Ret (NewFromInt 3333).
Proof. intros H1 H2. unfold weeklyPaymentAmount. rewrite H1, H2. reflexivity. Qed.

Example weekly_10000_10 l :
  PaymentAmount l = NewFromInt 10000 -> PaymentDurationWeeks l = 10 ->
  exists w, weeklyPaymentAmount (Some l) = Ret w /\ Equal w (NewFromInt 1000) = true.
Proof.
  intros H1 H2. unfold weeklyPaymentAmount. rewrite H1, H2. eexists. split; reflexivity.
Qed.

(** A whole-number total over one week is due in full. *)
Lemma weekly_one_week l n :
  PaymentAmount l = NewFromInt n -> PaymentDurationWeeks l = 1 -> 0 < n ->
  exists w, weeklyPaymentAmount (Some l) = Ret w /\ (toQ w == inject_Z n)%Q.
Proof.
  intros H1 H2 Hn.
  destruct (weeklyPaymentAmount_floor l) as [w [Ew Eq]].
  - rewrite H2. unfold MaxInt32. lia.
  - rewrite H1. unfold NewFromInt. apply (toQ_sign (decimal.New n 0)). assumption.
  - rewrite H1. unfold roomy, MinInt32, MaxInt32. simpl. lia.
  - rewrite H1. simpl. lia.
  - exists w. split; [assumption|]. rewrite Eq, H1, H2.
    assert (E : (toQ (NewFromInt n) / inject_Z 1 == inject_Z n)%Q).
    { unfold NewFromInt, toQ. simpl. change (10 ^ 0)%Q with 1%Q. change (inject_Z 1) with 1%Q. field. }
    rewrite (Qfloor_comp _ _ E), Qfloor_Z. reflexivity.
Qed.

(** C6, a loan that is delinquent although its bill divided by the
    weekly amount rounds to 2.  The loan [roundingLoan] has total
    13.9999999999999999 over 3 weeks, so its weekly amount is 4; the paid
    amount 4 is reached by one successful [MakePayment] in week 1.  In week 3
    the bill is 9.9999999999999999; the quotient by 4 is below 2.5 and its
    nearest whole number is 2, but [Div] rounds it to 2.5 at sixteen places
    and [Round] then gives 3. *)
Lemma IsDelinquent_double_rounding :
  let now := time.Date 2023 5 22 0 0 0 0 in
  let paid := NewFromInt 4 in
  let bill := decimal.New 99999999999999999 (-16) in
  CreateLoan (V7 7%N) aMonday 9%N (decimal.New 119999999999999999 (-16)) 3
    = Ret (Ok roundingLoan) /\
  Status roundingLoan <> LoanStatusPaid /\
  Equal (PaymentAmount roundingLoan) paid = false /\
  CurrentBillAmount (Some roundingLoan) now paid = Ret bill /\
  weeklyPaymentAmount (Some roundingLoan) = Ret (decimal.New 4 0) /\
  nearestWhole (toQ bill / toQ (decimal.New 4 0)) = 2 /\
  IsDelinquent (Some roundingLoan) now paid = Ret true /\
  MakePayment (V7 11%N) 5 6 (Some roundingLoan) (time.Date 2023 5 8 0 0 0 0) Zero paid
    = Ret (mkPaymentResult (Some roundingLoan)
             (Some (mkLoanPayment 11%N 7%N paid 5 5)) false None).
Proof.
  cbv zeta. split; [vm_compute; reflexivity|]. split; [discriminate|].
  split; [vm_compute; reflexivity|]. split; [vm_compute; reflexivity|].
  split; [vm_compute; reflexivity|]. split; [vm_compute; reflexivity|].
  split; vm_compute; reflexivity.
Qed.

Lemma currentWeek_after_days l n w :
  0 <= w < 4 -> n = 7 * w ->
  currentWeek (Some l) (CreatedAt l + n * time.Day) = w.
Proof.
  intros Hw ->. unfold currentWeek.
  destruct (beginningOfWeek_monday l) as [_ [_ B]].
  set (a := beginningOfWeek l) in *.
  change time.Week with 604800000000000 in B.
  apply weeksOf_small_week; [assumption|].
  unfold time.Sub, time.minDuration, time.maxDuration.
  change (2 ^ 63) with 9223372036854775808.
  change time.Week with 604800000000000. change time.Day with 86400000000000. lia.
Qed.

(** The boundary example: a loan of total 1000 over 10 weeks, with
    nothing paid, 14 and 21 days after its creation. *)
Lemma IsDelinquent_boundary l :
  PaymentAmount l = NewFromInt 1000 -> PaymentDurationWeeks l = 10 ->
  Status l = LoanStatusOngoing ->
  IsDelinquent (Some l) (CreatedAt l + 14 * time.Day) Zero = Ret false /\
  IsDelinquent (Some l) (CreatedAt l + 21 * time.Day) Zero = Ret true.
Proof.
  intros HT HW HS.
  pose proof (currentWeek_after_days l 14 2 ltac:(lia) eq_refl) as W2.
  pose proof (currentWeek_after_days l 21 3 ltac:(lia) eq_refl) as W3.
  unfold IsDelinquent, CurrentBillAmount, weeklyPaymentAmount.
  rewrite W2, W3, HT, HW, HS. split; vm_compute; reflexivity.
Qed.

(** C6.  Delinquency of a validated loan, for a paid amount that is not
    negative.  It is false when the status is [LoanStatusPaid] or the paid
    amount equals the total.  Otherwise, when the weekly amount is not zero,
    [IsDelinquent] returns, and returns true exactly when the bill divided by
    the weekly amount is at least [5/2 - half16].  The absent loan is not
    delinquent.  An ongoing loan of total 1000 over 10 weeks with nothing
    paid is not delinquent 14 days after its creation and is delinquent 21
    days after it. *)
Theorem IsDelinquent_rule (l : Loan) (now : time.Time) (paid : Decimal) :
  validate l = None ->
  int32 (PaymentDurationWeeks l) ->
  roomy (PaymentAmount l) -> roomy paid -> (0 <= toQ paid)%Q ->
  (exists w bill,
    weeklyPaymentAmount (Some l) = Ret w /\
    CurrentBillAmount (Some l) now paid = Ret bill /\
    (Status l = LoanStatusPaid \/ (toQ (PaymentAmount l) == toQ paid)%Q ->
     IsDelinquent (Some l) now paid = Ret false) /\
    (Status l <> LoanStatusPaid -> ~ (toQ (PaymentAmount l) == toQ paid)%Q ->
     ~ (toQ w == 0)%Q ->
     exists b, IsDelinquent (Some l) now paid = Ret b /\
       (b = true <-> ((5 # 2) - half16 <= toQ bill / toQ w)%Q))) /\
  IsDelinquent None now paid = Ret false /\
  (forall l', PaymentAmount l' = NewFromInt 1000 -> PaymentDurationWeeks l' = 10 ->
     Status l' = LoanStatusOngoing ->
     IsDelinquent (Some l') (CreatedAt l' + 14 * time.Day) Zero = Ret false /\
     IsDelinquent (Some l') (CreatedAt l' + 21 * time.Day) Zero = Ret true).
Proof.
  intros Hval HW HR HRp Hp.
  destruct (IsDelinquent_spec l now paid Hval HW HR HRp Hp) as [w [bill [A [B [C [D E]]]]]].
  split; [exists w, bill; repeat split; assumption|].
  split; [reflexivity|]. apply IsDelinquent_boundary.
Qed.

(** *** Concrete instances *)

(** A loan of 1000 + 100 over ten weeks. *)
Lemma mondayLoan_valid :
  validate mondayLoan = None /\ int32 (PaymentDurationWeeks mondayLoan) /\
  roomy (PaymentAmount mondayLoan) /\ roomy (NewFromInt 110) /\ (0 <= toQ (NewFromInt 110))%Q.
Proof.
  split; [reflexivity|]. split; [split; discriminate|].
  split; [split; discriminate|]. split; [split; discriminate|discriminate].
Qed.

(** [twoWeekLoan] is paid off by two payments of 1100 and flips to
    Paid on the second. *)
Lemma paymentRun_example :
  exists tr lEnd paidEnd,
    paymentRun twoWeekLoan Zero tr lEnd paidEnd /\
    List.length tr = 2%nat /\ flips tr = 1%nat /\ Status lEnd = LoanStatusPaid /\
    Equal paidEnd (PaymentAmount twoWeekLoan) = true.
Proof.
  eexists. eexists. eexists. split.
  - eapply (run_step twoWeekLoan Zero (V7 11%N) 5 6 (time.Date 2023 5 8 0 0 0 0)
                     (NewFromInt 1100)); try (vm_compute; reflexivity).
    eapply (run_step twoWeekLoan _ (V7 12%N) 7 8 (time.Date 2023 5 15 0 0 0 0)
                     (NewFromInt 1100)); try (vm_compute; reflexivity).
    apply run_done.
  - repeat split; vm_compute; reflexivity.
Qed.

Lemma MakePayment_marks_paid_once_witness :
  let now := time.Date 2023 5 15 0 0 0 0 in
  let paid := NewFromInt 1100 in
  let pay := NewFromInt 1100 in
  (toQ paid + toQ pay == toQ (PaymentAmount twoWeekLoan))%Q /\
  (exists r,
     MakePayment (V7 12%N) 7 8 (Some twoWeekLoan) now paid pay = Ret r /\
     err r = None /\
     loanAfter r = Some (markedPaid twoWeekLoan 8) /\ shouldUpdateLoan r = true /\
     Status (markedPaid twoWeekLoan 8) = LoanStatusPaid /\
     UpdatedAt (markedPaid twoWeekLoan 8) = 8) /\
  (exists tr lEnd paidEnd,
     paymentRun twoWeekLoan Zero tr lEnd paidEnd /\
     flips tr = 1%nat /\ Status lEnd = LoanStatusPaid).
Proof.
  cbv zeta.
  destruct MakePayment_marks_paid_once as [Succeeds [_ [Marked Runs]]].
  assert (C : (toQ (NewFromInt 1100) + toQ (NewFromInt 1100)
               == toQ (PaymentAmount twoWeekLoan))%Q) by reflexivity.
  split; [exact C|]. split.
  - assert (EB : CurrentBillAmount (Some twoWeekLoan) (time.Date 2023 5 15 0 0 0 0)
                   (NewFromInt 1100) = Ret (NewFromInt 1100)) by (vm_compute; reflexivity).
    destruct (Succeeds 12%N 7 8 twoWeekLoan (time.Date 2023 5 15 0 0 0 0)
                (NewFromInt 1100) (NewFromInt 1100) (NewFromInt 1100) EB)
      as [r [HM [HE [HC _]]]];
      [discriminate|reflexivity|discriminate|discriminate|reflexivity|].
    destruct (HC C) as [LA FL]. destruct (Marked twoWeekLoan 8) as [MS MU].
    exists r. repeat split; assumption.
  - destruct paymentRun_example as [tr [lEnd [paidEnd [HR [_ [_ [HS _]]]]]]].
    exists tr, lEnd, paidEnd. split; [exact HR|]. split; [|exact HS].
    destruct (Runs twoWeekLoan Zero tr lEnd paidEnd HR eq_refl) as [_ [_ Once]].
    apply Once. exact HS.
Defined.

Lemma CurrentBillAmount_monotone_witness :
  let now1 := time.Date 2023 5 8 0 0 0 0 in
  let now2 := time.Date 2023 5 15 0 0 0 0 in
  validate mondayLoan = None /\ int32 (PaymentDurationWeeks mondayLoan) /\
  roomy (PaymentAmount mondayLoan) /\ now1 <= now2 /\
  exists b1 b2,
    CurrentBillAmount (Some mondayLoan) now1 (NewFromInt 110) = Ret b1 /\
    CurrentBillAmount (Some mondayLoan) now2 (NewFromInt 110) = Ret b2 /\
    (0 <= toQ b1)%Q /\ (toQ b1 <= toQ b2)%Q.
Proof.
  cbv zeta.
  assert (H1 : validate mondayLoan = None) by reflexivity.
  assert (H2 : int32 (PaymentDurationWeeks mondayLoan)) by (split; discriminate).
  assert (H3 : roomy (PaymentAmount mondayLoan)) by (split; discriminate).
  assert (H4 : time.Date 2023 5 8 0 0 0 0 <= time.Date 2023 5 15 0 0 0 0) by discriminate.
  split; [exact H1|]. split; [exact H2|]. split; [exact H3|]. split; [exact H4|].
  destruct (CurrentBillAmount_monotone mondayLoan (NewFromInt 110) _ _ H1 H2 H3 H4)
    as [b1 [b2 [A [B [C [D _]]]]]].
  exists b1, b2. repeat split; assumption.
Defined.

Lemma CreateLoan_total_witness :
  7%N <> uuid_Nil /\ aMonday <> 0 /\ 9%N <> uuid_Nil /\ (0 < toQ (NewFromInt 1005))%Q /\
  1 <= 10 /\ MinInt32 < exp (NewFromInt 1005) <= MaxInt32 /\
  exists loan,
    CreateLoan (V7 7%N) aMonday 9%N (NewFromInt 1005) 10 = Ret (Ok loan) /\
    (toQ (PaymentAmount loan) == 1106)%Q /\
    (toQ (NewFromInt 1005) < toQ (PaymentAmount loan))%Q.
Proof.
  assert (H1 : 7%N <> uuid_Nil) by discriminate.
  assert (H2 : aMonday <> 0) by discriminate.
  assert (H3 : 9%N <> uuid_Nil) by discriminate.
  assert (H4 : (0 < toQ (NewFromInt 1005))%Q) by reflexivity.
  assert (H5 : 1 <= 10) by discriminate.
  assert (H6 : MinInt32 < exp (NewFromInt 1005) <= MaxInt32) by (split; [reflexivity|discriminate]).
  split; [exact H1|]. split; [exact H2|]. split; [exact H3|]. split; [exact H4|].
  split; [exact H5|]. split; [exact H6|].
  destruct (proj1 (CreateLoan_total aMonday 9%N (NewFromInt 1005) 10) 7%N H1 H2 H3 H4 H5 H6)
    as [loan [E [_ [_ [_ [T S]]]]]].
  exists loan. split; [exact E|]. split; [|exact S].
  rewrite T. reflexivity.
Defined.

Lemma IsDelinquent_rule_witness :
  let now := time.Date 2023 5 29 0 0 0 0 in
  validate mondayLoan = None /\ int32 (PaymentDurationWeeks mondayLoan) /\
  roomy (PaymentAmount mondayLoan) /\ roomy (NewFromInt 110) /\
  (0 <= toQ (NewFromInt 110))%Q /\
  IsDelinquent None now (NewFromInt 110) = Ret false /\
  exists w bill,
    weeklyPaymentAmount (Some mondayLoan) = Ret w /\
    CurrentBillAmount (Some mondayLoan) now (NewFromInt 110) = Ret bill.
Proof.
  cbv zeta.
  destruct mondayLoan_valid as [H1 [H2 [H3 [H4 H5]]]].
  split; [exact H1|]. split; [exact H2|]. split; [exact H3|]. split; [exact H4|].
  split; [exact H5|].
  destruct (IsDelinquent_rule mondayLoan (time.Date 2023 5 29 0 0 0 0) (NewFromInt 110)
              H1 H2 H3 H4 H5) as [[w [bill [A [B _]]]] [N _]].
  split; [exact N|]. exists w, bill. split; assumption.
Defined.

End LoanFacts.

(** ** Further properties of the entity *)

Module EntityFacts.

Import businesserror decimal entity service vocabulary.
Import DecimalFacts TimeFacts LoanFacts.
Local Open Scope Z_scope.

(** *** Validation *)

Lemma IsValid_spec s :
  IsValid s = true <-> s = LoanStatusOngoing \/ s = LoanStatusPaid.
Proof.
  unfold IsValid. rewrite orb_true_iff, !Z.eqb_eq. reflexivity.
Qed.

Lemma validate_iff (l : Loan) :
  validate l = None <->
  ID l <> uuid_Nil /\ UserID l <> uuid_Nil /\ (0 < toQ (Amount l))%Q /\
  1 <= PaymentDurationWeeks l /\ (0 < toQ (PaymentAmount l))%Q /\
  (Status l = LoanStatusOngoing \/ Status l = LoanStatusPaid) /\
  time.IsZero (CreatedAt l) = false /\ time.IsZero (UpdatedAt l) = false.
Proof.
  split.
  - intros H. destruct (validate_ok l H) as [A [B [C [D [E [F [G I]]]]]]].
    apply IsValid_spec in F. unfold time.IsZero.
    repeat split; try assumption; apply Z.eqb_neq; assumption.
  - intros [A [B [C [D [E [F [G I]]]]]]]. unfold validate.
    destruct (N.eqb_spec (ID l) uuid_Nil); [contradiction|].
    destruct (N.eqb_spec (UserID l) uuid_Nil); [contradiction|].
    assert (E1 : LessThanOrEqual (Amount l) Zero = false).
    { apply LessThanOrEqual_false. rewrite toQ_Zero. assumption. }
    assert (E2 : LessThanOrEqual (PaymentAmount l) Zero = false).
    { apply LessThanOrEqual_false. rewrite toQ_Zero. assumption. }
    rewrite E1, E2. destruct (Z.leb_spec (PaymentDurationWeeks l) 0); [lia|].
    apply IsValid_spec in F. rewrite F, G, I. reflexivity.
Qed.

Lemma validate_kind (l : Loan) (e : BusinessError) :
  validate l = Some e -> kind e = KindBadRequest.
Proof.
  unfold validate.
  repeat match goal with
  | |- context [if ?c then _ else _] => destruct c
  end; intros H; try discriminate; injection H as <-; reflexivity.
Qed.

(** X1.  [(l *Loan) validate()] accepts exactly the loans that have an
    id, a user id, a positive principal, a duration of at least one
    week, a positive total, one of the two declared statuses and both
    timestamps set; every error it returns is of kind
    [KindBadRequest]. *)
Theorem validate_accepts (l : Loan) :
  (validate l = None <->
   ID l <> uuid_Nil /\ UserID l <> uuid_Nil /\ (0 < toQ (Amount l))%Q /\
   1 <= PaymentDurationWeeks l /\ (0 < toQ (PaymentAmount l))%Q /\
   (Status l = LoanStatusOngoing \/ Status l = LoanStatusPaid) /\
   time.IsZero (CreatedAt l) = false /\ time.IsZero (UpdatedAt l) = false) /\
  (forall e, validate l = Some e -> kind e = KindBadRequest).
Proof.
  split; [apply validate_iff|]. intros e. apply validate_kind.
Qed.

Lemma validatePayment_iff (lp : LoanPayment) :
  validatePayment lp = None <->
  lpID lp <> uuid_Nil /\ lpLoanID lp <> uuid_Nil /\ (0 < toQ (lpAmount lp))%Q /\
  time.IsZero (lpCreatedAt lp) = false /\ time.IsZero (lpUpdatedAt lp) = false.
Proof.
  unfold validatePayment, time.IsZero.
  destruct (N.eqb_spec (lpID lp) uuid_Nil) as [A|A].
  { split; [discriminate|]. intros [F _]. contradiction. }
  destruct (N.eqb_spec (lpLoanID lp) uuid_Nil) as [B|B].
  { split; [discriminate|]. intros [_ [F _]]. contradiction. }
  destruct (LessThanOrEqual (lpAmount lp) Zero) eqn:C.
  { apply LessThanOrEqual_spec in C. rewrite toQ_Zero in C.
    split; [discriminate|]. intros [_ [_ [F _]]]. lra. }
  apply LessThanOrEqual_false in C. rewrite toQ_Zero in C.
  destruct (lpCreatedAt lp =? 0) eqn:D.
  { split; [discriminate|]. intros [_ [_ [_ [F _]]]]. discriminate. }
  destruct (lpUpdatedAt lp =? 0) eqn:E.
  { split; [discriminate|]. intros [_ [_ [_ [_ F]]]]. discriminate. }
  split; [|reflexivity]. intros _. repeat split; assumption.
Qed.

(** X2.  [(lp *LoanPayment) validate()] accepts exactly the payments
    that have an id, a loan id, a positive amount and both timestamps
    set; every error it returns is of kind [KindBadRequest]. *)
Theorem validatePayment_accepts (lp : LoanPayment) :
  (validatePayment lp = None <->
   lpID lp <> uuid_Nil /\ lpLoanID lp <> uuid_Nil /\ (0 < toQ (lpAmount lp))%Q /\
   time.IsZero (lpCreatedAt lp) = false /\ time.IsZero (lpUpdatedAt lp) = false) /\
  (forall e, validatePayment lp = Some e -> kind e = KindBadRequest).
Proof.
  split; [apply validatePayment_iff|]. intros e. apply validatePayment_kind.
Qed.

(** *** Creation *)

Lemma CreateLoanPayment_iff (paymentID : UUID) (clock : time.Time)
    (loanID : UUID) (amount : Decimal) (lp : LoanPayment) :
  CreateLoanPayment (V7 paymentID) clock loanID amount = Ok lp <->
  lp = mkLoanPayment paymentID loanID amount clock clock /\
  paymentID <> uuid_Nil /\ loanID <> uuid_Nil /\ (0 < toQ amount)%Q /\
  time.IsZero clock = false.
Proof.
  unfold CreateLoanPayment.
  set (payment := mkLoanPayment paymentID loanID amount clock clock).
  pose proof (validatePayment_iff payment) as Hacc.
  destruct (validatePayment payment) as [b|] eqn:V.
  - split; [discriminate|]. intros [_ [H1 [H2 [H3 H4]]]].
    assert (F : Some b = None) by (apply Hacc; repeat split; assumption).
    discriminate.
  - split.
    + intros H. injection H as <-. split; [reflexivity|].
      destruct (proj1 Hacc eq_refl) as [H1 [H2 [H3 [H4 _]]]].
      repeat split; assumption.
    + intros [-> _]. reflexivity.
Qed.

(** X3.  [CreateLoanPayment] passes the error of the random source on
    unchanged.  Otherwise it returns a payment exactly when the new id
    and the loan id are set, the amount is positive and the clock does
    not read the zero time; the payment then carries that id, the loan
    id, the amount, and the clock's reading as both timestamps.  Every
    other failure is a business error of kind [KindBadRequest]. *)
Theorem CreateLoanPayment_accepts (newV7 : NewV7) (clock : time.Time)
    (loanID : UUID) (amount : Decimal) :
  match newV7 with
  | V7Failed text => CreateLoanPayment newV7 clock loanID amount = Err (EOpaque text)
  | V7 paymentID =>
    (forall lp, CreateLoanPayment newV7 clock loanID amount = Ok lp <->
       lp = mkLoanPayment paymentID loanID amount clock clock /\
       paymentID <> uuid_Nil /\ loanID <> uuid_Nil /\ (0 < toQ amount)%Q /\
       time.IsZero clock = false) /\
    (forall e, CreateLoanPayment newV7 clock loanID amount = Err e ->
       exists b, e = EBusiness b /\ kind b = KindBadRequest)
  end.
Proof.
  destruct newV7 as [paymentID|text]; [|reflexivity].
  split; [intros lp; apply CreateLoanPayment_iff|].
  intros e. unfold CreateLoanPayment.
  destruct (validatePayment _) as [b|] eqn:V; [|discriminate].
  intros H. injection H as <-. exists b. split; [reflexivity|].
  apply (validatePayment_kind _ _ V).
Qed.

(** One row of a decision table: the result is known, and each
    equivalence either names it or is refuted on both sides. *)
Ltac row_side :=
  solve [ assumption | reflexivity | contradiction | lia | lra ].

Ltac row_iff :=
  split;
  [ let H := fresh in
    intros H;
    first [ discriminate H
          | vm_compute in H; discriminate H
          | match type of H with
            | ex _ => let x := fresh in let H' := fresh in
                      destruct H as [x H']; discriminate H'
            end
          | repeat split; row_side ]
  | let H := fresh in
    intros H;
    first [ reflexivity
          | exfalso; decompose [and] H; row_side ] ].

Ltac decide_row :=
  eexists; split; [reflexivity|]; repeat (split; [row_iff|]); row_iff.

(** X4.  The decisions of [CreateLoan] on an amount whose exponent lets
    the interest be computed.  The checks fail in this order: no loan
    id, no user id, principal not positive, duration below one week,
    clock at the zero time.  When none fails, a loan is returned.  No
    other error arises: the total, the status and the update timestamp
    of a loan built by [CreateLoan] never fail their checks. *)
Theorem CreateLoan_decisions (loanID : UUID) (clock : time.Time) (userID : UUID)
    (amount : Decimal) (paymentDurationWeeks : Z) :
  MinInt32 < exp amount <= MaxInt32 ->
  exists r,
    CreateLoan (V7 loanID) clock userID amount paymentDurationWeeks = Ret r /\
    (r = Err (EBusiness ErrLoanEmptyID) <-> loanID = uuid_Nil) /\
    (r = Err (EBusiness ErrLoanEmptyUserID) <-> loanID <> uuid_Nil /\ userID = uuid_Nil) /\
    (r = Err (EBusiness ErrLoanInvalidAmount) <->
     loanID <> uuid_Nil /\ userID <> uuid_Nil /\ (toQ amount <= 0)%Q) /\
    (r = Err (EBusiness ErrLoanInvalidPaymentDurationWeeks) <->
     loanID <> uuid_Nil /\ userID <> uuid_Nil /\ (0 < toQ amount)%Q /\
     paymentDurationWeeks <= 0) /\
    (r = Err (EBusiness ErrLoanEmptyCreatedAt) <->
     loanID <> uuid_Nil /\ userID <> uuid_Nil /\ (0 < toQ amount)%Q /\
     1 <= paymentDurationWeeks /\ clock = 0) /\
    ((exists loan, r = Ok loan) <->
     loanID <> uuid_Nil /\ userID <> uuid_Nil /\ (0 < toQ amount)%Q /\
     1 <= paymentDurationWeeks /\ clock <> 0).
Proof.
  intros HE. unfold CreateLoan.
  rewrite (Mul_returns amount interestRate) by (simpl; unfold MinInt32, MaxInt32 in *; lia).
  cbn [bind]. set (interest := decimal.New _ _). set (l := mkLoan _ _ _ _ _ _ _ _).
  unfold validate. cbn [ID UserID Amount PaymentDurationWeeks PaymentAmount Status
                        CreatedAt UpdatedAt l].
  destruct (N.eqb_spec loanID uuid_Nil) as [A|A]; [decide_row|].
  destruct (N.eqb_spec userID uuid_Nil) as [B|B]; [decide_row|].
  destruct (LessThanOrEqual amount Zero) eqn:C.
  { apply LessThanOrEqual_spec in C. rewrite toQ_Zero in C. decide_row. }
  apply LessThanOrEqual_false in C. rewrite toQ_Zero in C.
  destruct (Z.leb_spec paymentDurationWeeks 0) as [D|D]; [decide_row|].
  assert (Hvi : 0 < value interest).
  { subst interest. simpl. rewrite Z.mul_1_r. apply (toQ_sign amount). assumption. }
  pose proof (RoundUp0_spec interest Hvi) as ER.
  pose proof (Qle_ceiling (toQ interest)) as CE.
  assert (Pi : (0 < toQ interest)%Q) by (apply (toQ_sign interest); assumption).
  assert (E2 : LessThanOrEqual (Add amount (RoundUp interest 0)) Zero = false).
  { apply LessThanOrEqual_false. rewrite toQ_Zero, toQ_Add, ER. lra. }
  rewrite E2. change (IsValid LoanStatusOngoing) with true. cbn [negb].
  unfold time.IsZero. clear ER CE Pi E2 Hvi.
  destruct (Z.eqb_spec clock 0) as [F|F]; [decide_row|].
  eexists. split; [reflexivity|].
  repeat (split; [row_iff|]).
  split; [intros _; repeat split; solve [assumption | lia]|intros _; eexists; reflexivity].
Qed.

Lemma CreateLoan_decisions_witness :
  MinInt32 < exp (NewFromInt 1000) <= MaxInt32 /\
  exists r, CreateLoan (V7 7%N) aMonday uuid_Nil (NewFromInt 1000) 10 = Ret r /\
    r = Err (EBusiness ErrLoanEmptyUserID).
Proof.
  assert (H : MinInt32 < exp (NewFromInt 1000) <= MaxInt32) by (split; [reflexivity|discriminate]).
  split; [exact H|].
  destruct (CreateLoan_decisions 7%N aMonday uuid_Nil (NewFromInt 1000) 10 H)
    as [r [E [_ [U _]]]].
  exists r. split; [exact E|]. apply U. split; [discriminate|reflexivity].
Defined.

(** *** Outstanding amount *)

(** X5.  [OutstandingAmount] is the total less the paid amount, floored
    at zero: never negative, zero exactly when the paid amount has
    reached the total, and [Zero] for the absent loan. *)
Theorem OutstandingAmount_value (l : Loan) (paidAmount : Decimal) :
  (toQ (OutstandingAmount (Some l) paidAmount)
     == billQ (toQ (PaymentAmount l)) (toQ paidAmount))%Q /\
  (0 <= toQ (OutstandingAmount (Some l) paidAmount))%Q /\
  ((toQ (OutstandingAmount (Some l) paidAmount) == 0)%Q <->
   (toQ (PaymentAmount l) <= toQ paidAmount)%Q) /\
  ((toQ paidAmount <= toQ (PaymentAmount l))%Q ->
   (toQ (OutstandingAmount (Some l) paidAmount) + toQ paidAmount == toQ (PaymentAmount l))%Q) /\
  OutstandingAmount None paidAmount = Zero.
Proof.
  unfold OutstandingAmount.
  destruct (bill_value (PaymentAmount l) paidAmount) as [B _].
  cbv zeta. set (o := if IsNegative _ then _ else _) in *.
  assert (N : (0 <= toQ o)%Q) by (rewrite B; apply billQ_nonneg).
  split; [exact B|]. split; [exact N|].
  unfold billQ in B.
  destruct (Qle_bool (toQ paidAmount) (toQ (PaymentAmount l))) eqn:E.
  - apply Qle_bool_iff in E. split; [|split; [|reflexivity]].
    + rewrite B. split; intros H; lra.
    + intros _. rewrite B. ring.
  - assert (G : ~ (toQ paidAmount <= toQ (PaymentAmount l))%Q).
    { intros F. apply Qle_bool_iff in F. congruence. }
    split; [|split; [|reflexivity]].
    + rewrite B. split; intros H; [lra|reflexivity].
    + intros F. contradiction.
Qed.

(** *** Payments *)

(** The obligation [CurrentBillAmount] reaches before it subtracts the
    paid amount: it depends on the loan and the time only. *)
Lemma CurrentBillAmount_split l now :
  exists po : outcome Decimal,
    forall paid,
      CurrentBillAmount (Some l) now paid =
      (paymentObligation <- po ;;
       Ret (if IsNegative (Sub paymentObligation paid) then Zero
            else Sub paymentObligation paid)).
Proof.
  exists (if currentWeek (Some l) now <? PaymentDurationWeeks l
          then w <- weeklyPaymentAmount (Some l) ;; Mul w (NewFromInt32 (currentWeek (Some l) now))
          else Ret (PaymentAmount l)).
  intros paid. reflexivity.
Qed.

Lemma CurrentBillAmount_markedPaid l clock2 now paid :
  CurrentBillAmount (Some (markedPaid l clock2)) now paid = CurrentBillAmount (Some l) now paid.
Proof.
  unfold CurrentBillAmount, currentWeek, weeklyPaymentAmount, beginningOfWeek.
  cbn [markedPaid CreatedAt PaymentDurationWeeks PaymentAmount]. reflexivity.
Qed.

(** What a successful [MakePayment] went through. *)
Lemma MakePayment_accepted newV7 clock clock2 l now paid pay r :
  MakePayment newV7 clock clock2 (Some l) now paid pay = Ret r ->
  err r = None ->
  exists bill lp,
    CurrentBillAmount (Some l) now paid = Ret bill /\
    (0 < toQ bill)%Q /\ (toQ bill == toQ pay)%Q /\
    CreateLoanPayment newV7 clock (ID l) pay = Ok lp /\
    loanPayment r = Some lp /\
    (loanAfter r = Some l \/ loanAfter r = Some (markedPaid l clock2)).
Proof.
  unfold MakePayment.
  destruct (CurrentBillAmount (Some l) now paid) as [bill|] eqn:EB; [|discriminate].
  cbn [bind]. pose proof (CurrentBillAmount_nonneg _ _ _ _ EB) as NN.
  destruct (decimal.IsZero bill) eqn:Z0.
  { intros H. injection H as <-. discriminate. }
  assert (NZ : ~ (toQ bill == 0)%Q) by (intros F; apply IsZero_spec in F; congruence).
  destruct (Equal bill pay) eqn:EQ; simpl negb; cbv iota.
  2:{ intros H. injection H as <-. discriminate. }
  apply Equal_spec in EQ.
  destruct (CreateLoanPayment newV7 clock (ID l) pay) as [lp|e] eqn:CP.
  2:{ intros H. injection H as <-. discriminate. }
  intros H _. exists bill, lp.
  split; [reflexivity|]. split; [lra|]. split; [assumption|]. split; [reflexivity|].
  destruct (Equal (Add paid pay) (PaymentAmount l)); injection H as <-; simpl;
    split; try reflexivity; [right|left]; reflexivity.
Qed.

(** X6.  The record of a successful payment: it carries the id drawn
    for it, the loan's id, the amount paid and the clock's reading as
    both timestamps; the amount paid is the bill of that moment, which
    is positive. *)
Theorem MakePayment_record (newV7 : NewV7) (clock clock2 : time.Time) (l : Loan)
    (now : time.Time) (paidAmount paymentAmount : Decimal) (r : PaymentResult) :
  MakePayment newV7 clock clock2 (Some l) now paidAmount paymentAmount = Ret r ->
  err r = None ->
  exists paymentID bill,
    newV7 = V7 paymentID /\
    loanPayment r = Some (mkLoanPayment paymentID (ID l) paymentAmount clock clock) /\
    CurrentBillAmount (Some l) now paidAmount = Ret bill /\
    (toQ paymentAmount == toQ bill)%Q /\ (0 < toQ paymentAmount)%Q.
Proof.
  intros HM HE.
  destruct (MakePayment_accepted _ _ _ _ _ _ _ _ HM HE) as [bill [lp [EB [PB [EQ [CP [LP _]]]]]]].
  destruct newV7 as [paymentID|text]; [|discriminate].
  apply CreateLoanPayment_iff in CP. destruct CP as [-> _].
  exists paymentID, bill. split; [reflexivity|]. split; [assumption|].
  split; [assumption|]. split; lra.
Qed.

(** After an accepted payment the bill of the same moment is zero,
    for the loan as it was and as [markedPaid] leaves it. *)
Lemma bill_after_payment newV7 clock clock2 l now paid pay r :
  MakePayment newV7 clock clock2 (Some l) now paid pay = Ret r ->
  err r = None ->
  exists bill,
    (toQ bill == 0)%Q /\
    forall l', l' = l \/ l' = markedPaid l clock2 ->
      CurrentBillAmount (Some l') now (Add paid pay) = Ret bill.
Proof.
  intros HM HE.
  destruct (MakePayment_accepted _ _ _ _ _ _ _ _ HM HE) as [bill [lp [EB [PB [EQ [_ [_ LA]]]]]]].
  destruct (CurrentBillAmount_split l now) as [po Hpo].
  rewrite Hpo in EB. destruct po as [ob|]; [|discriminate]. cbn [bind] in EB.
  injection EB as EB.
  destruct (bill_value ob paid) as [BV _]. rewrite EB in BV.
  assert (OB : (toQ ob - toQ paid == toQ pay)%Q).
  { unfold billQ in BV. destruct (Qle_bool (toQ paid) (toQ ob)); lra. }
  set (paid' := Add paid pay).
  exists (if IsNegative (Sub ob paid') then Zero else Sub ob paid'). split.
  - destruct (bill_value ob paid') as [BV' _]. rewrite BV'.
    unfold billQ, paid'. rewrite (Qleb_comp _ _ (toQ_Add paid pay) _ _ (Qeq_refl _)).
    destruct (Qle_bool (toQ paid + toQ pay) (toQ ob)); [|reflexivity].
    rewrite toQ_Add. lra.
  - intros l' [->| ->]; [|rewrite CurrentBillAmount_markedPaid]; rewrite Hpo; reflexivity.
Qed.

(** X7.  A successful payment clears the bill: at the same moment, with
    the payment added to the paid amount, the bill of the loan the call
    left behind is zero, and a second payment is refused with
    [ErrLoanCurrentWeekAlreadyPaid] whatever its amount. *)
Theorem MakePayment_clears_bill (newV7 newV7' : NewV7) (clock clock2 clock' clock2' : time.Time)
    (l : Loan) (now : time.Time) (paidAmount paymentAmount again : Decimal)
    (r : PaymentResult) :
  MakePayment newV7 clock clock2 (Some l) now paidAmount paymentAmount = Ret r ->
  err r = None ->
  exists l' bill,
    loanAfter r = Some l' /\
    CurrentBillAmount (Some l') now (Add paidAmount paymentAmount) = Ret bill /\
    (toQ bill == 0)%Q /\
    MakePayment newV7' clock' clock2' (Some l') now (Add paidAmount paymentAmount) again
      = Ret (mkPaymentResult (Some l') None false
               (Some (EBusiness ErrLoanCurrentWeekAlreadyPaid))).
Proof.
  intros HM HE.
  destruct (MakePayment_accepted _ _ _ _ _ _ _ _ HM HE) as [_ [_ [_ [_ [_ [_ [_ LA]]]]]]].
  destruct (bill_after_payment _ _ _ _ _ _ _ _ HM HE) as [bill [B0 CB]].
  assert (Z0 : decimal.IsZero bill = true) by (apply IsZero_spec; assumption).
  destruct LA as [LA|LA]; [exists l|exists (markedPaid l clock2)]; exists bill;
    (split; [assumption|]); (split; [apply CB; auto|]); (split; [assumption|]);
    unfold MakePayment; rewrite CB by auto; cbn [bind]; rewrite Z0; reflexivity.
Qed.

(** *** The bill against the outstanding amount *)

Lemma OutstandingAmount_billQ l paid :
  (toQ (OutstandingAmount (Some l) paid) == billQ (toQ (PaymentAmount l)) (toQ paid))%Q.
Proof.
  unfold OutstandingAmount. destruct (bill_value (PaymentAmount l) paid) as [B _]. exact B.
Qed.

(** The bill of a loan with a positive total and at least one week:
    it is returned and lies within the total less the paid amount. *)
Lemma CurrentBillAmount_le_total l now paid :
  1 <= PaymentDurationWeeks l <= MaxInt32 ->
  (0 < toQ (PaymentAmount l))%Q ->
  roomy (PaymentAmount l) ->
  exists bill,
    CurrentBillAmount (Some l) now paid = Ret bill /\
    (toQ bill <= billQ (toQ (PaymentAmount l)) (toQ paid))%Q /\
    (PaymentDurationWeeks l <= currentWeek (Some l) now ->
     (toQ bill == billQ (toQ (PaymentAmount l)) (toQ paid))%Q).
Proof.
  intros [HW HW32] HT HR.
  destruct (CurrentBillAmount_spec l now paid HW HT HR)
    as [w [k [b [_ [_ [Hk [_ [_ [Lo [_ [EB [VB _]]]]]]]]]]]].
  exists b. split; [assumption|]. split.
  - rewrite VB. apply billQ_mono, obligationQ_le_total; try assumption. lia.
  - intros Hs. rewrite VB. apply billQ_comp. unfold obligationQ.
    destruct (Z.ltb_spec (currentWeek (Some l) now) (PaymentDurationWeeks l)); [lia|reflexivity].
Qed.

(** X8.  The bill of a validated loan never exceeds its outstanding
    amount, and is the outstanding amount once the week count has
    reached the duration. *)
Theorem CurrentBillAmount_within_outstanding (l : Loan) (now : time.Time)
    (paidAmount : Decimal) :
  validate l = None ->
  int32 (PaymentDurationWeeks l) ->
  roomy (PaymentAmount l) ->
  exists bill,
    CurrentBillAmount (Some l) now paidAmount = Ret bill /\
    (toQ bill <= toQ (OutstandingAmount (Some l) paidAmount))%Q /\
    (PaymentDurationWeeks l <= currentWeek (Some l) now ->
     (toQ bill == toQ (OutstandingAmount (Some l) paidAmount))%Q).
Proof.
  intros Hval [_ HW32] HR.
  destruct (validate_ok l Hval) as [_ [_ [_ [HW [HT _]]]]].
  destruct (CurrentBillAmount_le_total l now paidAmount (conj HW HW32) HT HR)
    as [bill [EB [Le Sat]]].
  exists bill. rewrite OutstandingAmount_billQ. repeat split; assumption.
Qed.

(** *** Runs of payments *)

(** A payment that is accepted stays within the total. *)
Lemma MakePayment_within_total newV7 clock clock2 l now paid pay r :
  1 <= PaymentDurationWeeks l <= MaxInt32 ->
  (0 < toQ (PaymentAmount l))%Q ->
  roomy (PaymentAmount l) ->
  MakePayment newV7 clock clock2 (Some l) now paid pay = Ret r ->
  err r = None ->
  (0 < toQ pay)%Q /\ (toQ paid + toQ pay <= toQ (PaymentAmount l))%Q.
Proof.
  intros HW HT HR HM HE.
  destruct (MakePayment_accepted _ _ _ _ _ _ _ _ HM HE) as [bill [lp [EB [PB [EQ _]]]]].
  destruct (CurrentBillAmount_le_total l now paid HW HT HR) as [bill' [EB' [Le _]]].
  rewrite EB in EB'. injection EB' as <-.
  split; [lra|].
  unfold billQ in Le. destruct (Qle_bool (toQ paid) (toQ (PaymentAmount l))); lra.
Qed.

Lemma paymentRun_within_total l paid tr lEnd paidEnd :
  paymentRun l paid tr lEnd paidEnd ->
  1 <= PaymentDurationWeeks l <= MaxInt32 ->
  (0 < toQ (PaymentAmount l))%Q ->
  roomy (PaymentAmount l) ->
  settledOrOpen (toQ (PaymentAmount l)) (Status l) (toQ paid) ->
  PaymentAmount lEnd = PaymentAmount l /\
  PaymentDurationWeeks lEnd = PaymentDurationWeeks l /\
  CreatedAt lEnd = CreatedAt l /\
  (toQ paid <= toQ paidEnd)%Q /\
  settledOrOpen (toQ (PaymentAmount l)) (Status lEnd) (toQ paidEnd) /\
  (forall s, In s tr -> (0 < toQ (amount s))%Q).
Proof.
  induction 1 as [l paid|l paid newV7 clock clock2 now amt r l' lp rest lEnd paidEnd
                    HM HE HL HP HR IH]; intros HW HT HRo Inv.
  - repeat split; try reflexivity; try assumption; try lra. intros s [].
  - destruct (MakePayment_within_total _ _ _ _ _ _ _ _ HW HT HRo HM HE) as [Ppos Ple].
    destruct (MakePayment_success _ _ _ _ _ _ _ _ HM HE) as [lp' [E1 [E2 [_ [_ [HC HN]]]]]].
    rewrite HP in E1. injection E1 as <-. rewrite E2 in *.
    assert (Fields : PaymentAmount l' = PaymentAmount l /\
                     PaymentDurationWeeks l' = PaymentDurationWeeks l /\
                     CreatedAt l' = CreatedAt l /\
                     settledOrOpen (toQ (PaymentAmount l)) (Status l') (toQ (Add paid amt))).
    { destruct (Qeq_dec (toQ paid + toQ amt) (toQ (PaymentAmount l))) as [C|NC].
      - destruct (HC C) as [LA _]. rewrite HL in LA. injection LA as ->.
        repeat split. right. split; [reflexivity|]. rewrite toQ_Add. assumption.
      - destruct (HN NC) as [LA _]. rewrite HL in LA. injection LA as ->.
        repeat split. destruct Inv as [[On Lt]|[Pd Eq]].
        + left. split; [assumption|]. rewrite toQ_Add. lra.
        + exfalso. lra. }
    destruct Fields as [F1 [F2 [F3 F4]]].
    destruct IH as [I1 [I2 [I3 [I4 [I5 I6]]]]].
    { rewrite F2. assumption. }
    { rewrite F1. assumption. }
    { rewrite F1. assumption. }
    { rewrite F1. assumption. }
    rewrite F1 in *. rewrite F2 in *. rewrite F3 in *.
    split; [assumption|]. split; [assumption|]. split; [assumption|].
    split; [rewrite toQ_Add in I4; lra|]. split; [assumption|].
    intros s [<-|Hin]; [exact Ppos|apply I6; assumption].
Qed.

(** X9.  Over every run of successful payments on a validated ongoing
    loan that starts with less than the total paid, the paid amount
    grows by a positive amount at each step and never exceeds the
    total; the loan ends the run paid exactly when the total has been
    paid, and it then refuses every further payment with
    [ErrLoanCurrentWeekAlreadyPaid]. *)
Theorem paymentRun_never_overpays (l : Loan) (paid : Decimal) (tr : list PaymentStep)
    (lEnd : Loan) (paidEnd : Decimal) :
  validate l = None ->
  int32 (PaymentDurationWeeks l) ->
  roomy (PaymentAmount l) ->
  Status l = LoanStatusOngoing ->
  (toQ paid < toQ (PaymentAmount l))%Q ->
  paymentRun l paid tr lEnd paidEnd ->
  (toQ paid <= toQ paidEnd <= toQ (PaymentAmount l))%Q /\
  (forall s, In s tr -> (0 < toQ (amount s))%Q) /\
  (Status lEnd = LoanStatusPaid <-> (toQ paidEnd == toQ (PaymentAmount l))%Q) /\
  (Status lEnd = LoanStatusPaid ->
   forall newV7 clock clock2 now pay,
     MakePayment newV7 clock clock2 (Some lEnd) now paidEnd pay
       = Ret (mkPaymentResult (Some lEnd) None false
                (Some (EBusiness ErrLoanCurrentWeekAlreadyPaid)))).
Proof.
  intros Hval [_ HW32] HR On Lt Run.
  destruct (validate_ok l Hval) as [_ [_ [_ [HW [HT _]]]]].
  destruct (paymentRun_within_total _ _ _ _ _ Run (conj HW HW32) HT HR)
    as [F1 [F2 [F3 [Ge [Inv Pos]]]]].
  { left. split; assumption. }
  assert (St : Status lEnd = LoanStatusPaid <-> (toQ paidEnd == toQ (PaymentAmount l))%Q).
  { destruct Inv as [[On' Lt']|[Pd Eq]]; split; intros H; try assumption.
    - rewrite On' in H. discriminate.
    - lra. }
  split; [destruct Inv as [[_ Lt']|[_ Eq]]; lra|].
  split; [assumption|]. split; [assumption|].
  intros Pd newV7 clock clock2 now pay. apply St in Pd.
  destruct (CurrentBillAmount_le_total lEnd now paidEnd) as [bill [EB [Le _]]].
  { rewrite F2. split; assumption. }
  { rewrite F1. assumption. }
  { rewrite F1. assumption. }
  rewrite F1 in Le.
  pose proof (CurrentBillAmount_nonneg _ _ _ _ EB) as NN.
  assert (Z0 : decimal.IsZero bill = true).
  { apply IsZero_spec. unfold billQ in Le.
    destruct (Qle_bool (toQ paidEnd) (toQ (PaymentAmount l))); lra. }
  unfold MakePayment. rewrite EB. cbn [bind]. rewrite Z0. reflexivity.
Qed.

(** *** The weekly amount *)

(** The weekly amount is at least one unit when the total is at least
    the number of weeks. *)
Lemma weekly_positive l :
  1 <= PaymentDurationWeeks l ->
  (0 < toQ (PaymentAmount l))%Q ->
  roomy (PaymentAmount l) ->
  (inject_Z (PaymentDurationWeeks l) <= toQ (PaymentAmount l))%Q ->
  exists w k, weeklyPaymentAmount (Some l) = Ret w /\ (toQ w == inject_Z k)%Q /\ 1 <= k.
Proof.
  intros HW HT HR Big.
  destruct (weekly_spec l HW HT HR) as [w [k [Ew [Ek [Hk [_ [_ [Lo Hi]]]]]]]].
  exists w, k. split; [assumption|]. split; [assumption|].
  assert (PW : (0 < inject_Z (PaymentDurationWeeks l))%Q) by (apply injZ_pos; lia).
  assert (Q1 : (1 <= toQ (PaymentAmount l) / inject_Z (PaymentDurationWeeks l))%Q).
  { apply Qle_shift_div_l; [assumption|]. lra. }
  assert (F : (inject_Z 0 < inject_Z k)%Q).
  { change (inject_Z 0) with 0%Q. unfold half16 in Hi. lra. }
  rewrite <- Zlt_Qlt in F. lia.
Qed.

Lemma IsDelinquent_total l now paid :
  validate l = None ->
  int32 (PaymentDurationWeeks l) ->
  roomy (PaymentAmount l) -> roomy paid -> (0 <= toQ paid)%Q ->
  (inject_Z (PaymentDurationWeeks l) <= toQ (PaymentAmount l))%Q ->
  exists b, IsDelinquent (Some l) now paid = Ret b.
Proof.
  intros Hval HW32 HR HRp Hp Big.
  destruct (validate_ok l Hval) as [_ [_ [_ [HW [HT _]]]]].
  destruct (weekly_positive l HW HT HR Big) as [w [k [Ew [Ek Hk]]]].
  assert (W1 : (1 <= toQ w)%Q).
  { rewrite Ek. change 1%Q with (inject_Z 1). rewrite <- Zle_Qle. assumption. }
  destruct (IsDelinquent_spec l now paid Hval HW32 HR HRp Hp)
    as [w' [bill [Ew' [_ [Early [Late _]]]]]].
  rewrite Ew in Ew'. injection Ew' as <-.
  destruct (Z.eq_dec (Status l) LoanStatusPaid) as [Pd|NPd].
  { exists false. apply Early. left. assumption. }
  destruct (Qeq_dec (toQ (PaymentAmount l)) (toQ paid)) as [Eq|NEq].
  { exists false. apply Early. right. assumption. }
  destruct (Late NPd NEq) as [b [Hb _]]; [lra|].
  exists b. assumption.
Qed.

(** X10.  On a validated loan whose total is at least its number of
    weeks the weekly amount is not zero, and [IsDelinquent] returns at
    every time and for every paid amount that is not negative. *)
Theorem IsDelinquent_returns (l : Loan) (now : time.Time) (paidAmount : Decimal) :
  validate l = None ->
  int32 (PaymentDurationWeeks l) ->
  roomy (PaymentAmount l) -> roomy paidAmount -> (0 <= toQ paidAmount)%Q ->
  (inject_Z (PaymentDurationWeeks l) <= toQ (PaymentAmount l))%Q ->
  (exists w, weeklyPaymentAmount (Some l) = Ret w /\ (1 <= toQ w)%Q) /\
  (exists b, IsDelinquent (Some l) now paidAmount = Ret b).
Proof.
  intros Hval HW32 HR HRp Hp Big.
  destruct (validate_ok l Hval) as [_ [_ [_ [HW [HT _]]]]].
  destruct (weekly_positive l HW HT HR Big) as [w [k [Ew [Ek Hk]]]].
  split; [|apply IsDelinquent_total; assumption].
  exists w. split; [assumption|].
  rewrite Ek. change 1%Q with (inject_Z 1). rewrite <- Zle_Qle. assumption.
Qed.

(** X11.  During the term of a validated ongoing loan, a borrower who has
    paid [j] whole weekly amounts is delinquent exactly when at least
    three weeks are unpaid. *)
Theorem IsDelinquent_unpaid_weeks (l : Loan) (now : time.Time) (paidAmount w : Decimal)
    (j : Z) :
  validate l = None ->
  int32 (PaymentDurationWeeks l) ->
  roomy (PaymentAmount l) -> roomy paidAmount ->
  Status l = LoanStatusOngoing ->
  weeklyPaymentAmount (Some l) = Ret w -> ~ (toQ w == 0)%Q ->
  0 <= j -> (toQ paidAmount == inject_Z j * toQ w)%Q ->
  currentWeek (Some l) now < PaymentDurationWeeks l ->
  IsDelinquent (Some l) now paidAmount = Ret (3 <=? currentWeek (Some l) now - j).
Proof.
  intros Hval HW32 HR HRp On Ew NZ Hj Hpaid Hweek.
  destruct (validate_ok l Hval) as [_ [_ [_ [HW [HT _]]]]].
  destruct (CurrentBillAmount_spec l now paidAmount HW HT HR)
    as [w' [k [bill [Ew' [Ek [Hk [_ [_ [Lo [Hi [EB [VB _]]]]]]]]]]]].
  rewrite Ew in Ew'. injection Ew' as <-.
  assert (Hk1 : 1 <= k).
  { destruct (Z.eq_dec k 0) as [->|]; [|lia]. exfalso. apply NZ. rewrite Ek. reflexivity. }
  assert (Pk : (1 <= inject_Z k)%Q).
  { change 1%Q with (inject_Z 1). rewrite <- Zle_Qle. assumption. }
  assert (Pj : (0 <= inject_Z j)%Q).
  { change 0%Q with (inject_Z 0). rewrite <- Zle_Qle. assumption. }
  assert (Hp : (0 <= toQ paidAmount)%Q).
  { rewrite Hpaid, Ek. apply Qmult_le_0_compat; lra. }
  set (week := currentWeek (Some l) now) in *.
  unfold obligationQ in VB.
  destruct (Z.ltb_spec week (PaymentDurationWeeks l)) as [_|F]; [|lia].
  (* the bill in whole weekly amounts *)
  assert (Epaid : (toQ paidAmount == inject_Z (k * j))%Q).
  { rewrite Hpaid, Ek, inject_Z_mult. ring. }
  assert (Ebill : (toQ bill == inject_Z (k * Z.max (week - j) 0))%Q).
  { rewrite VB. unfold billQ.
    rewrite (Qleb_comp _ _ Epaid _ _ (Qeq_refl _)).
    destruct (Qle_bool (inject_Z (k * j)) (inject_Z (k * week))) eqn:E.
    - apply Qle_bool_iff in E. rewrite <- Zle_Qle in E.
      rewrite Epaid. rewrite Z.max_l by nia.
      replace (k * (week - j)) with (k * week - k * j) by ring.
      unfold Z.sub. rewrite inject_Z_plus, inject_Z_opp. reflexivity.
    - assert (G : ~ (inject_Z (k * j) <= inject_Z (k * week))%Q).
      { intros G. apply Qle_bool_iff in G. congruence. }
      rewrite <- Zle_Qle in G. rewrite Z.max_r by nia.
      rewrite Z.mul_0_r. reflexivity. }
  assert (Equot : (toQ bill / toQ w == inject_Z (Z.max (week - j) 0))%Q).
  { rewrite Ebill, Ek, inject_Z_mult. field. lra. }
  destruct (Qeq_dec (toQ (PaymentAmount l)) (toQ paidAmount)) as [Eq|NEq].
  - (* everything paid: j has passed the number of weeks *)
    assert (F : Equal (PaymentAmount l) paidAmount = true) by (apply Equal_spec; assumption).
    unfold IsDelinquent. rewrite F, orb_true_r.
    assert (W32 : 1 <= PaymentDurationWeeks l <= MaxInt32) by (destruct HW32; lia).
    assert (NW : ~ (j < PaymentDurationWeeks l)).
    { intros Lt.
      pose proof (weekly_below_total (toQ (PaymentAmount l)) (PaymentDurationWeeks l)
                    k j W32 Hk Lt Lo HT) as B.
      assert (S : (toQ (PaymentAmount l) / inject_Z (PaymentDurationWeeks l) + half16
                   < inject_Z k + 1)%Q) by exact Hi.
      (* the total is the paid amount k*j, and j < W *)
      assert (PW : (0 < inject_Z (PaymentDurationWeeks l))%Q) by (apply injZ_pos; lia).
      assert (TW : (inject_Z k * inject_Z (PaymentDurationWeeks l)
                    <= toQ (PaymentAmount l) + half16 * inject_Z (PaymentDurationWeeks l))%Q).
      { assert (E : ((toQ (PaymentAmount l) / inject_Z (PaymentDurationWeeks l) + half16)
                     * inject_Z (PaymentDurationWeeks l)
                     == toQ (PaymentAmount l) + half16 * inject_Z (PaymentDurationWeeks l))%Q)
          by (field; lra).
        rewrite <- E. apply Qmult_le_compat_r; [assumption|lra]. }
      assert (HB : (half16 * inject_Z (PaymentDurationWeeks l) < 1)%Q).
      { unfold half16, MaxInt32 in *.
        assert (inject_Z (PaymentDurationWeeks l) <= inject_Z 2147483647)%Q
          by (rewrite <- Zle_Qle; lia).
        change (inject_Z 2147483647) with 2147483647%Q in H. lra. }
      assert (C : k * j <= k * PaymentDurationWeeks l - k) by nia.
      rewrite Zle_Qle in C. unfold Z.sub in C.
      rewrite inject_Z_plus, inject_Z_opp, !inject_Z_mult in C.
      rewrite Eq, Epaid, inject_Z_mult in TW.
      set (kw := (inject_Z k * inject_Z (PaymentDurationWeeks l))%Q) in *.
      set (kj := (inject_Z k * inject_Z j)%Q) in *.
      set (hw := (half16 * inject_Z (PaymentDurationWeeks l))%Q) in *. lra. }
    replace (3 <=? week - j) with false; [reflexivity|].
    symmetry. apply Z.leb_gt. lia.
  - destruct (IsDelinquent_spec l now paidAmount Hval HW32 HR HRp Hp)
      as [w' [bill' [Ew' [EB' [_ [Late _]]]]]].
    rewrite Ew in Ew'. injection Ew' as <-.
    rewrite EB in EB'. injection EB' as <-.
    destruct Late as [b [Hb Iff]]; [rewrite On; discriminate|assumption|assumption|].
    rewrite Hb. f_equal.
    destruct (Z.leb_spec 3 (week - j)) as [Ge|Lt].
    + apply Iff. rewrite Equot. unfold half16.
      assert (G : (inject_Z 3 <= inject_Z (Z.max (week - j) 0))%Q)
        by (rewrite <- Zle_Qle; lia).
      change (inject_Z 3) with 3%Q in G. lra.
    + destruct b; [|reflexivity]. exfalso.
      assert (T : true = true) by reflexivity. apply Iff in T.
      rewrite Equot in T. unfold half16 in T.
      assert (G : (inject_Z (Z.max (week - j) 0) <= inject_Z 2)%Q)
        by (rewrite <- Zle_Qle; lia).
      change (inject_Z 2) with 2%Q in G. lra.
Qed.

(** X12.  When the total of a validated loan has at most six decimal
    places, the weekly amount is exactly the floor of total / weeks:
    the weekly amounts of all weeks together never exceed the total,
    and what they leave for the last week is less than one unit per
    week. *)
Theorem weeklyPaymentAmount_exact (l : Loan) :
  validate l = None ->
  int32 (PaymentDurationWeeks l) ->
  roomy (PaymentAmount l) ->
  -6 <= exp (PaymentAmount l) ->
  exists w,
    weeklyPaymentAmount (Some l) = Ret w /\
    (toQ w == inject_Z (Qfloor (toQ (PaymentAmount l) / inject_Z (PaymentDurationWeeks l))))%Q /\
    (toQ w * inject_Z (PaymentDurationWeeks l) <= toQ (PaymentAmount l))%Q /\
    (toQ (PaymentAmount l) < (toQ w + 1) * inject_Z (PaymentDurationWeeks l))%Q.
Proof.
  intros Hval [_ HW32] HR He.
  destruct (validate_ok l Hval) as [_ [_ [_ [HW [HT _]]]]].
  destruct (weeklyPaymentAmount_floor l (conj HW HW32) HT HR He) as [w [Ew Eq]].
  exists w. split; [assumption|]. split; [assumption|].
  set (T := toQ (PaymentAmount l)) in *. set (W := inject_Z (PaymentDurationWeeks l)) in *.
  assert (PW : (0 < W)%Q) by (apply injZ_pos; lia).
  pose proof (Qfloor_le (T / W)) as FL. pose proof (Qlt_floor (T / W)) as FU.
  rewrite inject_Z_plus in FU. change (inject_Z 1) with 1%Q in FU.
  assert (E : (T == T / W * W)%Q) by (field; lra).
  rewrite Eq. split.
  - rewrite E at 2. apply Qmult_le_compat_r; [assumption|lra].
  - rewrite E at 1. apply Qmult_lt_compat_r; assumption.
Qed.

(** *** Acceptance of a payment *)

(** X13.  Once the bill is computed, [MakePayment] returns, and it
    succeeds exactly when the bill is not zero, the payment equals it,
    an id was drawn for the payment, the loan has an id and the clock
    does not read the zero time. *)
Theorem MakePayment_succeeds (newV7 : NewV7) (clock clock2 : time.Time) (l : Loan)
    (now : time.Time) (paidAmount paymentAmount bill : Decimal) :
  CurrentBillAmount (Some l) now paidAmount = Ret bill ->
  exists r,
    MakePayment newV7 clock clock2 (Some l) now paidAmount paymentAmount = Ret r /\
    (err r = None <->
     ~ (toQ bill == 0)%Q /\ (toQ paymentAmount == toQ bill)%Q /\
     exists paymentID,
       newV7 = V7 paymentID /\ paymentID <> uuid_Nil /\ ID l <> uuid_Nil /\
       time.IsZero clock = false).
Proof.
  intros EB. unfold MakePayment. rewrite EB. cbn [bind].
  pose proof (CurrentBillAmount_nonneg _ _ _ _ EB) as NN.
  destruct (decimal.IsZero bill) eqn:Z0.
  { apply IsZero_spec in Z0. eexists. split; [reflexivity|]. cbn [err].
    split; [discriminate|]. intros [F _]. contradiction. }
  assert (NZ : ~ (toQ bill == 0)%Q) by (intros F; apply IsZero_spec in F; congruence).
  destruct (Equal bill paymentAmount) eqn:EQ; cbn [negb]; cbv iota.
  2:{ apply Equal_false in EQ. eexists. split; [reflexivity|]. cbn [err].
      split; [discriminate|]. intros [_ [F _]]. exfalso. apply EQ. symmetry. assumption. }
  apply Equal_spec in EQ.
  destruct (CreateLoanPayment newV7 clock (ID l) paymentAmount) as [lp|e] eqn:CP.
  - assert (G : exists paymentID, newV7 = V7 paymentID /\ paymentID <> uuid_Nil /\
                  ID l <> uuid_Nil /\ time.IsZero clock = false).
    { destruct newV7 as [paymentID|text]; [|discriminate].
      apply CreateLoanPayment_iff in CP. destruct CP as [_ [A [B [_ C]]]].
      exists paymentID. repeat split; assumption. }
    destruct (Equal (Add paidAmount paymentAmount) (PaymentAmount l));
      (eexists; split; [reflexivity|]; cbn [err]; split; [intros _|reflexivity];
       split; [assumption|]; split; [symmetry; assumption|assumption]).
  - eexists. split; [reflexivity|]. cbn [err]. split; [discriminate|].
    intros [_ [_ [paymentID [-> [A [B C]]]]]].
    assert (F : CreateLoanPayment (V7 paymentID) clock (ID l) paymentAmount
                = Ok (mkLoanPayment paymentID (ID l) paymentAmount clock clock)).
    { apply CreateLoanPayment_iff. repeat split; try assumption. lra. }
    rewrite CP in F. discriminate.
Qed.

(** *** The first week and the passing of time *)

(** X14.  From its creation to the end of the calendar week it was
    created in, a validated loan is in week 0: with a paid amount that
    is not negative its bill is zero, and every payment is refused with
    [ErrLoanCurrentWeekAlreadyPaid]. *)
Theorem nothing_due_in_creation_week (l : Loan) (now : time.Time) (paidAmount : Decimal) :
  validate l = None ->
  int32 (PaymentDurationWeeks l) ->
  roomy (PaymentAmount l) -> (0 <= toQ paidAmount)%Q ->
  CreatedAt l <= now < beginningOfWeek l + time.Week ->
  currentWeek (Some l) now = 0 /\
  (exists bill, CurrentBillAmount (Some l) now paidAmount = Ret bill /\ (toQ bill == 0)%Q) /\
  (forall newV7 clock clock2 paymentAmount,
     MakePayment newV7 clock clock2 (Some l) now paidAmount paymentAmount
       = Ret (mkPaymentResult (Some l) None false
                (Some (EBusiness ErrLoanCurrentWeekAlreadyPaid)))).
Proof.
  intros Hval HW32 HR Hp Hnow.
  destruct (validate_ok l Hval) as [_ [_ [_ [HW [HT _]]]]].
  destruct (beginningOfWeek_monday l) as [_ [_ Ha]].
  assert (W0 : currentWeek (Some l) now = 0).
  { unfold currentWeek. apply weeksOf_week0.
    set (a := beginningOfWeek l) in *.
    unfold time.Sub, time.minDuration, time.maxDuration.
    change (2 ^ 63) with 9223372036854775808.
    change time.Week with 604800000000000 in *. lia. }
  split; [assumption|].
  destruct (CurrentBillAmount_spec l now paidAmount HW HT HR)
    as [w [k [bill [_ [_ [_ [_ [_ [_ [_ [EB [VB _]]]]]]]]]]]].
  assert (B0 : (toQ bill == 0)%Q).
  { rewrite VB, W0. unfold obligationQ.
    destruct (Z.ltb_spec 0 (PaymentDurationWeeks l)) as [_|F]; [|lia].
    rewrite Z.mul_0_r. unfold billQ. change (inject_Z 0) with 0%Q.
    destruct (Qle_bool (toQ paidAmount) 0) eqn:E; [|reflexivity].
    apply Qle_bool_iff in E. lra. }
  split; [exists bill; split; assumption|].
  intros newV7 clock clock2 paymentAmount. unfold MakePayment. rewrite EB. cbn [bind].
  assert (Z0 : decimal.IsZero bill = true) by (apply IsZero_spec; assumption).
  rewrite Z0. reflexivity.
Qed.

Lemma Div_by_zero a b : value b = 0 -> Div a b = Panic.
Proof. intros H. unfold Div, DivRound, QuoRem. rewrite H. reflexivity. Qed.

(** X15.  While the paid amount stays the same, delinquency persists: a
    validated loan that is delinquent at one time is delinquent at
    every later time. *)
Theorem IsDelinquent_persists (l : Loan) (now1 now2 : time.Time) (paidAmount : Decimal) :
  validate l = None ->
  int32 (PaymentDurationWeeks l) ->
  roomy (PaymentAmount l) -> roomy paidAmount -> (0 <= toQ paidAmount)%Q ->
  now1 <= now2 ->
  IsDelinquent (Some l) now1 paidAmount = Ret true ->
  IsDelinquent (Some l) now2 paidAmount = Ret true.
Proof.
  intros Hval HW32 HR HRp Hp Hnow D1.
  destruct (validate_ok l Hval) as [_ [_ [_ [HW [HT _]]]]].
  destruct (IsDelinquent_spec l now1 paidAmount Hval HW32 HR HRp Hp)
    as [w [bill1 [Ew [EB1 [Early1 [Late1 _]]]]]].
  destruct (IsDelinquent_spec l now2 paidAmount Hval HW32 HR HRp Hp)
    as [w' [bill2 [Ew' [EB2 [_ [Late2 _]]]]]].
  rewrite Ew in Ew'. injection Ew' as <-.
  assert (NPd : Status l <> LoanStatusPaid).
  { intros F. rewrite (Early1 (or_introl F)) in D1. discriminate. }
  assert (NEq : ~ (toQ (PaymentAmount l) == toQ paidAmount)%Q).
  { intros F. rewrite (Early1 (or_intror F)) in D1. discriminate. }
  assert (NZ : ~ (toQ w == 0)%Q).
  { intros F. apply (toQ_sign w) in F.
    unfold IsDelinquent in D1.
    assert (E1 : (Status l =? LoanStatusPaid) = false) by (apply Z.eqb_neq; assumption).
    assert (E2 : Equal (PaymentAmount l) paidAmount = false) by (apply Equal_false; assumption).
    rewrite E1, E2 in D1. cbn [orb] in D1. cbv iota in D1.
    rewrite EB1 in D1. cbn [bind] in D1. rewrite Ew in D1. cbn [bind] in D1.
    rewrite (Div_by_zero bill1 w F) in D1. discriminate. }
  destruct (Late1 NPd NEq NZ) as [b1 [Hb1 Iff1]].
  destruct (Late2 NPd NEq NZ) as [b2 [Hb2 Iff2]].
  rewrite Hb1 in D1. injection D1 as ->. rewrite Hb2. f_equal. apply Iff2.
  assert (Q1 : ((5 # 2) - half16 <= toQ bill1 / toQ w)%Q) by (apply Iff1; reflexivity).
  (* the bill has not decreased *)
  destruct (CurrentBillAmount_spec l now1 paidAmount HW HT HR)
    as [w1 [k [b1' [Ew1 [Ek [Hk [_ [_ [Lo [_ [EB1' [VB1 _]]]]]]]]]]]].
  destruct (CurrentBillAmount_spec l now2 paidAmount HW HT HR)
    as [w2 [k' [b2' [Ew2 [Ek' [_ [_ [_ [_ [_ [EB2' [VB2 _]]]]]]]]]]]].
  rewrite Ew in Ew1, Ew2. injection Ew1 as <-. injection Ew2 as <-.
  rewrite EB1 in EB1'. injection EB1' as <-. rewrite EB2 in EB2'. injection EB2' as <-.
  assert (k' = k).
  { rewrite Ek in Ek'. apply (proj1 (inject_Z_injective _ _)) in Ek'. congruence. }
  subst k'.
  assert (Mono : (toQ bill1 <= toQ bill2)%Q).
  { rewrite VB1, VB2. apply billQ_mono, obligationQ_mono; try assumption.
    - destruct HW32. split; assumption.
    - apply currentWeek_mono. assumption. }
  assert (Pw : (0 < toQ w)%Q).
  { rewrite Ek in *. assert (0 <= inject_Z k)%Q.
    { change 0%Q with (inject_Z 0). rewrite <- Zle_Qle. assumption. }
    destruct (Qlt_le_dec 0 (inject_Z k)) as [P|N]; [assumption|].
    exfalso. apply NZ. lra. }
  apply Qle_trans with (toQ bill1 / toQ w)%Q; [assumption|].
  unfold Qdiv. apply Qmult_le_compat_r; [assumption|].
  apply Qlt_le_weak, Qinv_lt_0_compat. assumption.
Qed.

(** *** Instances *)

(** The first weekly amount of [mondayLoan], paid in week 1. *)
Lemma mondayLoan_first_payment :
  MakePayment (V7 11%N) 5 6 (Some mondayLoan) (time.Date 2023 5 8 0 0 0 0) Zero
              (NewFromInt 110)
  = Ret (mkPaymentResult (Some mondayLoan)
           (Some (mkLoanPayment 11%N 7%N (NewFromInt 110) 5 5)) false None).
Proof. vm_compute. reflexivity. Qed.

Lemma MakePayment_record_witness :
  let r := mkPaymentResult (Some mondayLoan)
             (Some (mkLoanPayment 11%N 7%N (NewFromInt 110) 5 5)) false None in
  MakePayment (V7 11%N) 5 6 (Some mondayLoan) (time.Date 2023 5 8 0 0 0 0) Zero
              (NewFromInt 110) = Ret r /\
  err r = None /\
  exists paymentID bill,
    V7 11%N = V7 paymentID /\
    loanPayment r = Some (mkLoanPayment paymentID (ID mondayLoan) (NewFromInt 110) 5 5) /\
    CurrentBillAmount (Some mondayLoan) (time.Date 2023 5 8 0 0 0 0) Zero = Ret bill /\
    (toQ (NewFromInt 110) == toQ bill)%Q /\ (0 < toQ (NewFromInt 110))%Q.
Proof.
  cbv zeta. split; [exact mondayLoan_first_payment|]. split; [reflexivity|].
  exact (MakePayment_record _ _ _ _ _ _ _ _ mondayLoan_first_payment eq_refl).
Defined.

Lemma MakePayment_clears_bill_witness :
  let r := mkPaymentResult (Some mondayLoan)
             (Some (mkLoanPayment 11%N 7%N (NewFromInt 110) 5 5)) false None in
  MakePayment (V7 11%N) 5 6 (Some mondayLoan) (time.Date 2023 5 8 0 0 0 0) Zero
              (NewFromInt 110) = Ret r /\
  err r = None /\
  exists l' bill,
    loanAfter r = Some l' /\
    CurrentBillAmount (Some l') (time.Date 2023 5 8 0 0 0 0) (Add Zero (NewFromInt 110))
      = Ret bill /\
    (toQ bill == 0)%Q.
Proof.
  cbv zeta. split; [exact mondayLoan_first_payment|]. split; [reflexivity|].
  destruct (MakePayment_clears_bill (V7 11%N) (V7 12%N) 5 6 7 8 mondayLoan
              (time.Date 2023 5 8 0 0 0 0) Zero (NewFromInt 110) (NewFromInt 110) _
              mondayLoan_first_payment eq_refl) as [l' [bill [A [B [C _]]]]].
  exists l', bill. repeat split; assumption.
Defined.

Lemma mondayLoan_checked :
  validate mondayLoan = None /\ int32 (PaymentDurationWeeks mondayLoan) /\
  roomy (PaymentAmount mondayLoan) /\ roomy (NewFromInt 110) /\
  (0 <= toQ (NewFromInt 110))%Q /\
  (inject_Z (PaymentDurationWeeks mondayLoan) <= toQ (PaymentAmount mondayLoan))%Q.
Proof.
  split; [reflexivity|]. split; [split; discriminate|].
  split; [split; discriminate|]. split; [split; discriminate|].
  split; discriminate.
Qed.

Lemma CurrentBillAmount_within_outstanding_witness :
  validate mondayLoan = None /\ int32 (PaymentDurationWeeks mondayLoan) /\
  roomy (PaymentAmount mondayLoan) /\
  exists bill,
    CurrentBillAmount (Some mondayLoan) (time.Date 2023 5 29 0 0 0 0) (NewFromInt 110)
      = Ret bill /\
    (toQ bill <= toQ (OutstandingAmount (Some mondayLoan) (NewFromInt 110)))%Q.
Proof.
  destruct mondayLoan_checked as [H1 [H2 [H3 _]]].
  split; [exact H1|]. split; [exact H2|]. split; [exact H3|].
  destruct (CurrentBillAmount_within_outstanding mondayLoan (time.Date 2023 5 29 0 0 0 0)
              (NewFromInt 110) H1 H2 H3) as [bill [A [B _]]].
  exists bill. split; assumption.
Defined.

Lemma twoWeekLoan_checked :
  validate twoWeekLoan = None /\ int32 (PaymentDurationWeeks twoWeekLoan) /\
  roomy (PaymentAmount twoWeekLoan) /\ Status twoWeekLoan = LoanStatusOngoing /\
  (toQ Zero < toQ (PaymentAmount twoWeekLoan))%Q.
Proof.
  split; [reflexivity|]. split; [split; discriminate|].
  split; [split; discriminate|]. split; reflexivity.
Qed.

Lemma paymentRun_never_overpays_witness :
  validate twoWeekLoan = None /\ int32 (PaymentDurationWeeks twoWeekLoan) /\
  roomy (PaymentAmount twoWeekLoan) /\ Status twoWeekLoan = LoanStatusOngoing /\
  (toQ Zero < toQ (PaymentAmount twoWeekLoan))%Q /\
  exists tr lEnd paidEnd,
    paymentRun twoWeekLoan Zero tr lEnd paidEnd /\
    (toQ Zero <= toQ paidEnd <= toQ (PaymentAmount twoWeekLoan))%Q /\
    (Status lEnd = LoanStatusPaid <-> (toQ paidEnd == toQ (PaymentAmount twoWeekLoan))%Q).
Proof.
  destruct twoWeekLoan_checked as [H1 [H2 [H3 [H4 H5]]]].
  split; [exact H1|]. split; [exact H2|]. split; [exact H3|]. split; [exact H4|].
  split; [exact H5|].
  destruct paymentRun_example as [tr [lEnd [paidEnd [Run _]]]].
  destruct (paymentRun_never_overpays twoWeekLoan Zero tr lEnd paidEnd H1 H2 H3 H4 H5 Run)
    as [A [_ [B _]]].
  exists tr, lEnd, paidEnd. repeat split; try assumption; apply A || apply B.
Defined.

Lemma IsDelinquent_returns_witness :
  validate mondayLoan = None /\ int32 (PaymentDurationWeeks mondayLoan) /\
  roomy (PaymentAmount mondayLoan) /\ roomy (NewFromInt 110) /\
  (0 <= toQ (NewFromInt 110))%Q /\
  (inject_Z (PaymentDurationWeeks mondayLoan) <= toQ (PaymentAmount mondayLoan))%Q /\
  exists b, IsDelinquent (Some mondayLoan) (time.Date 2023 5 29 0 0 0 0) (NewFromInt 110)
            = Ret b.
Proof.
  destruct mondayLoan_checked as [H1 [H2 [H3 [H4 [H5 H6]]]]].
  split; [exact H1|]. split; [exact H2|]. split; [exact H3|]. split; [exact H4|].
  split; [exact H5|]. split; [exact H6|].
  exact (proj2 (IsDelinquent_returns mondayLoan (time.Date 2023 5 29 0 0 0 0)
                  (NewFromInt 110) H1 H2 H3 H4 H5 H6)).
Defined.

Lemma mondayLoan_weekly :
  weeklyPaymentAmount (Some mondayLoan) = Ret (decimal.New 1100000000000000000 (-16)) /\
  ~ (toQ (decimal.New 1100000000000000000 (-16)) == 0)%Q /\
  (toQ (NewFromInt 110) == inject_Z 1 * toQ (decimal.New 1100000000000000000 (-16)))%Q /\
  currentWeek (Some mondayLoan) (time.Date 2023 5 29 0 0 0 0) = 4.
Proof.
  split; [vm_compute; reflexivity|]. split; [discriminate|].
  split; [reflexivity|]. vm_compute. reflexivity.
Qed.

Lemma IsDelinquent_unpaid_weeks_witness :
  validate mondayLoan = None /\ int32 (PaymentDurationWeeks mondayLoan) /\
  roomy (PaymentAmount mondayLoan) /\ roomy (NewFromInt 110) /\
  Status mondayLoan = LoanStatusOngoing /\
  weeklyPaymentAmount (Some mondayLoan) = Ret (decimal.New 1100000000000000000 (-16)) /\
  0 <= 1 /\
  IsDelinquent (Some mondayLoan) (time.Date 2023 5 29 0 0 0 0) (NewFromInt 110)
    = Ret (3 <=? currentWeek (Some mondayLoan) (time.Date 2023 5 29 0 0 0 0) - 1).
Proof.
  destruct mondayLoan_checked as [H1 [H2 [H3 [H4 _]]]].
  destruct mondayLoan_weekly as [W1 [W2 [W3 W4]]].
  split; [exact H1|]. split; [exact H2|]. split; [exact H3|]. split; [exact H4|].
  split; [reflexivity|]. split; [exact W1|]. split; [discriminate|].
  apply (IsDelinquent_unpaid_weeks mondayLoan (time.Date 2023 5 29 0 0 0 0) (NewFromInt 110)
           (decimal.New 1100000000000000000 (-16)) 1 H1 H2 H3 H4 eq_refl W1 W2);
    [discriminate|exact W3|rewrite W4; reflexivity].
Defined.

Lemma weeklyPaymentAmount_exact_witness :
  validate mondayLoan = None /\ int32 (PaymentDurationWeeks mondayLoan) /\
  roomy (PaymentAmount mondayLoan) /\ -6 <= exp (PaymentAmount mondayLoan) /\
  exists w,
    weeklyPaymentAmount (Some mondayLoan) = Ret w /\
    (toQ w * inject_Z (PaymentDurationWeeks mondayLoan) <= toQ (PaymentAmount mondayLoan))%Q.
Proof.
  destruct mondayLoan_checked as [H1 [H2 [H3 _]]].
  assert (H4 : -6 <= exp (PaymentAmount mondayLoan)) by discriminate.
  split; [exact H1|]. split; [exact H2|]. split; [exact H3|]. split; [exact H4|].
  destruct (weeklyPaymentAmount_exact mondayLoan H1 H2 H3 H4) as [w [A [_ [B _]]]].
  exists w. split; assumption.
Defined.

Lemma MakePayment_succeeds_witness :
  CurrentBillAmount (Some mondayLoan) (time.Date 2023 5 8 0 0 0 0) Zero
    = Ret (decimal.New 1100000000000000000 (-16)) /\
  exists r,
    MakePayment (V7 11%N) 5 6 (Some mondayLoan) (time.Date 2023 5 8 0 0 0 0) Zero
                (NewFromInt 110) = Ret r /\
    err r = None.
Proof.
  assert (H : CurrentBillAmount (Some mondayLoan) (time.Date 2023 5 8 0 0 0 0) Zero
              = Ret (decimal.New 1100000000000000000 (-16))) by (vm_compute; reflexivity).
  split; [exact H|].
  destruct (MakePayment_succeeds (V7 11%N) 5 6 mondayLoan (time.Date 2023 5 8 0 0 0 0) Zero
              (NewFromInt 110) _ H) as [r [E Iff]].
  exists r. split; [exact E|]. apply Iff.
  split; [discriminate|]. split; [reflexivity|].
  exists 11%N. repeat split; discriminate.
Defined.

Lemma nothing_due_in_creation_week_witness :
  let now := time.Date 2023 5 4 12 0 0 0 in
  validate mondayLoan = None /\ int32 (PaymentDurationWeeks mondayLoan) /\
  roomy (PaymentAmount mondayLoan) /\ (0 <= toQ Zero)%Q /\
  CreatedAt mondayLoan <= now < beginningOfWeek mondayLoan + time.Week /\
  currentWeek (Some mondayLoan) now = 0.
Proof.
  cbv zeta.
  destruct mondayLoan_checked as [H1 [H2 [H3 _]]].
  assert (H4 : (0 <= toQ Zero)%Q) by discriminate.
  assert (H5 : CreatedAt mondayLoan <= time.Date 2023 5 4 12 0 0 0
               < beginningOfWeek mondayLoan + time.Week)
    by (split; [vm_compute; discriminate|vm_compute; reflexivity]).
  split; [exact H1|]. split; [exact H2|]. split; [exact H3|]. split; [exact H4|].
  split; [exact H5|].
  exact (proj1 (nothing_due_in_creation_week mondayLoan _ Zero H1 H2 H3 H4 H5)).
Defined.

Lemma mondayLoan_delinquent :
  IsDelinquent (Some mondayLoan) (time.Date 2023 5 29 0 0 0 0) (NewFromInt 110) = Ret true /\
  time.Date 2023 5 29 0 0 0 0 <= time.Date 2023 6 12 0 0 0 0.
Proof. split; [vm_compute; reflexivity|vm_compute; discriminate]. Qed.

Lemma IsDelinquent_persists_witness :
  validate mondayLoan = None /\ int32 (PaymentDurationWeeks mondayLoan) /\
  roomy (PaymentAmount mondayLoan) /\ roomy (NewFromInt 110) /\
  (0 <= toQ (NewFromInt 110))%Q /\
  time.Date 2023 5 29 0 0 0 0 <= time.Date 2023 6 12 0 0 0 0 /\
  IsDelinquent (Some mondayLoan) (time.Date 2023 5 29 0 0 0 0) (NewFromInt 110) = Ret true /\
  IsDelinquent (Some mondayLoan) (time.Date 2023 6 12 0 0 0 0) (NewFromInt 110) = Ret true.
Proof.
  destruct mondayLoan_checked as [H1 [H2 [H3 [H4 [H5 _]]]]].
  destruct mondayLoan_delinquent as [D Le].
  split; [exact H1|]. split; [exact H2|]. split; [exact H3|]. split; [exact H4|].
  split; [exact H5|]. split; [exact Le|]. split; [exact D|].
  exact (IsDelinquent_persists mondayLoan _ _ (NewFromInt 110) H1 H2 H3 H4 H5 Le D).
Defined.

End EntityFacts.

(** ** The postgres repository *)

Module RepositoryFacts.

Import businesserror decimal entity service vocabulary.
Import DecimalFacts TimeFacts LoanFacts EntityFacts.
Import postgres.
Local Open Scope Z_scope.

Lemma getLatestLoan_withFinish db commit rollback userID :
  getLatestLoan (withFinish db commit rollback) userID = getLatestLoan db userID.
Proof. reflexivity. Qed.

Ltac crush_step :=
  match goal with
  | H : _ /\ _ |- _ => destruct H
  | H : exists _, _ |- _ => destruct H
  | H : _ \/ _ |- _ => destruct H
  | H : False |- _ => destruct H
  | H : Some _ = None |- _ => discriminate H
  | H : None = Some _ |- _ => discriminate H
  | H : Ok _ = Err _ |- _ => discriminate H
  | H : Err _ = Ok _ |- _ => discriminate H
  | H : Ret _ = Panic |- _ => discriminate H
  | H : Panic = Ret _ |- _ => discriminate H
  | H : true = false |- _ => discriminate H
  | H : false = true |- _ => discriminate H
  | H : _ :: _ = [] |- _ => discriminate H
  | H : [] = _ :: _ |- _ => discriminate H
  | H : ?a <> ?a |- _ => exfalso; apply H; reflexivity
  | H : _ = _ :> op |- _ => first [discriminate H | injection H; clear H; intros; subst]
  | H : _ = _ :> list op |- _ => first [discriminate H | injection H; clear H; intros; subst]
  | H : Ok _ = Ok _ |- _ => injection H; clear H; intros; subst
  | H : Some _ = Some _ |- _ => injection H; clear H; intros; subst
  | H : Ret _ = Ret _ |- _ => injection H; clear H; intros; subst
  end.

Ltac crush :=
  repeat (cbn [log result loan newPaidAmount paymentErr app In hd_error last finishes filter
               err loanPayment loanAfter shouldUpdateLoan] in *;
          crush_step);
  cbn [log result loan newPaidAmount paymentErr app In hd_error last finishes filter
       err loanPayment loanAfter shouldUpdateLoan] in *.

Ltac fin :=
  unfold not; intros; crush;
  first [ reflexivity | assumption | eassumption | congruence
        | split; fin | eexists; fin | left; fin | right; fin ].

(** X16.  What [Repository.CreateLoan] reports and does.  It returns nil
    when BEGIN, the lookup of the latest loan, the validation and the
    INSERT all succeed, and otherwise the error of the first of the
    four that failed, as that step gave it; what COMMIT or ROLLBACK
    answer never reaches the caller.  The loan is inserted only after
    the validation has passed.  The transaction is rolled back when
    the lookup or the INSERT failed, and committed otherwise: also
    when the validation failed. *)
Theorem CreateLoan_reports (db : DB) (loan : Loan)
    (validateFn : option Loan -> option error) :
  let r := CreateLoan db loan validateFn in
  (result r = None <->
   BeginTx db = None /\
   exists latestLoan, getLatestLoan db (UserID loan) = Ok latestLoan /\
     validateFn latestLoan = None /\ insertLoan db (toPostgresLoan loan) = None) /\
  (forall e, result r = Some e <->
     BeginTx db = Some e \/
     (BeginTx db = None /\
      (getLatestLoan db (UserID loan) = Err e \/
       exists latestLoan, getLatestLoan db (UserID loan) = Ok latestLoan /\
         (validateFn latestLoan = Some e \/
          (validateFn latestLoan = None /\
           insertLoan db (toPostgresLoan loan) = Some e))))) /\
  (forall commit rollback,
     result (CreateLoan (withFinish db commit rollback) loan validateFn) = result r) /\
  (forall row, In (OpInsertLoan row) (log r) ->
     row = toPostgresLoan loan /\
     exists latestLoan, getLatestLoan db (UserID loan) = Ok latestLoan /\
       validateFn latestLoan = None) /\
  (In OpRollback (log r) <->
   BeginTx db = None /\
   ((exists e, getLatestLoan db (UserID loan) = Err e) \/
    (exists latestLoan, getLatestLoan db (UserID loan) = Ok latestLoan /\
       validateFn latestLoan = None /\ insertLoan db (toPostgresLoan loan) <> None))) /\
  (In OpCommit (log r) <->
   BeginTx db = None /\
   exists latestLoan, getLatestLoan db (UserID loan) = Ok latestLoan /\
     (validateFn latestLoan <> None \/ insertLoan db (toPostgresLoan loan) = None)).
Proof.
  intros r. subst r. unfold CreateLoan.
  cbn [BeginTx withFinish insertLoan].
  destruct (BeginTx db) as [e0|] eqn:B; [repeat split; intros; fin|].
  destruct (getLatestLoan db (UserID loan)) as [latestLoan|e1] eqn:L;
    [destruct (validateFn latestLoan) as [e2|] eqn:V;
     [|destruct (insertLoan db (toPostgresLoan loan)) as [e3|] eqn:I]|];
    unfold finishTransaction; destruct (Rollback db); destruct (Commit db);
    (split; [split; intros; fin|]);
    (split; [intros err0; split; intros; fin|]);
    (split; [intros commit rollback; rewrite getLatestLoan_withFinish, L, ?V; reflexivity|]);
    (split; [intros; fin|]);
    (split; split; intros; fin).
Qed.

Ltac flow :=
  repeat (cbv beta iota zeta;
          match goal with
          | |- context [match ?x with _ => _ end] =>
            match x with
            | context [match _ with _ => _ end] => fail 1
            | _ => destruct x eqn:?
            end
          | |- context [if ?x then _ else _] => destruct x eqn:?
          end);
  cbv beta iota zeta.

(** X17.  The transaction of [Repository.MakePayment].  When BEGIN fails
    nothing else is sent.  Otherwise the transaction is finished
    exactly once, by the last statement.  It is rolled back exactly on
    the failures the call returns with no loan and a zero paid amount;
    a call that returns without error has committed successfully; the
    error of a failed COMMIT is returned; and a panic of the callback,
    or of the conversion of what it returned, leaves the transaction
    committed. *)
Theorem MakePayment_transaction (db : DB) (loanID : UUID) (paymentAmount : Decimal)
    (makePaymentFn : option Loan -> Decimal -> outcome PaymentResult) :
  let r := MakePayment db loanID paymentAmount makePaymentFn in
  (forall e, BeginTx db = Some e ->
     log r = [OpBegin] /\ result r = Ret (mkPaymentOutcome None zeroDecimal (Some e))) /\
  (BeginTx db = None -> finishedBy (log r) OpCommit \/ finishedBy (log r) OpRollback) /\
  (finishedBy (log r) OpRollback ->
     exists e, result r = Ret (mkPaymentOutcome None zeroDecimal (Some e))) /\
  (forall out, result r = Ret out -> paymentErr out = None ->
     finishedBy (log r) OpCommit /\ Commit db = None) /\
  (forall out, result r = Ret out -> finishedBy (log r) OpCommit ->
     paymentErr out = Commit db) /\
  (result r = Panic -> finishedBy (log r) OpCommit).
Proof.
  intros r. subst r.
  unfold MakePayment, failPayment, panicPayment, finishTransaction, finishedBy.
  flow; repeat split; intros; fin.
Qed.

(** What a call of [Repository.MakePayment] that returns without error
    went through. *)
Lemma MakePayment_committed (db : DB) (loanID : UUID) (paymentAmount : Decimal)
    (makePaymentFn : option Loan -> Decimal -> outcome PaymentResult) (out : PaymentOutcome) :
  let r := MakePayment db loanID paymentAmount makePaymentFn in
  result r = Ret out -> paymentErr out = None ->
  exists found currPaidAmount res lp,
    getLoan db loanID = Ok found /\ getLoanPaidAmount db loanID = Ok currPaidAmount /\
    makePaymentFn found currPaidAmount = Ret res /\ err res = None /\
    loanPayment res = Some lp /\
    loan out = loanAfter res /\
    newPaidAmount out = Add currPaidAmount (lpAmount lp) /\
    finishedBy (log r) OpCommit /\
    In (OpInsertLoanPayment (toPostgresLoanPayment lp)) (log r) /\
    (shouldUpdateLoan res = true ->
     exists l, loanAfter res = Some l /\ In (OpUpdateLoan (toPostgresLoan l)) (log r)) /\
    (shouldUpdateLoan res = false -> forall row, ~ In (OpUpdateLoan row) (log r)).
Proof.
  intros r. subst r.
  unfold MakePayment, failPayment, panicPayment, finishTransaction, finishedBy.
  flow; intros; crush;
    eexists _, _, _, _; repeat (split; [first [reflexivity|eassumption]|]);
    solve [intros; fin].
Qed.

(** X18.  What [Repository.MakePayment] writes.  A payment row is
    inserted only when the loan and the paid amount were read and the
    callback returned a payment without error; it is that payment.  The
    loan row is updated only after that INSERT succeeded and the
    callback asked for the update; it is the loan as the callback left
    it.  A call that returns without error returns that loan, with the
    payment added to the paid amount read. *)
Theorem MakePayment_writes (db : DB) (loanID : UUID) (paymentAmount : Decimal)
    (makePaymentFn : option Loan -> Decimal -> outcome PaymentResult) :
  let r := MakePayment db loanID paymentAmount makePaymentFn in
  (forall row, In (OpInsertLoanPayment row) (log r) ->
     exists found currPaidAmount res lp,
       getLoan db loanID = Ok found /\ getLoanPaidAmount db loanID = Ok currPaidAmount /\
       makePaymentFn found currPaidAmount = Ret res /\ err res = None /\
       loanPayment res = Some lp /\ row = toPostgresLoanPayment lp) /\
  (forall row, In (OpUpdateLoan row) (log r) ->
     exists found currPaidAmount res lp l,
       getLoan db loanID = Ok found /\ getLoanPaidAmount db loanID = Ok currPaidAmount /\
       makePaymentFn found currPaidAmount = Ret res /\ err res = None /\
       loanPayment res = Some lp /\
       insertLoanPayment db (toPostgresLoanPayment lp) = None /\
       shouldUpdateLoan res = true /\ loanAfter res = Some l /\ row = toPostgresLoan l) /\
  (forall out, result r = Ret out -> paymentErr out = None ->
     exists found currPaidAmount res lp,
       getLoan db loanID = Ok found /\ getLoanPaidAmount db loanID = Ok currPaidAmount /\
       makePaymentFn found currPaidAmount = Ret res /\ err res = None /\
       loanPayment res = Some lp /\
       loan out = loanAfter res /\
       newPaidAmount out = Add currPaidAmount (lpAmount lp) /\
       In (OpInsertLoanPayment (toPostgresLoanPayment lp)) (log r) /\
       (shouldUpdateLoan res = true ->
        exists l, loanAfter res = Some l /\ In (OpUpdateLoan (toPostgresLoan l)) (log r)) /\
       (shouldUpdateLoan res = false -> forall row, ~ In (OpUpdateLoan row) (log r))).
Proof.
  intros r. subst r.
  unfold MakePayment, failPayment, panicPayment, finishTransaction.
  flow; (split; [|split]); intros; crush;
    try (eexists _, _, _, _; repeat (split; [first [reflexivity|eassumption]|]);
         solve [intros; fin]);
    try (eexists _, _, _, _, _; repeat (split; [first [reflexivity|eassumption]|]);
         solve [intros; fin]).
Qed.

End RepositoryFacts.

(** ** The service over the repository *)

Module ServiceFacts.

Import businesserror decimal entity service vocabulary.
Import DecimalFacts TimeFacts LoanFacts EntityFacts RepositoryFacts.
Import postgres.
Local Open Scope Z_scope.

Lemma ensureBusinessError_Some e :
  exists b, ensureBusinessError (Some e) = Some (EBusiness b).
Proof.
  unfold ensureBusinessError. destruct (errors_As e) as [b|]; eexists; reflexivity.
Qed.

Lemma ensureBusinessError_found e b :
  errors_As e = Some b -> ensureBusinessError (Some e) = Some (EBusiness b).
Proof. intros H. unfold ensureBusinessError. rewrite H. reflexivity. Qed.

(** The loan [entity.CreateLoan] returns belongs to the user it was
    asked for, is ongoing and passes [validate]. *)
Lemma CreateLoan_fields newV7 clock userID amount weeks l :
  entity.CreateLoan newV7 clock userID amount weeks = Ret (Ok l) ->
  UserID l = userID /\ Status l = LoanStatusOngoing /\ validate l = None.
Proof.
  unfold entity.CreateLoan. destruct newV7 as [loanID|text]; [|discriminate].
  destruct (Mul amount interestRate) as [interest|]; [|discriminate].
  cbn [bind]. set (loan := mkLoan _ _ _ _ _ _ _ _).
  destruct (validate loan) eqn:V; [discriminate|].
  intros H. injection H as <-. repeat split. assumption.
Qed.

(** X19.  [Impl.CreateLoan] over the postgres repository.  Every error
    it returns is a business error, with the empty loan.  When the
    entity rejects the input no statement is sent.  A loan row is
    inserted only for a loan the entity accepted whose user's latest
    loan is absent or not ongoing; success returns that loan, after
    its INSERT.  A user whose latest loan is ongoing is refused with
    [ErrLoanStillHasOngoingLoan], and nothing is inserted. *)
Theorem CreateLoan_guarded (newV7 : NewV7) (clock : time.Time) (db : DB)
    (cmd : Impl.CreateLoanCommand) :
  let created := entity.CreateLoan newV7 clock (Impl.cmdUserID cmd) (Impl.cmdAmount cmd)
                                   (Impl.cmdPaymentDurationWeeks cmd) in
  let r := Impl.CreateLoan newV7 clock db cmd in
  (forall v e, result r = Ret (v, Some e) ->
     v = types.emptyLoan /\ exists b, e = EBusiness b) /\
  (forall e, created = Ret (Err e) -> log r = []) /\
  (forall row, In (OpInsertLoan row) (log r) ->
     exists l latestLoan,
       created = Ret (Ok l) /\ row = toPostgresLoan l /\
       getLatestLoan db (Impl.cmdUserID cmd) = Ok latestLoan /\
       ValidateLatestLoan (Some l) latestLoan = None) /\
  (forall v, result r = Ret (v, None) ->
     exists l, created = Ret (Ok l) /\ v = types.parseLoan (Some l) /\
       In (OpInsertLoan (toPostgresLoan l)) (log r)) /\
  (forall l latest,
     created = Ret (Ok l) -> BeginTx db = None ->
     getLatestLoan db (Impl.cmdUserID cmd) = Ok (Some latest) ->
     UserID latest = Impl.cmdUserID cmd -> Status latest = LoanStatusOngoing ->
     result r = Ret (types.emptyLoan, Some (EBusiness ErrLoanStillHasOngoingLoan)) /\
     forall row, ~ In (OpInsertLoan row) (log r)).
Proof.
  intros created r. subst r. unfold Impl.CreateLoan. fold created.
  destruct created as [[l|e]|] eqn:EC.
  - destruct (CreateLoan_fields _ _ _ _ _ _ EC) as [FU [FS FV]].
    unfold CreateLoan. rewrite FU.
    destruct (BeginTx db) as [e0|] eqn:B.
    { cbn [result log]. destruct (ensureBusinessError_Some e0) as [b Hb]. rewrite Hb.
      repeat split; intros; fin. }
    destruct (getLatestLoan db (Impl.cmdUserID cmd)) as [latestLoan|e1] eqn:L.
    2:{ cbn [result log]. destruct (ensureBusinessError_Some e1) as [b Hb]. rewrite Hb.
        unfold finishTransaction. destruct (Rollback db); repeat split; intros; fin. }
    destruct (ValidateLatestLoan (Some l) latestLoan) as [be|] eqn:V; cbn [option_map].
    { cbn [result log]. unfold ensureBusinessError. cbn [errors_As].
      unfold finishTransaction. destruct (Commit db);
        (split; [intros; fin|]); (split; [intros; fin|]); (split; [intros; fin|]);
        (split; [intros; fin|]);
        intros l' latest El _ Lt Hu Hs; injection El as <-; injection Lt as ->;
        cbn [ValidateLatestLoan] in V; rewrite FU, Hu, N.eqb_refl, Hs in V;
        cbn in V; assert (be = ErrLoanStillHasOngoingLoan) by congruence; subst be;
        (split; [reflexivity|]); intros; fin. }
    destruct (insertLoan db (toPostgresLoan l)) as [e3|] eqn:I.
    + cbn [result log]. destruct (ensureBusinessError_Some e3) as [b Hb]. rewrite Hb.
      unfold finishTransaction. destruct (Rollback db);
        (split; [intros; fin|]); (split; [intros; fin|]); (split; [intros; fin|]);
        (split; [intros; fin|]);
        intros l' latest El _ Lt Hu Hs; injection El as <-; injection Lt as ->;
        cbn [ValidateLatestLoan] in V; rewrite FU, Hu, N.eqb_refl, Hs in V;
        cbn in V; discriminate V.
    + cbn [result log].
      unfold finishTransaction. destruct (Commit db);
        (split; [intros; fin|]); (split; [intros; fin|]); (split; [intros; fin|]);
        (split; [intros; fin|]);
        intros l' latest El _ Lt Hu Hs; injection El as <-; injection Lt as ->;
        cbn [ValidateLatestLoan] in V; rewrite FU, Hu, N.eqb_refl, Hs in V;
        cbn in V; discriminate V.
  - cbn [result log]. destruct (ensureBusinessError_Some e) as [b Hb]. rewrite Hb.
    repeat split; intros; fin.
  - cbn [result log]. repeat split; intros; fin.
Qed.

(** X20.  [Impl.GetCurrentLoan] over the postgres repository.  It only
    reads.  Every error it returns is a business error, with the empty
    detail.  When the user has no loan, or the latest one is not
    ongoing, it returns [ErrLoanNotFound] without reading the payments.
    A detail returned without error is that of the user's latest loan,
    which is ongoing: its outstanding amount, bill and delinquency are
    those of the entity at the paid amount read. *)
Theorem GetCurrentLoan_reads (now : time.Time) (db : DB) (q : Impl.GetCurrentLoanQuery) :
  let r := Impl.GetCurrentLoan now db q in
  readOnly (log r) /\
  (forall v e, result r = Ret (v, Some e) ->
     v = types.emptyLoanDetail /\ exists b, e = EBusiness b) /\
  (forall found,
     getLatestLoan db (Impl.qUserID q) = Ok found ->
     (found = None \/ exists l, found = Some l /\ Status l <> LoanStatusOngoing) ->
     result r = Ret (types.emptyLoanDetail, Some (EBusiness ErrLoanNotFound)) /\
     log r = [OpSelectLatestLoan (Impl.qUserID q)]) /\
  (forall v, result r = Ret (v, None) ->
     exists l paid bill,
       getLatestLoan db (Impl.qUserID q) = Ok (Some l) /\
       Status l = LoanStatusOngoing /\
       getLoanPaidAmount db (ID l) = Ok paid /\
       CurrentBillAmount (Some l) now paid = Ret bill /\
       IsDelinquent (Some l) now paid = Ret (types.IsDelinquent v) /\
       v = types.mkLoanDetail (types.parseLoan (Some l))
             (OutstandingAmount (Some l) paid) bill (types.IsDelinquent v) /\
       types.Status (types.Loan_ v) = types.LoanStatusOngoing).
Proof.
  intros r. subst r. unfold Impl.GetCurrentLoan, GetLatestLoan, GetLoanPaidAmount.
  cbn [result log].
  destruct (getLatestLoan db (Impl.qUserID q)) as [[l|]|e1] eqn:L.
  - destruct (Z.eqb_spec (Status l) LoanStatusOngoing) as [On|Off]; cbn [negb].
    + destruct (getLoanPaidAmount db (ID l)) as [paid|e2] eqn:P; cbn [result log app].
      * split; [intros o [<-|[<-|[]]]; exact I|].
        destruct (CurrentBillAmount (Some l) now paid) as [bill|] eqn:EB; cbn [bind];
          [destruct (IsDelinquent (Some l) now paid) as [b|] eqn:ED; cbn [bind]|];
          (split; [intros; fin|]); (split; [intros; fin|]); intros v H; try discriminate H.
        injection H as <-. exists l, paid, bill.
        repeat split; try assumption; try reflexivity.
        cbn. unfold types.parseLoanStatus. rewrite On. reflexivity.
      * destruct (ensureBusinessError_Some e2) as [b Hb]. rewrite Hb.
        split; [intros o [<-|[<-|[]]]; exact I|].
        repeat split; intros; fin.
    + cbn [result log]. split; [intros o [<-|[]]; exact I|]. repeat split; intros; fin.
  - cbn [result log]. split; [intros o [<-|[]]; exact I|]. repeat split; intros; fin.
  - cbn [result log]. destruct (ensureBusinessError_Some e1) as [b Hb]. rewrite Hb.
    split; [intros o [<-|[]]; exact I|]. repeat split; intros; fin.
Qed.

(** X21.  For a validated ongoing loan whose total is at least its
    number of weeks, [Impl.GetCurrentLoan] returns a detail whenever
    the two reads succeed and the paid amount is not negative; its
    bill lies between zero and the outstanding amount, which is at most
    the total. *)
Theorem GetCurrentLoan_returns (now : time.Time) (db : DB) (q : Impl.GetCurrentLoanQuery)
    (l : Loan) (paid : Decimal) :
  getLatestLoan db (Impl.qUserID q) = Ok (Some l) ->
  Status l = LoanStatusOngoing ->
  getLoanPaidAmount db (ID l) = Ok paid ->
  validate l = None ->
  int32 (PaymentDurationWeeks l) ->
  roomy (PaymentAmount l) -> roomy paid -> (0 <= toQ paid)%Q ->
  (inject_Z (PaymentDurationWeeks l) <= toQ (PaymentAmount l))%Q ->
  exists v,
    result (Impl.GetCurrentLoan now db q) = Ret (v, None) /\
    types.Loan_ v = types.parseLoan (Some l) /\
    (0 <= toQ (types.CurrentBillAmount v))%Q /\
    (toQ (types.CurrentBillAmount v) <= toQ (types.OutstandingAmount v))%Q /\
    (toQ (types.OutstandingAmount v) <= toQ (PaymentAmount l))%Q.
Proof.
  intros L On P Hval HW32 HR HRp Hp Big.
  destruct (validate_ok l Hval) as [_ [_ [_ [HW [HT _]]]]].
  destruct (IsDelinquent_total l now paid Hval HW32 HR HRp Hp Big) as [b ED].
  destruct (CurrentBillAmount_le_total l now paid) as [bill [EB [Le _]]];
    [destruct HW32; split; assumption|assumption|assumption|].
  unfold Impl.GetCurrentLoan, GetLatestLoan, GetLoanPaidAmount. cbn [result log].
  rewrite L. rewrite On. change (negb (LoanStatusOngoing =? LoanStatusOngoing)) with false.
  cbv iota. rewrite P. cbn [result]. rewrite EB, ED. cbn [bind].
  eexists. split; [reflexivity|]. cbn [types.Loan_ types.CurrentBillAmount
                                       types.OutstandingAmount types.parseLoanDetail].
  split; [reflexivity|].
  split; [apply (CurrentBillAmount_nonneg _ _ _ _ EB)|].
  rewrite OutstandingAmount_billQ. split; [assumption|].
  apply billQ_le; lra.
Qed.

Lemma errors_As_combined e other b :
  errors_As e = Some b -> errors_As (ECombine e other) = Some b.
Proof. intros H. cbn [errors_As]. rewrite H. reflexivity. Qed.

(** X22.  Refusals of [Impl.MakePayment] over the postgres repository.
    Every error it returns is a business error, with the empty detail.
    When the entity refuses the payment with an error that carries a
    business error, that business error is returned, whether or not the
    rollback succeeds; the transaction is rolled back and nothing is
    written.  A loan id with no row is refused with
    [ErrLoanNotFound]. *)
Theorem MakePayment_refused (now : time.Time) (newV7 : NewV7) (clock clock2 : time.Time)
    (db : DB) (cmd : Impl.MakePaymentCommand) :
  let r := Impl.MakePayment now newV7 clock clock2 db cmd in
  (forall v e, result r = Ret (v, Some e) ->
     v = types.emptyLoanDetail /\ exists b, e = EBusiness b) /\
  (forall found paid res e b,
     BeginTx db = None ->
     getLoan db (Impl.cmdLoanID cmd) = Ok found ->
     getLoanPaidAmount db (Impl.cmdLoanID cmd) = Ok paid ->
     entity.MakePayment newV7 clock clock2 found now paid (Impl.cmdPaymentAmount cmd)
       = Ret res ->
     err res = Some e -> errors_As e = Some b ->
     result r = Ret (types.emptyLoanDetail, Some (EBusiness b)) /\
     finishedBy (log r) OpRollback /\
     (forall row, ~ In (OpInsertLoanPayment row) (log r)) /\
     (forall row, ~ In (OpUpdateLoan row) (log r))) /\
  (forall paid,
     BeginTx db = None ->
     getLoan db (Impl.cmdLoanID cmd) = Ok None ->
     getLoanPaidAmount db (Impl.cmdLoanID cmd) = Ok paid ->
     result r = Ret (types.emptyLoanDetail, Some (EBusiness ErrLoanNotFound))).
Proof.
  intros r. subst r. unfold Impl.MakePayment. cbn [result log].
  split; [|split].
  - intros v e.
    destruct (result (MakePayment _ _ _ _)) as [out|]; cbn [bind]; [|discriminate].
    destruct (paymentErr out) as [e'|].
    + destruct (ensureBusinessError_Some e') as [b Hb]. rewrite Hb.
      intros H. injection H as <- <-. split; [reflexivity|]. exists b. reflexivity.
    + destruct (entity.CurrentBillAmount _ _ _); cbn [bind]; [|discriminate].
      destruct (entity.IsDelinquent _ _ _); cbn [bind]; discriminate.
  - intros found paid res e b B L P HM HE HA.
    unfold MakePayment, failPayment. rewrite B, L, P, HM, HE.
    unfold finishTransaction, finishedBy.
    destruct (Rollback db) as [rb|]; cbn [result log bind paymentErr app].
    + rewrite (ensureBusinessError_found _ _ (errors_As_combined e rb b HA)).
      repeat split; intros; fin.
    + rewrite (ensureBusinessError_found _ _ HA). repeat split; intros; fin.
  - intros paid B L P.
    unfold MakePayment, failPayment. rewrite B, L, P.
    cbn [entity.MakePayment err]. unfold finishTransaction.
    destruct (Rollback db); reflexivity.
Qed.

Lemma exp_Add a b : exp (Add a b) = Z.min (exp a) (exp b).
Proof. unfold Add. rewrite RescalePair_spec. reflexivity. Qed.

Lemma roomy_Add a b : roomy a -> roomy b -> roomy (Add a b).
Proof. unfold roomy. rewrite exp_Add. lia. Qed.

Lemma IsDelinquent_markedPaid l clock2 now paid :
  IsDelinquent (Some (markedPaid l clock2)) now paid = Ret false.
Proof.
  unfold IsDelinquent. cbn [markedPaid Status].
  change (LoanStatusPaid =? LoanStatusPaid) with true. reflexivity.
Qed.

(** After an accepted payment that does not complete the total, the
    weekly amount is not zero and the loan is not delinquent. *)
Lemma not_delinquent_after_payment newV7 clock clock2 l now paid pay r :
  validate l = None ->
  int32 (PaymentDurationWeeks l) ->
  roomy (PaymentAmount l) -> roomy paid -> roomy pay -> (0 <= toQ paid)%Q ->
  Status l = LoanStatusOngoing ->
  entity.MakePayment newV7 clock clock2 (Some l) now paid pay = Ret r ->
  err r = None ->
  IsDelinquent (Some l) now (Add paid pay) = Ret false.
Proof.
  intros Hval HW32 HR HRp HRa Hp On HM HE.
  destruct (validate_ok l Hval) as [_ [_ [_ [HW [HT _]]]]].
  destruct (MakePayment_accepted _ _ _ _ _ _ _ _ HM HE) as [bill [lp [EB [PB [EQ _]]]]].
  destruct (bill_after_payment _ _ _ _ _ _ _ _ HM HE) as [bill' [B0 CB]].
  set (paid' := Add paid pay) in *.
  assert (Hp' : (0 <= toQ paid')%Q) by (unfold paid'; rewrite toQ_Add; lra).
  assert (HRp' : roomy paid') by (apply roomy_Add; assumption).
  destruct (IsDelinquent_spec l now paid' Hval HW32 HR HRp' Hp')
    as [w [bill'' [Ew [EB'' [Early [Late _]]]]]].
  rewrite (CB l (or_introl eq_refl)) in EB''. injection EB'' as <-.
  destruct (Qeq_dec (toQ (PaymentAmount l)) (toQ paid')) as [Eq|NEq].
  { apply Early. right. assumption. }
  (* the weekly amount is not zero: the bill was positive within the term *)
  destruct (CurrentBillAmount_spec l now paid HW HT HR)
    as [w' [k [b [Ew' [Ek [Hk [_ [_ [_ [_ [EB2 [VB _]]]]]]]]]]]].
  rewrite Ew in Ew'. injection Ew' as <-.
  rewrite EB in EB2. injection EB2 as <-.
  assert (NZ : ~ (toQ w == 0)%Q).
  { intros Z0. rewrite Ek in Z0.
    assert (k = 0).
    { change 0%Q with (inject_Z 0) in Z0. apply (proj1 (inject_Z_injective _ _)) in Z0.
      assumption. }
    subst k. unfold obligationQ in VB.
    destruct (Z.ltb_spec (currentWeek (Some l) now) (PaymentDurationWeeks l)).
    - rewrite Z.mul_0_l in VB. change (inject_Z 0) with 0%Q in VB.
      unfold billQ in VB. destruct (Qle_bool (toQ paid) 0) eqn:E.
      + apply Qle_bool_iff in E. lra.
      + lra.
    - apply NEq. unfold paid'. rewrite toQ_Add.
      unfold billQ in VB. destruct (Qle_bool (toQ paid) (toQ (PaymentAmount l))); lra. }
  destruct (Late ltac:(rewrite On; discriminate) NEq NZ) as [b [Hb Iff]].
  rewrite Hb. f_equal. destruct b; [|reflexivity]. exfalso.
  assert (T : true = true) by reflexivity. apply Iff in T.
  assert (Q0 : (toQ bill' / toQ w == 0)%Q).
  { rewrite B0. unfold Qdiv. ring. }
  rewrite Q0 in T. unfold half16 in T. lra.
Qed.

(** X23.  What a successful [Impl.MakePayment] on a validated ongoing
    loan returns and leaves.  The amount paid was the bill, which was
    positive.  The detail returned shows a bill of zero, no
    delinquency, and the outstanding amount reduced by the payment and
    not negative; its status is Paid exactly when nothing is
    outstanding.  The transaction was committed; it inserted the
    payment, and it updated the loan row exactly when nothing is
    outstanding. *)
Theorem MakePayment_settles (now : time.Time) (newV7 : NewV7) (clock clock2 : time.Time)
    (db : DB) (cmd : Impl.MakePaymentCommand) (l : Loan) (paid : Decimal)
    (v : types.LoanDetail) :
  let r := Impl.MakePayment now newV7 clock clock2 db cmd in
  let pay := Impl.cmdPaymentAmount cmd in
  getLoan db (Impl.cmdLoanID cmd) = Ok (Some l) ->
  getLoanPaidAmount db (Impl.cmdLoanID cmd) = Ok paid ->
  validate l = None ->
  int32 (PaymentDurationWeeks l) ->
  roomy (PaymentAmount l) -> roomy paid -> roomy pay -> (0 <= toQ paid)%Q ->
  Status l = LoanStatusOngoing ->
  result r = Ret (v, None) ->
  (exists bill, CurrentBillAmount (Some l) now paid = Ret bill /\
     (toQ pay == toQ bill)%Q /\ (0 < toQ pay)%Q) /\
  (toQ (types.CurrentBillAmount v) == 0)%Q /\
  types.IsDelinquent v = false /\
  (toQ (types.OutstandingAmount v) == toQ (PaymentAmount l) - toQ paid - toQ pay)%Q /\
  (0 <= toQ (types.OutstandingAmount v))%Q /\
  (types.Status (types.Loan_ v) = types.LoanStatusPaid <->
   (toQ (types.OutstandingAmount v) == 0)%Q) /\
  finishedBy (log r) OpCommit /\
  (exists paymentID,
     newV7 = V7 paymentID /\
     In (OpInsertLoanPayment (mkPostgresLoanPayment paymentID (ID l) pay clock clock)) (log r)) /\
  ((exists row, In (OpUpdateLoan row) (log r)) <->
   (toQ (types.OutstandingAmount v) == 0)%Q).
Proof.
  intros r pay L P Hval HW32 HR HRp HRa Hp On H.
  destruct (validate_ok l Hval) as [_ [_ [_ [HW [HT _]]]]].
  subst r. unfold Impl.MakePayment in *. cbn [result log] in *.
  set (fn := fun (loan : option Loan) (currPaidAmount : Decimal) =>
               entity.MakePayment newV7 clock clock2 loan now currPaidAmount
                                  (Impl.cmdPaymentAmount cmd)) in *.
  pose proof (MakePayment_committed db (Impl.cmdLoanID cmd) (Impl.cmdPaymentAmount cmd) fn)
    as Flow. cbv zeta in Flow.
  set (rr := MakePayment db (Impl.cmdLoanID cmd) (Impl.cmdPaymentAmount cmd) fn) in *.
  destruct (result rr) as [out|] eqn:RO; cbn [bind] in H; [|discriminate].
  destruct (paymentErr out) as [e|] eqn:PE.
  { destruct (ensureBusinessError_Some e) as [b Hb]. rewrite Hb in H. discriminate. }
  destruct (Flow out eq_refl PE)
    as [found [currPaid [res [lp [L' [P' [HM [HE [HLP [HLo [HNP [Fin [Ins [Upd NoUpd]]]]]]]]]]]]]].
  rewrite L in L'. injection L' as <-. rewrite P in P'. injection P' as <-.
  subst fn. cbv beta in HM. fold pay in HM.
  destruct (MakePayment_accepted _ _ _ _ _ _ _ _ HM HE)
    as [bill [lp' [EB [PB [EQ [CP [HLP' LA]]]]]]].
  rewrite HLP in HLP'. injection HLP' as <-.
  destruct newV7 as [paymentID|text]; [|discriminate].
  apply CreateLoanPayment_iff in CP. destruct CP as [-> _].
  cbn [lpAmount] in HNP.
  destruct (MakePayment_success _ _ _ _ _ _ _ _ HM HE) as [_ [_ [_ [_ [_ [HC HN]]]]]].
  destruct (MakePayment_within_total _ _ _ _ _ _ _ _
              (conj HW (proj2 HW32)) HT HR HM HE) as [Ppos Ple].
  destruct (bill_after_payment _ _ _ _ _ _ _ _ HM HE) as [bill' [B0 CB]].
  rewrite HNP, HLo in H.
  (* the loan the call left behind *)
  assert (After : exists l', loanAfter res = Some l' /\
            (l' = l \/ l' = markedPaid l clock2) /\
            PaymentAmount l' = PaymentAmount l /\
            IsDelinquent (Some l') now (Add paid pay) = Ret false /\
            (Status l' = LoanStatusPaid <-> (toQ paid + toQ pay == toQ (PaymentAmount l))%Q) /\
            (shouldUpdateLoan res = true <->
             (toQ paid + toQ pay == toQ (PaymentAmount l))%Q)).
  { destruct (Qeq_dec (toQ paid + toQ pay) (toQ (PaymentAmount l))) as [C|NC].
    - destruct (HC C) as [LA' SU]. exists (markedPaid l clock2).
      split; [assumption|]. split; [right; reflexivity|]. split; [reflexivity|].
      split; [apply IsDelinquent_markedPaid|]. split; split; intros; try assumption; reflexivity.
    - destruct (HN NC) as [LA' SU]. exists l.
      split; [assumption|]. split; [left; reflexivity|]. split; [reflexivity|].
      split; [apply (not_delinquent_after_payment _ _ _ _ _ _ _ _
                       Hval HW32 HR HRp HRa Hp On HM HE)|].
      split; split; intros F; try contradiction.
      + rewrite On in F. discriminate.
      + rewrite SU in F. discriminate. }
  destruct After as [l' [LA' [Which [FT [ND [StI SUI]]]]]].
  rewrite LA' in H. rewrite (CB l' Which), ND in H. cbn [bind] in H.
  injection H as <-.
  cbn [types.CurrentBillAmount types.IsDelinquent types.OutstandingAmount types.Loan_
       types.parseLoanDetail].
  assert (Out : (toQ (OutstandingAmount (Some l') (Add paid pay))
                 == toQ (PaymentAmount l) - toQ paid - toQ pay)%Q).
  { rewrite OutstandingAmount_billQ, FT. unfold billQ.
    rewrite (Qleb_comp _ _ (toQ_Add paid pay) _ _ (Qeq_refl _)).
    destruct (Qle_bool (toQ paid + toQ pay) (toQ (PaymentAmount l))) eqn:E.
    - rewrite toQ_Add. ring.
    - assert (G : ~ (toQ paid + toQ pay <= toQ (PaymentAmount l))%Q).
      { intros G. apply Qle_bool_iff in G. congruence. }
      contradiction. }
  split; [exists bill; repeat split; [assumption|lra|assumption]|].
  split; [assumption|]. split; [reflexivity|]. split; [assumption|].
  split; [rewrite Out; lra|].
  split.
  { cbn [types.parseLoan types.Status]. unfold types.parseLoanStatus.
    rewrite Out. split.
    - intros F. destruct Which as [->| ->].
      + rewrite On in F. discriminate F.
      + assert (G : Status (markedPaid l clock2) = LoanStatusPaid) by reflexivity.
        apply StI in G. lra.
    - intros F. assert (G : Status l' = LoanStatusPaid) by (apply StI; lra).
      rewrite G. reflexivity. }
  split; [assumption|].
  split; [exists paymentID; split; [reflexivity|exact Ins]|].
  rewrite Out. split.
  - intros [row Hin]. destruct (shouldUpdateLoan res) eqn:SU.
    + assert (G : (toQ paid + toQ pay == toQ (PaymentAmount l))%Q) by (apply SUI; reflexivity).
      lra.
    + exfalso. apply (NoUpd eq_refl row). assumption.
  - intros F. assert (G : shouldUpdateLoan res = true) by (apply SUI; lra).
    destruct (Upd G) as [l2 [_ Hin]]. eexists. exact Hin.
Qed.

Lemma sampleDB_reads (id : UUID) :
  getLatestLoan sampleDB id = Ok (Some mondayLoan) /\
  getLoan sampleDB id = Ok (Some mondayLoan) /\
  getLoanPaidAmount sampleDB id = Ok (NewFromInt 110).
Proof. repeat split. Qed.

Lemma GetCurrentLoan_returns_witness :
  let q := Impl.mkGetCurrentLoanQuery 9%N in
  let now := time.Date 2023 5 29 0 0 0 0 in
  getLatestLoan sampleDB (Impl.qUserID q) = Ok (Some mondayLoan) /\
  Status mondayLoan = LoanStatusOngoing /\
  getLoanPaidAmount sampleDB (ID mondayLoan) = Ok (NewFromInt 110) /\
  validate mondayLoan = None /\ int32 (PaymentDurationWeeks mondayLoan) /\
  roomy (PaymentAmount mondayLoan) /\ roomy (NewFromInt 110) /\
  (0 <= toQ (NewFromInt 110))%Q /\
  (inject_Z (PaymentDurationWeeks mondayLoan) <= toQ (PaymentAmount mondayLoan))%Q /\
  exists v,
    result (Impl.GetCurrentLoan now sampleDB q) = Ret (v, None) /\
    (toQ (types.CurrentBillAmount v) <= toQ (types.OutstandingAmount v))%Q.
Proof.
  cbv zeta.
  destruct mondayLoan_checked as [H1 [H2 [H3 [H4 [H5 H6]]]]].
  destruct (sampleDB_reads 9%N) as [L _]. destruct (sampleDB_reads (ID mondayLoan)) as [_ [_ P]].
  split; [exact L|]. split; [reflexivity|]. split; [exact P|].
  split; [exact H1|]. split; [exact H2|]. split; [exact H3|]. split; [exact H4|].
  split; [exact H5|]. split; [exact H6|].
  destruct (GetCurrentLoan_returns (time.Date 2023 5 29 0 0 0 0) sampleDB
              (Impl.mkGetCurrentLoanQuery 9%N) mondayLoan (NewFromInt 110)
              L eq_refl P H1 H2 H3 H4 H5 H6) as [v [A [_ [_ [B _]]]]].
  exists v. split; assumption.
Defined.

(** The second weekly amount of [mondayLoan], paid through the service
    in week 2. *)
Lemma sampleDB_payment :
  exists v,
    result (Impl.MakePayment (time.Date 2023 5 15 0 0 0 0) (V7 11%N) 5 6 sampleDB
              (Impl.mkMakePaymentCommand 7%N (NewFromInt 110))) = Ret (v, None).
Proof. eexists. vm_compute. reflexivity. Qed.

Lemma MakePayment_settles_witness :
  let cmd := Impl.mkMakePaymentCommand 7%N (NewFromInt 110) in
  let now := time.Date 2023 5 15 0 0 0 0 in
  getLoan sampleDB (Impl.cmdLoanID cmd) = Ok (Some mondayLoan) /\
  getLoanPaidAmount sampleDB (Impl.cmdLoanID cmd) = Ok (NewFromInt 110) /\
  validate mondayLoan = None /\ int32 (PaymentDurationWeeks mondayLoan) /\
  roomy (PaymentAmount mondayLoan) /\ roomy (NewFromInt 110) /\
  roomy (Impl.cmdPaymentAmount cmd) /\ (0 <= toQ (NewFromInt 110))%Q /\
  Status mondayLoan = LoanStatusOngoing /\
  exists v,
    result (Impl.MakePayment now (V7 11%N) 5 6 sampleDB cmd) = Ret (v, None) /\
    (toQ (types.CurrentBillAmount v) == 0)%Q /\
    types.IsDelinquent v = false /\
    finishedBy (log (Impl.MakePayment now (V7 11%N) 5 6 sampleDB cmd)) OpCommit.
Proof.
  cbv zeta.
  destruct mondayLoan_checked as [H1 [H2 [H3 [H4 [H5 _]]]]].
  destruct (sampleDB_reads 7%N) as [_ [L P]].
  split; [exact L|]. split; [exact P|].
  split; [exact H1|]. split; [exact H2|]. split; [exact H3|]. split; [exact H4|].
  split; [exact H4|]. split; [exact H5|]. split; [reflexivity|].
  destruct sampleDB_payment as [v E].
  destruct (MakePayment_settles (time.Date 2023 5 15 0 0 0 0) (V7 11%N) 5 6 sampleDB
              (Impl.mkMakePaymentCommand 7%N (NewFromInt 110)) mondayLoan (NewFromInt 110) v
              L P H1 H2 H3 H4 H4 H5 eq_refl E) as [_ [A [B [_ [_ [_ [C _]]]]]]].
  exists v. repeat split; try assumption; apply C.
Defined.

End ServiceFacts.

(** ** The gRPC boundary *)

Module GrpcFacts.

Import businesserror decimal entity service vocabulary.
Import DecimalFacts TimeFacts LoanFacts.
Local Open Scope Z_scope.

Lemma codeOf_Unknown k : grpc.codeOf k = grpc.Unknown <-> ~ declaredKind k.
Proof.
  unfold grpc.codeOf, declaredKind, KindInternal, KindBadRequest, KindUnprocessableEntity,
    KindNotFound, KindAlreadyExists.
  destruct (Z.eqb_spec k 0); [split; [discriminate|intros F; exfalso; apply F; tauto]|].
  destruct (Z.eqb_spec k 1); [split; [discriminate|intros F; exfalso; apply F; tauto]|].
  destruct (Z.eqb_spec k 2); [split; [discriminate|intros F; exfalso; apply F; tauto]|].
  destruct (Z.eqb_spec k 3); [split; [discriminate|intros F; exfalso; apply F; tauto]|].
  destruct (Z.eqb_spec k 4); [split; [discriminate|intros F; exfalso; apply F; tauto]|].
  split; [intros _; lia|reflexivity].
Qed.

Lemma codeOf_injective k1 k2 :
  declaredKind k1 -> declaredKind k2 -> (grpc.codeOf k1 = grpc.codeOf k2 <-> k1 = k2).
Proof.
  intros D1 D2. split; [|intros ->; reflexivity].
  destruct D1 as [ -> | [ -> | [ -> | [ -> | -> ] ] ] ];
    destruct D2 as [ -> | [ -> | [ -> | [ -> | -> ] ] ] ];
    intros H; try reflexivity; discriminate H.
Qed.

Lemma toGrpcError_found err b :
  errors_As err = Some b ->
  grpc.toGrpcError err = grpc.mkStatus (grpc.codeOf (kind b)) (grpc.Error err).
Proof. intros A. unfold grpc.toGrpcError. rewrite A. reflexivity. Qed.

(** X24.  [toGrpcError] maps the five declared kinds of the business
    error that [errors.As] finds to [Internal], [InvalidArgument],
    [FailedPrecondition], [NotFound] and [AlreadyExists].  The code is
    [Unknown] exactly when no business error is found or the one found
    is of none of the declared kinds.  A business error keeps its
    message, and two business errors of declared kinds get the same
    code exactly when they are of the same kind.  After
    [ensureBusinessError] an error without a business error in it is
    [Internal] with the generic message, whatever its own text was; an
    error with one keeps its code and carries the message of that
    business error alone. *)
Theorem toGrpcError_codes :
  (forall err b, errors_As err = Some b ->
     (kind b = KindInternal -> grpc.code (grpc.toGrpcError err) = grpc.Internal) /\
     (kind b = KindBadRequest -> grpc.code (grpc.toGrpcError err) = grpc.InvalidArgument) /\
     (kind b = KindUnprocessableEntity ->
      grpc.code (grpc.toGrpcError err) = grpc.FailedPrecondition) /\
     (kind b = KindNotFound -> grpc.code (grpc.toGrpcError err) = grpc.NotFound) /\
     (kind b = KindAlreadyExists -> grpc.code (grpc.toGrpcError err) = grpc.AlreadyExists)) /\
  (forall err, grpc.code (grpc.toGrpcError err) = grpc.Unknown <->
     match errors_As err with
     | Some b => ~ declaredKind (kind b)
     | None => True
     end) /\
  (forall text k, ~ declaredKind k ->
     grpc.toGrpcError (EBusiness (businesserror.New text k)) = grpc.mkStatus grpc.Unknown text) /\
  (forall b, grpc.message (grpc.toGrpcError (EBusiness b)) = msg b) /\
  (forall b1 b2, declaredKind (kind b1) -> declaredKind (kind b2) ->
     (grpc.code (grpc.toGrpcError (EBusiness b1)) = grpc.code (grpc.toGrpcError (EBusiness b2))
      <-> kind b1 = kind b2)) /\
  (forall e e', ensureBusinessError (Some e) = Some e' ->
     (errors_As e = None ->
      grpc.toGrpcError e' = grpc.mkStatus grpc.Internal "unexpected error, please try again") /\
     (forall b, errors_As e = Some b ->
      grpc.toGrpcError e' = grpc.mkStatus (grpc.code (grpc.toGrpcError e)) (msg b))).
Proof.
  split; [|split; [|split; [|split; [|split]]]].
  - intros err b A. rewrite (toGrpcError_found _ _ A). cbn [grpc.code].
    repeat split; intros ->; reflexivity.
  - intros err. unfold grpc.toGrpcError. cbn [grpc.code].
    destruct (errors_As err) as [b|].
    + apply codeOf_Unknown.
    + split; reflexivity.
  - intros text k D. apply codeOf_Unknown in D.
    unfold grpc.toGrpcError. cbn [errors_As KindOf kind grpc.Error businesserror.Error msg].
    rewrite D. reflexivity.
  - intros b. reflexivity.
  - intros b1 b2 D1 D2. unfold grpc.toGrpcError. cbn [errors_As grpc.code KindOf].
    apply codeOf_injective; assumption.
  - intros e e'. unfold ensureBusinessError.
    destruct (errors_As e) as [b|] eqn:A; intros H; injection H as <-.
    + split; [discriminate|]. intros b' E. injection E as <-.
      rewrite (toGrpcError_found _ _ A). reflexivity.
    + split; [|discriminate]. intros _. reflexivity.
Qed.

End GrpcFacts.
